(** * The shopping cart of the e-commerce demo

    A shallow embedding of the cart of [Kiro-Workshop/ecommerce]:

    - [Sqlite]: the two tables of [backend/models/database.js] and the six
      SQL statements the cart routes send, each a function on the store;
    - [CartRoutes]: the four handlers of [backend/routes/cart.js];
    - [CartPage]: the total, its display and the quantity controls of
      [frontend/src/pages/Cart.js];
    - [Interleaved]: the handlers run as Node runs them, one callback at a
      time, so that two requests may overlap between a statement and the
      callback that follows it;
    - [ProductRoutes]: the two handlers of [backend/routes/products.js];
    - [Database]: the start of the server, which creates the tables and
      inserts the catalog, of [backend/models/database.js];
    - [ProductPage]: the states, the quantity selector and [addToCart] of
      [frontend/src/pages/Product.js];
    - [CartPageView]: the list [Cart] holds, [fetchCart] and what [Cart]
      renders;
    - [Chatbot]: the states and [sendMessage] of
      [frontend/src/components/Chatbot.js].

    Scope of the model.  An id is an integer ([Z]) or SQL NULL (a JSON
    [null] or a missing body field): text that spells an integer, as a path
    parameter or the product id the product page sends, is that integer to
    a column of [INTEGER] affinity and is modelled by it, and so is a JSON
    number of that value and of magnitude below 2^53; other text, ids
    outside SQLite's 64-bit range and ids sent as larger numbers are not
    modelled.
    A quantity is NULL or a JSON number without fraction, given by its
    integer value.  JavaScript holds it as a binary64 number; the driver
    binds it as an [INTEGER] when it is a 32-bit integer and as a [REAL]
    otherwise; SQLite adds [INTEGER]s in 64 bits and anything else in
    binary64; and the driver hands a stored quantity back as a binary64
    number.  All of this is modelled.  The quantity column is given by the
    integer value it holds, which is an [INTEGER] strictly inside the 64-bit
    range and a [REAL] outside; not modelled are the [INTEGER] -2^63, which
    only a sum that lands on it produces, quantities with a fraction, and
    numbers that are not finite (a literal beyond the binary64 range is
    [Infinity] to JavaScript).  Prices are binary64 numbers, as a [REAL]
    column and a JavaScript number hold them.
    A statement fails only on a constraint the schema declares and SQLite
    enforces ([NOT NULL]); I/O failures of the database file are not
    modelled.  SQLite enforces a [FOREIGN KEY] clause only after
    [PRAGMA foreign_keys = ON], which the program never issues, so the clause
    of the cart table has no effect on any statement. *)

From Stdlib Require Import ZArith List String Bool Lia Floats Sorted.
From Stdlib Require Import DecimalString.
Import ListNotations.

Set Warnings "-inexact-float".

Local Open Scope string_scope.
Local Open Scope list_scope.
Local Open Scope Z_scope.

(* ================================================================== *)
(** * The database: [backend/models/database.js]                       *)
(* ================================================================== *)

Module Sqlite.

(** A value bound to a [?] of a statement. *)
Inductive value : Type :=
| VNull
| VInt (z : Z).

(** A row of [products]. *)
Record product : Type := mkProduct {
  p_id : Z;
  p_name : string;
  p_emoji : string;
  p_price : float;
  p_description : string;
  p_category : string
}.

(** A row of [cart]. *)
Record cart_row : Type := mkCartRow {
  c_id : Z;
  c_product_id : Z;
  c_quantity : Z
}.

(** The database file: both tables in rowid order, and the entry of
    [sqlite_sequence] that [AUTOINCREMENT] keeps for [cart]. *)
Record store : Type := mkStore {
  products : list product;
  cart : list cart_row;
  cart_seq : Z
}.

(** What a callback receives: the result, or [err.message]. *)
Inductive result (A : Type) : Type :=
| Ok (a : A)
| Err (message : string).
Arguments Ok {A} a.
Arguments Err {A} message.

(** A JavaScript number of integer value [z]: the binary64 number nearest
    to [z].  A route receives the quantity of a request as such a number,
    and the driver hands an [INTEGER] column to a callback as one. *)
Definition number_of_Z (z : Z) : float :=
  SF2Prim (binary_normalize prec emax z 0 false).

(** The integer value of a finite binary64 number that has no fraction,
    from its sign, mantissa and exponent. *)
Definition integer_of_spec (x : spec_float) : Z :=
  match x with
  | S754_zero _ => 0
  | S754_nan => 0
  | S754_infinity s => if s then - 2 ^ 1024 else 2 ^ 1024
  | S754_finite s m e =>
      (if s then -1 else 1)
      * (if 0 <=? e then Z.pos m * 2 ^ e else Z.pos m / 2 ^ (- e))
  end.

Definition integer_of_number (f : float) : Z := integer_of_spec (Prim2SF f).

(** A number as SQLite holds it: an [INTEGER], of 64 bits, or a [REAL], a
    binary64 number. *)
Inductive sql_number : Type :=
| Integer (i : Z)
| Real (r : float).

Definition int32 (z : Z) : bool := (- 2 ^ 31 <=? z) && (z <? 2 ^ 31).

Definition int64 (z : Z) : bool := (- 2 ^ 63 <=? z) && (z <? 2 ^ 63).

(** What the driver binds to a [?] for a JavaScript number of value [z]: an
    [INTEGER] when the number is a 32-bit integer, a [REAL] otherwise. *)
Definition bind_number (z : Z) : sql_number :=
  if int32 z then Integer z else Real (number_of_Z z).

(** What the quantity column holds after it is given [n].  The column has
    [INTEGER] affinity: a [REAL] without fraction strictly inside the 64-bit
    range becomes the [INTEGER] of the same value, any other [REAL] is kept.
    Either way the value is that of [n]. *)
Definition in_column (n : sql_number) : Z :=
  match n with
  | Integer i => i
  | Real r => integer_of_number r
  end.

(** The number a quantity column of value [z] holds. *)
Definition of_column (z : Z) : sql_number :=
  if (- 2 ^ 63 <? z) && (z <? 2 ^ 63) then Integer z
  else Real (number_of_Z z).

(** An operand of a binary64 sum: an [INTEGER] is converted. *)
Definition real_of (n : sql_number) : float :=
  match n with
  | Integer i => number_of_Z i
  | Real r => r
  end.

(** [x + y]: the sum of two [INTEGER]s is their 64-bit sum unless that
    overflows; every other sum is the binary64 sum. *)
Definition sql_add (x y : sql_number) : sql_number :=
  match x, y with
  | Integer i, Integer j =>
      if int64 (i + j) then Integer (i + j)
      else Real (number_of_Z i + number_of_Z j)%float
  | _, _ => Real (real_of x + real_of y)%float
  end.

(** The quantity a column holds after [quantity = ?], and after
    [quantity = quantity + ?], with a number of value [q] bound. *)
Definition bound_quantity (q : Z) : Z := in_column (bind_number q).

Definition added_quantity (quantity q : Z) : Z :=
  in_column (sql_add (of_column quantity) (bind_number q)).

Arguments number_of_Z : simpl never.
Arguments integer_of_number : simpl never.
Arguments bound_quantity : simpl never.
Arguments added_quantity : simpl never.

(** [x = ?] under SQL's three-valued logic: NULL equals nothing. *)
Definition sql_eq (x : Z) (v : value) : bool :=
  match v with
  | VNull => false
  | VInt z => x =? z
  end.

Definition max_rowid (rows : list cart_row) : Z :=
  fold_right (fun r m => Z.max (c_id r) m) 0 rows.

(** The rowid [AUTOINCREMENT] gives the next inserted row: one more than the
    largest rowid the table holds or has ever held. *)
Definition next_rowid (s : store) : Z :=
  Z.max (max_rowid (cart s)) (cart_seq s) + 1.

(** [SELECT * FROM cart WHERE product_id = ?], read with [db.get]: the first
    matching row, or [undefined]. *)
Definition select_cart_by_product (s : store) (product_id : value)
  : option cart_row :=
  find (fun r => sql_eq (c_product_id r) product_id) (cart s).

(** [UPDATE cart SET quantity = quantity + ? WHERE product_id = ?].
    Every matching row is updated, the sum being SQLite's; the statement
    aborts, changing nothing, when a row would receive NULL in the
    [NOT NULL] column. *)
Definition update_cart_add (s : store) (quantity product_id : value)
  : result store :=
  match quantity with
  | VNull =>
      if existsb (fun r => sql_eq (c_product_id r) product_id) (cart s)
      then Err "SQLITE_CONSTRAINT: NOT NULL constraint failed: cart.quantity"
      else Ok s
  | VInt q =>
      Ok (mkStore (products s)
            (map (fun r => if sql_eq (c_product_id r) product_id
                           then mkCartRow (c_id r) (c_product_id r)
                                          (added_quantity (c_quantity r) q)
                           else r) (cart s))
            (cart_seq s))
  end.

(** [INSERT INTO cart (product_id, quantity) VALUES (?, ?)]: the new row and
    [this.lastID].  The [NOT NULL] columns are checked in column order. *)
Definition insert_cart (s : store) (product_id quantity : value)
  : result (store * Z) :=
  match product_id, quantity with
  | VNull, _ =>
      Err "SQLITE_CONSTRAINT: NOT NULL constraint failed: cart.product_id"
  | VInt _, VNull =>
      Err "SQLITE_CONSTRAINT: NOT NULL constraint failed: cart.quantity"
  | VInt p, VInt q =>
      let id := next_rowid s in
      Ok (mkStore (products s)
                  (cart s ++ [mkCartRow id p (bound_quantity q)]) id, id)
  end.

(** [UPDATE cart SET quantity = ? WHERE id = ?]. *)
Definition update_cart_set (s : store) (quantity : value) (id : Z)
  : result store :=
  match quantity with
  | VNull =>
      if existsb (fun r => c_id r =? id) (cart s)
      then Err "SQLITE_CONSTRAINT: NOT NULL constraint failed: cart.quantity"
      else Ok s
  | VInt q =>
      Ok (mkStore (products s)
            (map (fun r => if c_id r =? id
                           then mkCartRow (c_id r) (c_product_id r)
                                          (bound_quantity q)
                           else r) (cart s))
            (cart_seq s))
  end.

(** [DELETE FROM cart WHERE id = ?]. *)
Definition delete_cart (s : store) (id : Z) : store :=
  mkStore (products s)
          (filter (fun r => negb (c_id r =? id)) (cart s))
          (cart_seq s).

(** A row of [SELECT c.id, c.quantity, p.* FROM cart c JOIN products p ON
    c.product_id = p.id] as the callback sees it.  The statement has two
    columns called [id]; the driver fills one object per row, column by
    column, so the later [p.id] replaces [c.id]: [j_id] is the product's id,
    and the line's id is not in the object.  The quantity is a JavaScript
    number. *)
Record joined_row : Type := mkJoined {
  j_id : Z;
  j_quantity : float;
  j_name : string;
  j_emoji : string;
  j_price : float;
  j_description : string;
  j_category : string
}.

Definition join_row (c : cart_row) (p : product) : joined_row :=
  mkJoined (p_id p) (number_of_Z (c_quantity c)) (p_name p) (p_emoji p)
           (p_price p) (p_description p) (p_category p).

(** The join, cart rows in the outer loop: a cart row yields one object per
    product whose id it references, and none when there is no such product. *)
Definition select_cart_join (s : store) : list joined_row :=
  flat_map (fun c =>
              map (join_row c)
                  (filter (fun p => c_product_id c =? p_id p) (products s)))
           (cart s).

(** The catalog the first start inserts: rowids 1 to 20 in this order. *)
Definition seed : list (string * string * float * string * string) :=
  [ ("Laptop Pro", "💻", 1299.99%float, "High-performance laptop", "Electronics");
    ("Smartphone X", "📱", 899.99%float, "Latest smartphone", "Electronics");
    ("Wireless Headphones", "🎧", 199.99%float, "Noise-canceling headphones", "Audio");
    ("Smart Watch", "⌚", 349.99%float, "Fitness tracking watch", "Wearables");
    ("Camera DSLR", "📷", 1499.99%float, "Professional camera", "Photography");
    ("Gaming Console", "🎮", 499.99%float, "Next-gen gaming", "Gaming");
    ("Tablet Plus", "📱", 599.99%float, "Portable tablet", "Electronics");
    ("Bluetooth Speaker", "🔊", 79.99%float, "Portable speaker", "Audio");
    ("Keyboard Mechanical", "⌨️", 149.99%float, "RGB mechanical keyboard", "Accessories");
    ("Mouse Wireless", "🖱️", 49.99%float, "Ergonomic mouse", "Accessories");
    ("Monitor 4K", "🖥️", 699.99%float, "27-inch 4K display", "Electronics");
    ("Webcam HD", "📹", 89.99%float, "1080p webcam", "Accessories");
    ("External SSD", "💾", 179.99%float, "1TB storage", "Storage");
    ("Power Bank", "🔋", 39.99%float, "20000mAh capacity", "Accessories");
    ("USB Hub", "🔌", 29.99%float, "7-port USB hub", "Accessories");
    ("Desk Lamp", "💡", 44.99%float, "LED desk lamp", "Office");
    ("Office Chair", "🪑", 299.99%float, "Ergonomic chair", "Furniture");
    ("Backpack Tech", "🎒", 79.99%float, "Laptop backpack", "Accessories");
    ("Water Bottle", "💧", 24.99%float, "Insulated bottle", "Lifestyle");
    ("Coffee Maker", "☕", 129.99%float, "Programmable coffee maker", "Kitchen") ].

Fixpoint insert_products (id : Z)
  (rows : list (string * string * float * string * string)) : list product :=
  match rows with
  | [] => []
  | (name, emoji, price, description, category) :: rest =>
      mkProduct id name emoji price description category
      :: insert_products (id + 1) rest
  end.

(** The database after the first start: the seeded catalog, an empty cart. *)
Definition fresh_db : store :=
  mkStore (insert_products 1 seed) [] 0.

End Sqlite.

(* ================================================================== *)
(** * The cart routes: [backend/routes/cart.js]                        *)
(* ================================================================== *)

Module CartRoutes.
Import Sqlite.

(** What [res.json] sends. *)
Inductive json_body : Type :=
| JRows (rows : list joined_row)
| JIdMessage (id : Z) (message : string)
| JMessage (message : string)
| JError (error : string).

Record response : Type := mkResponse {
  status : Z;
  body : json_body
}.

(** [router.get('/')]. *)
Definition get_cart (s : store) : response :=
  mkResponse 200 (JRows (select_cart_join s)).

(** [router.post('/')], the callback of [db.get]: the route has read [row]
    and now updates or inserts. *)
Definition post_cart_write (s : store) (product_id quantity : value)
  (row : option cart_row) : store * response :=
  match row with
  | Some r =>
      match update_cart_add s quantity product_id with
      | Err m => (s, mkResponse 500 (JError m))
      | Ok s' => (s', mkResponse 200 (JIdMessage (c_id r) "Cart updated"))
      end
  | None =>
      match insert_cart s product_id quantity with
      | Err m => (s, mkResponse 500 (JError m))
      | Ok (s', lastID) =>
          (s', mkResponse 200 (JIdMessage lastID "Added to cart"))
      end
  end.

(** [router.post('/')] served alone: the [SELECT], then its callback. *)
Definition post_cart (s : store) (product_id quantity : value)
  : store * response :=
  post_cart_write s product_id quantity
                  (select_cart_by_product s product_id).

(** [router.put('/:id')]. *)
Definition put_cart (s : store) (id : Z) (quantity : value)
  : store * response :=
  match update_cart_set s quantity id with
  | Err m => (s, mkResponse 500 (JError m))
  | Ok s' => (s', mkResponse 200 (JMessage "Quantity updated"))
  end.

(** [router.delete('/:id')]. *)
Definition delete_cart_line (s : store) (id : Z) : store * response :=
  (delete_cart s id, mkResponse 200 (JMessage "Item removed")).

(** The three mutations of the cart service, by the names of the
    specification. *)
Inductive operation : Type :=
| AddOrIncrement (product_id quantity : value)
| SetQuantity (line_id : Z) (quantity : value)
| Remove (line_id : Z).

Definition serve (s : store) (o : operation) : store * response :=
  match o with
  | AddOrIncrement product_id quantity => post_cart s product_id quantity
  | SetQuantity line_id quantity => put_cart s line_id quantity
  | Remove line_id => delete_cart_line s line_id
  end.

(** Requests served one after the other. *)
Definition serve_all (s : store) (os : list operation) : store :=
  fold_left (fun s o => fst (serve s o)) os s.

End CartRoutes.

(* ================================================================== *)
(** * The cart page: [frontend/src/pages/Cart.js]                      *)
(* ================================================================== *)

Module CartPage.
Import Sqlite CartRoutes.

(** [cartItems.reduce((sum, item) => sum + (item.price * item.quantity), 0)]. *)
Definition total (cartItems : list joined_row) : float :=
  fold_left (fun sum item => (sum + j_price item * j_quantity item)%float)
            cartItems 0%float.

Definition digits (n : Z) : string :=
  NilZero.string_of_uint (N.to_uint (Z.to_N n)).

(** [n] hundredths as text: at least three digits, a point before the last
    two. *)
Definition hundredths (n : Z) : string :=
  (digits (n / 100) ++ "." ++
   digits ((n mod 100) / 10) ++ digits (n mod 10))%string.

(** [x.toFixed(2)] (ECMA-262, Number.prototype.toFixed): the integer [n]
    nearest to [100 * |x|], the larger one on a tie, printed as hundredths.
    [None] stands for the branch of a finite [|x| >= 10^21], which prints in
    exponent notation and is not modelled. *)
Definition toFixed2 (x : float) : option string :=
  match Prim2SF x with
  | S754_nan => Some "NaN"
  | S754_infinity false => Some "Infinity"
  | S754_infinity true => Some "-Infinity"
  | S754_zero _ => Some "0.00"
  | S754_finite sign m e =>
      let num := if 0 <=? e then Z.pos m * 2 ^ e else Z.pos m in
      let den := if 0 <=? e then 1 else 2 ^ (- e) in
      if 10 ^ 21 * den <=? num then None
      else
        let n := (200 * num + den) / (2 * den) in
        Some ((if sign then "-" else "") ++ hundredths n)%string
  end.

(** What the page shows after [Total: $]. *)
Definition shown_total (cartItems : list joined_row) : option string :=
  toFixed2 (total cartItems).

(** The arithmetic of the page is that of JavaScript numbers.  A quantity
    of the page is given by its integer value, and a sum or a difference is
    the binary64 number nearest to the exact one, the one of even mantissa
    on a tie: an integer of magnitude up to 2^53 is itself; a larger one, of
    [e + 53] bits, keeps its 53 leading bits [m], rounded by the [e] bits
    [r] that are dropped.  This is the rounding of [number_of_Z], for
    numbers that are finite. *)
Definition binary64 (z : Z) : Z :=
  if Z.abs z <=? 2 ^ 53 then z
  else
    let e := Z.log2 (Z.abs z) - 52 in
    let m := Z.abs z / 2 ^ e in
    let r := Z.abs z mod 2 ^ e in
    let half := 2 ^ (e - 1) in
    let up := (half <? r) || ((r =? half) && Z.odd m) in
    Z.sgn z * ((if up then m + 1 else m) * 2 ^ e).

Arguments binary64 : simpl never.

(** The integer value of [item.quantity]. *)
Definition quantity_shown (item : joined_row) : Z :=
  integer_of_number (j_quantity item).

(** The quantity the [-] button sends: [Math.max(1, item.quantity - 1)]. *)
Definition minus_button (quantity : Z) : Z :=
  Z.max 1 (binary64 (quantity - 1)).

(** The quantity the [+] button sends: [item.quantity + 1]. *)
Definition plus_button (quantity : Z) : Z := binary64 (quantity + 1).

(** The quantity the input field sends:
    [Math.max(1, parseInt(e.target.value) || 1)].  [None] is the [NaN] of a
    text that does not start with an integer; [Some n] is the integer the
    text starts with, which [parseInt] returns as a number. *)
Definition input_change (parsed : option Z) : Z :=
  Z.max 1 (match parsed with
           | None => 1
           | Some 0 => 1
           | Some n => binary64 n
           end).

(** [updateQuantity(id, quantity)]: [PUT /api/cart/${id}]. *)
Definition updateQuantity (s : store) (id quantity : Z) : store :=
  fst (put_cart s id (VInt quantity)).

(** [removeItem(id)]: [DELETE /api/cart/${id}]. *)
Definition removeItem (s : store) (id : Z) : store :=
  fst (delete_cart_line s id).

(** The handlers of the three buttons of an item of the page. *)
Definition click_minus (s : store) (item : joined_row) : store :=
  updateQuantity s (j_id item) (minus_button (quantity_shown item)).

Definition click_plus (s : store) (item : joined_row) : store :=
  updateQuantity s (j_id item) (plus_button (quantity_shown item)).

Definition click_remove (s : store) (item : joined_row) : store :=
  removeItem s (j_id item).

End CartPage.

(* ================================================================== *)
(** * Requests in flight together                                      *)
(* ================================================================== *)

Module Interleaved.
Import Sqlite CartRoutes.

(** Node runs one callback at a time and SQLite one statement at a time, but
    a route that sends a statement from the callback of another gives way in
    between.  A request is either waiting for its first statement, or (only
    [router.post('/')]) waiting for the callback of its [SELECT] with the
    row it read, or answered. *)
Inductive phase : Type :=
| Arrived (o : operation)
| Selected (product_id quantity : value) (row : option cart_row)
| Responded (r : response).

(** The next statement of one request, with the callback that receives its
    result. *)
Definition step (s : store) (ph : phase) : store * phase :=
  match ph with
  | Arrived (AddOrIncrement product_id quantity) =>
      (s, Selected product_id quantity
                   (select_cart_by_product s product_id))
  | Arrived o =>
      let (s', r) := serve s o in (s', Responded r)
  | Selected product_id quantity row =>
      let (s', r) := post_cart_write s product_id quantity row in
      (s', Responded r)
  | Responded r => (s, Responded r)
  end.

Fixpoint set_nth (phs : list phase) (i : nat) (ph : phase) : list phase :=
  match phs, i with
  | [], _ => []
  | _ :: rest, O => ph :: rest
  | x :: rest, S j => x :: set_nth rest j ph
  end.

(** The request at position [i] moves; a position nobody holds moves nothing. *)
Definition advance (sys : store * list phase) (i : nat)
  : store * list phase :=
  match nth_error (snd sys) i with
  | None => sys
  | Some ph =>
      let (s', ph') := step (fst sys) ph in (s', set_nth (snd sys) i ph')
  end.

(** A schedule names, move by move, the request that goes next. *)
Definition run (sys : store * list phase) (schedule : list nat)
  : store * list phase :=
  fold_left advance schedule sys.

End Interleaved.

(* ================================================================== *)
(** * Vocabulary of the properties                                     *)
(* ================================================================== *)

Module Props.
Import Sqlite CartRoutes CartPage Interleaved.

(** The lines the cart holds for a product. *)
Definition lines_of (product_id : Z) (s : store) : list cart_row :=
  filter (fun r => c_product_id r =? product_id) (cart s).

(** The quantity the cart holds for a product: that of its first line, 0
    without a line. *)
Definition quantity_of (product_id : Z) (s : store) : Z :=
  match select_cart_by_product s (VInt product_id) with
  | Some r => c_quantity r
  | None => 0
  end.

(** At most one line per product. *)
Definition one_line_per_product (s : store) : Prop :=
  NoDup (map c_product_id (cart s)).

(** The sum of the increments a sequence of requests asks for a product. *)
Fixpoint increments (product_id : Z) (os : list operation) : Z :=
  match os with
  | [] => 0
  | AddOrIncrement (VInt p) (VInt q) :: rest =>
      (if p =? product_id then q else 0) + increments product_id rest
  | _ :: rest => increments product_id rest
  end.

(** The cart has a line for the product. *)
Definition has_line (product_id : Z) (s : store) : bool :=
  existsb (fun r => c_product_id r =? product_id) (cart s).

(** The sequence asks an increment, of an integer quantity, for the product. *)
Fixpoint added (product_id : Z) (os : list operation) : bool :=
  match os with
  | [] => false
  | AddOrIncrement (VInt p) (VInt _) :: rest =>
      (p =? product_id) || added product_id rest
  | _ :: rest => added product_id rest
  end.

(** A [SetQuantity] or [Remove] that names a line of the product. *)
Definition targets (s : store) (o : operation) (product_id : Z) : bool :=
  match o with
  | AddOrIncrement _ _ => false
  | SetQuantity line_id _ | Remove line_id =>
      existsb (fun r => (c_id r =? line_id) && (c_product_id r =? product_id))
              (cart s)
  end.

(** Along the sequence, only [AddOrIncrement] touches the product. *)
Fixpoint only_added (product_id : Z) (s : store) (os : list operation)
  : bool :=
  match os with
  | [] => true
  | o :: rest =>
      negb (targets s o product_id)
      && only_added product_id (fst (serve s o)) rest
  end.

(** A product with this id is in the catalog. *)
Definition in_catalog (s : store) (product_id : Z) : bool :=
  existsb (fun p => product_id =? p_id p) (products s).

(** The store without the lines whose product is not in the catalog. *)
Definition without_orphans (s : store) : store :=
  mkStore (products s)
          (filter (fun c => in_catalog s (c_product_id c)) (cart s))
          (cart_seq s).

(** A request was refused: any status but 200. *)
Definition refused (r : response) : Prop := status r <> 200.




(** The row an increment leaves in the place of [x]. *)
Definition incremented (p q : Z) (x : cart_row) : cart_row :=
  if c_product_id x =? p
  then mkCartRow (c_id x) (c_product_id x) (added_quantity (c_quantity x) q)
  else x.

(** The row a [SetQuantity] leaves in the place of [x]. *)
Definition overwritten (id q : Z) (x : cart_row) : cart_row :=
  if c_id x =? id
  then mkCartRow (c_id x) (c_product_id x) (bound_quantity q)
  else x.

(** The sum of a stored quantity and an increment is a 64-bit sum: the
    quantity is an [INTEGER] and the sum does not overflow. *)
Definition sum_fits (quantity q : Z) : Prop :=
  - 2 ^ 63 < quantity < 2 ^ 63 /\ - 2 ^ 63 <= quantity + q < 2 ^ 63.

(** The increments of a sequence of requests are 32-bit integers, and the
    sequence has at most 2^31 requests: no sum of them leaves the 64-bit
    range. *)
Definition small_increment (o : operation) : Prop :=
  match o with
  | AddOrIncrement _ (VInt q) => int32 q = true
  | _ => True
  end.

Definition small_increments (os : list operation) : Prop :=
  Forall small_increment os /\ Z.of_nat (List.length os) <= 2 ^ 31.


(** Requests for increments of one product, all just arrived. *)
Definition adds_of (product_id : Z) (qs : list Z) : list phase :=
  map (fun q => Arrived (AddOrIncrement (VInt product_id) (VInt q))) qs.

(** The number of requests that have not answered yet. *)
Definition waiting (ph : phase) : Z :=
  match ph with
  | Responded _ => 0
  | _ => 1
  end.

Definition unanswered (phs : list phase) : Z :=
  fold_right (fun ph acc => waiting ph + acc) 0 phs.

(** The increment a request has asked and not yet written. *)
Definition pending (ph : phase) : Z :=
  match ph with
  | Arrived (AddOrIncrement _ (VInt q)) => q
  | Selected _ (VInt q) _ => q
  | _ => 0
  end.

Definition pending_sum (phs : list phase) : Z :=
  fold_right (fun ph acc => pending ph + acc) 0 phs.

Definition responded (ph : phase) : bool :=
  match ph with
  | Responded _ => true
  | _ => false
  end.

(** A request for an increment, a 32-bit integer, of the product that has
    arrived, or has read a line, or has answered 200. *)
Definition increment_in_flight (product_id : Z) (ph : phase) : Prop :=
  match ph with
  | Arrived (AddOrIncrement (VInt p) (VInt q)) =>
      p = product_id /\ int32 q = true
  | Selected (VInt p) (VInt q) (Some _) => p = product_id /\ int32 q = true
  | Responded r => status r = 200
  | _ => False
  end.

(** What stays true while increments of product [p] are in flight on a cart
    that has a line for it: the line is there, no line comes or goes, the
    quantity held plus the increments not yet written is constant, and the
    quantity held leaves room for the increments to come. *)
Definition in_flight_invariant (p k : Z) (s0 : store)
  (sys : store * list phase) : Prop :=
  has_line p (fst sys) = true
  /\ Forall (increment_in_flight p) (snd sys)
  /\ quantity_of p (fst sys) + pending_sum (snd sys) = k
  /\ Z.abs (quantity_of p (fst sys)) + 2 ^ 31 * unanswered (snd sys) < 2 ^ 63
  /\ map c_id (cart (fst sys)) = map c_id (cart s0)
  /\ map c_product_id (cart (fst sys)) = map c_product_id (cart s0).

(** The cart table is in rowid order, below the recorded sequence. *)
Definition rowid_order (s : store) : Prop :=
  StronglySorted Z.lt (map c_id (cart s))
  /\ Forall (fun r => c_id r <= cart_seq s) (cart s).

End Props.

(* ================================================================== *)
(** * The product routes: [backend/routes/products.js]                 *)
(* ================================================================== *)

Module ProductRoutes.
Import Sqlite.

(** What [res.json] sends from these routes. *)
Inductive product_body : Type :=
| PRows (rows : list product)
| PRow (row : product)
| PError (error : string).

Record product_response : Type := mkProductResponse {
  p_status : Z;
  p_body : product_body
}.

(** [SELECT * FROM products WHERE id = ?], read with [db.get]: the first
    matching row, or [undefined]. *)
Definition select_product_by_id (s : store) (id : Z) : option product :=
  find (fun p => p_id p =? id) (products s).

(** [router.get('/')]: [SELECT * FROM products]. *)
Definition get_products (s : store) : product_response :=
  mkProductResponse 200 (PRows (products s)).

(** [router.get('/:id')]. *)
Definition get_product (s : store) (id : Z) : product_response :=
  match select_product_by_id s id with
  | None => mkProductResponse 404 (PError "Product not found")
  | Some row => mkProductResponse 200 (PRow row)
  end.

End ProductRoutes.

(* ================================================================== *)
(** * Opening the database: [backend/models/database.js]               *)
(* ================================================================== *)

Module Database.
Import Sqlite.

(** The database file as the start of the server finds it: the tables, and
    the entry of [sqlite_sequence] for [products]. *)
Record db_file : Type := mkDb {
  tables : store;
  products_seq : Z
}.

(** A file that did not exist: [CREATE TABLE IF NOT EXISTS] makes both
    tables, empty. *)
Definition new_file : db_file := mkDb (mkStore [] [] 0) 0.

Definition max_product_rowid (rows : list product) : Z :=
  fold_right (fun p m => Z.max (p_id p) m) 0 rows.

(** [stmt.run(p)]: [INSERT INTO products (name, emoji, price, description,
    category) VALUES (?, ?, ?, ?, ?)], the rowid given by [AUTOINCREMENT]. *)
Definition insert_product (d : db_file)
  (p : string * string * float * string * string) : db_file :=
  let '(name, emoji, price, description, category) := p in
  let id := Z.max (max_product_rowid (products (tables d)))
                  (products_seq d) + 1 in
  mkDb (mkStore (products (tables d)
                 ++ [mkProduct id name emoji price description category])
                (cart (tables d)) (cart_seq (tables d)))
       id.

(** The [db.serialize] block: on tables that exist the two
    [CREATE TABLE IF NOT EXISTS] do nothing; the catalog is inserted, row by
    row, when [SELECT COUNT( * ) FROM products] is 0. *)
Definition start (d : db_file) : db_file :=
  if Nat.eqb (List.length (products (tables d))) 0
  then fold_left insert_product seed d
  else d.

End Database.

(* ================================================================== *)
(** * The product page: [frontend/src/pages/Product.js]                *)
(* ================================================================== *)

Module ProductPage.
Import Sqlite CartRoutes CartPage ProductRoutes.

(** The page of [/product/:id]: the route parameter [id] and the states
    [product] and [quantity]. *)
Record page : Type := mkPage {
  pp_id : Z;
  pp_product : option product_body;
  pp_quantity : Z
}.

(** [useState(null)] and [useState(1)]. *)
Definition mount (id : Z) : page := mkPage id None 1.

(** The effect: [fetch] of [/api/products/${id}], [res.json()] and
    [setProduct(data)].  [fetch] resolves on a 404 as on a 200, so [data] is
    the body of either answer. *)
Definition loaded (s : store) (pg : page) : page :=
  mkPage (pp_id pg) (Some (p_body (get_product s (pp_id pg))))
         (pp_quantity pg).

(** [if (!product) return Loading]: the controls are on the page once
    [product] is not [null]; the body of an answer is an object, which is
    truthy. *)
Definition shows_controls (pg : page) : bool :=
  match pp_product pg with
  | Some _ => true
  | None => false
  end.

(** The [-] button, the [+] button and the input field of the quantity
    selector; [None] is the [NaN] of [parseInt]. *)
Inductive control : Type :=
| Minus
| Plus
| Input (parsed : option Z).

(** [setQuantity(Math.max(1, quantity - 1))], [setQuantity(quantity + 1)]
    and [setQuantity(Math.max(1, parseInt(e.target.value) || 1))]. *)
Definition use_control (pg : page) (c : control) : page :=
  if shows_controls pg
  then mkPage (pp_id pg) (pp_product pg)
              (match c with
               | Minus => minus_button (pp_quantity pg)
               | Plus => plus_button (pp_quantity pg)
               | Input parsed => input_change parsed
               end)
  else pg.

Definition use_controls (pg : page) (cs : list control) : page :=
  fold_left use_control cs pg.

(** [addToCart]: [POST /api/cart] with [{ product_id: id, quantity }]. *)
Definition addToCart (s : store) (pg : page) : store * response :=
  post_cart s (VInt (pp_id pg)) (VInt (pp_quantity pg)).

End ProductPage.

(* ================================================================== *)
(** * What the cart page renders: [frontend/src/pages/Cart.js]         *)
(* ================================================================== *)

Module CartPageView.
Import Sqlite CartRoutes CartPage.

(** [useState([])]: the list the page holds until a fetch resolves. *)
Definition mounted : list joined_row := [].

(** How the [fetch] of [fetchCart] ends: with the body of an answer, or
    rejected. *)
Inductive fetched : Type :=
| Resolved (data : json_body)
| Rejected.

(** [GET /api/cart] answered by the server. *)
Definition answered (s : store) : fetched := Resolved (body (get_cart s)).

(** [fetchCart], from the list the page holds: [setCartItems(data)] when the
    fetch resolves, and the list is kept when it is rejected, which is only
    logged.  [None] is a body that is not a list, on which the page cannot
    compute. *)
Definition fetchCart (cartItems : list joined_row) (f : fetched)
  : option (list joined_row) :=
  match f with
  | Resolved (JRows rows) => Some rows
  | Resolved _ => None
  | Rejected => Some cartItems
  end.

(** What [Cart] returns: the message of the empty cart when
    [cartItems.length === 0], else the items and the total. *)
Inductive rendering : Type :=
| EmptyCart
| Items (cartItems : list joined_row) (total_shown : option string).

Definition render (cartItems : list joined_row) : rendering :=
  if Nat.eqb (List.length cartItems) 0
  then EmptyCart
  else Items cartItems (shown_total cartItems).

(** A click on a button of an item: the request, then [fetchCart], which
    the server answers. *)
Definition after_click (click : store -> joined_row -> store) (s : store)
  (cartItems : list joined_row) (item : joined_row)
  : store * option (list joined_row) :=
  (click s item, fetchCart cartItems (answered (click s item))).

End CartPageView.

(* ================================================================== *)
(** * More vocabulary                                                  *)
(* ================================================================== *)

Module Measures.
Import Sqlite CartRoutes CartPage Interleaved Props.

(** The units the cart holds for a product, over all its lines. *)
Definition units_of (product_id : Z) (s : store) : Z :=
  fold_right (fun r acc => c_quantity r + acc) 0 (lines_of product_id s).

(** A request for an increment, a 32-bit integer that is not negative, of
    the product, that has arrived, or has run its [SELECT], finding a line
    only if the cart has one, or has answered. *)
Definition growing (product_id : Z) (s : store) (ph : phase) : Prop :=
  match ph with
  | Arrived (AddOrIncrement (VInt p) (VInt q)) =>
      p = product_id /\ 0 <= q < 2 ^ 31
  | Selected (VInt p) (VInt q) row =>
      p = product_id /\ 0 <= q < 2 ^ 31
      /\ (row <> None -> has_line product_id s = true)
  | Responded _ => True
  | _ => False
  end.

(** Every line of the product holds an [INTEGER] that leaves room for
    [room] more units. *)
Definition lines_have_room (product_id : Z) (s : store) (room : Z) : Prop :=
  forall r, In r (cart s) -> c_product_id r = product_id ->
            - 2 ^ 63 < c_quantity r /\ c_quantity r + room < 2 ^ 63.

(** The line's id is its product's id. *)
Definition aligned (c : cart_row) : Prop := c_id c = c_product_id c.

End Measures.

(* ================================================================== *)
(** * The chat window: [frontend/src/components/Chatbot.js]            *)
(* ================================================================== *)

Module Chatbot.

(** A JavaScript string: its UTF-16 code units. *)
Definition js_string : Type := list N.

Definition js (text : string) : js_string :=
  map Ascii.N_of_ascii (list_ascii_of_string text).

(** The code units [trim] removes: ECMA-262's WhiteSpace (tab, vertical
    tab, form feed, the byte order mark and the space separators) and
    LineTerminator. *)
Definition white (c : N) : bool :=
  ((c =? 9) || (c =? 10) || (c =? 11) || (c =? 12) || (c =? 13)
   || (c =? 32) || (c =? 160) || (c =? 5760)
   || ((8192 <=? c) && (c <=? 8202))
   || (c =? 8232) || (c =? 8233) || (c =? 8239) || (c =? 8287)
   || (c =? 12288) || (c =? 65279))%N.

Fixpoint trim_start (t : js_string) : js_string :=
  match t with
  | [] => []
  | c :: rest => if white c then trim_start rest else t
  end.

(** [String.prototype.trim]. *)
Definition trim (t : js_string) : js_string :=
  rev (trim_start (rev (trim_start t))).

Inductive role : Type := user | assistant.

Record message : Type := mkMessage {
  m_role : role;
  content : js_string
}.

(** The four states of the component. *)
Record chat : Type := mkChat {
  isOpen : bool;
  messages : list message;
  inputMessage : js_string;
  isLoading : bool
}.

(** [useState(false)], [useState([])], [useState('')], [useState(false)]. *)
Definition initial : chat := mkChat false [] [] false.

(** How the [fetch] of [sendMessage] ends: a body that parsed, with its
    [status] and [response], or an exception ([fetch] rejected, or the body
    was not JSON). *)
Inductive outcome : Type :=
| Answered (status response : js_string)
| Threw.

(** What the user, and the network, can do to the component. *)
Inductive event : Type :=
| Toggle
| Close
| Type_ (text : js_string)
| Submit
| Settle (o : outcome).

(** [sendMessage] up to its [await]: nothing on a blank input; else the
    input is cleared, the trimmed text is appended as the user's message and
    the request leaves. *)
Definition sendMessage (st : chat) : chat :=
  match trim (inputMessage st) with
  | [] => st
  | userMessage =>
      mkChat (isOpen st)
             (messages st ++ [mkMessage user userMessage])
             [] true
  end.

(** [sendMessage] from its [await] on: the assistant's message, which is
    [data.response] when [data.status === 'success'] and an apology
    otherwise, and [setIsLoading(false)]. *)
Definition settle (st : chat) (o : outcome) : chat :=
  let reply :=
    match o with
    | Answered status response =>
        if list_eq_dec N.eq_dec status (js "success")
        then response
        else js "Sorry, I encountered an error. Please try again."
    | Threw =>
        js ("Sorry, I could not connect to the chatbot service. "
            ++ "Please make sure it is running.")
    end in
  mkChat (isOpen st) (messages st ++ [mkMessage assistant reply])
         (inputMessage st) false.

(** The window is rendered when [isOpen]; its input and its button are
    disabled while [isLoading]; a request settles once. *)
Definition handle (st : chat) (e : event) : chat :=
  match e with
  | Toggle =>
      mkChat (negb (isOpen st)) (messages st) (inputMessage st)
             (isLoading st)
  | Close =>
      if isOpen st
      then mkChat false (messages st) (inputMessage st) (isLoading st)
      else st
  | Type_ text =>
      if isOpen st && negb (isLoading st)
      then mkChat (isOpen st) (messages st) text (isLoading st)
      else st
  | Submit =>
      if isOpen st && negb (isLoading st) then sendMessage st else st
  | Settle o =>
      if isLoading st then settle st o else st
  end.

Definition handle_all (st : chat) (es : list event) : chat :=
  fold_left handle es st.

(** The roles alternate, the user first; [next] is the role due. *)
Fixpoint alternates (next : role) (ms : list message) : Prop :=
  match ms with
  | [] => True
  | m :: rest =>
      m_role m = next
      /\ alternates (match next with user => assistant | assistant => user end)
                    rest
  end.

(** A text with something in it and no white space at either end. *)
Definition trimmed (t : js_string) : Prop :=
  t <> [] /\ trim t = t.

(** Nothing to trim at the start. *)
Definition clean (t : js_string) : Prop :=
  match t with
  | [] => True
  | c :: _ => white c = false
  end.

Definition flip (r : role) : role :=
  match r with
  | user => assistant
  | assistant => user
  end.

(** What every state of the chat window satisfies. *)
Definition well_formed (st : chat) : Prop :=
  alternates user (messages st)
  /\ isLoading st = Nat.odd (List.length (messages st))
  /\ Forall (fun m => m_role m = user -> trimmed (content m)) (messages st).

End Chatbot.

Import Sqlite CartRoutes CartPage Interleaved Props.
Import ProductRoutes Database ProductPage CartPageView Measures.

(* ================================================================== *)
(** * Lists of rows                                                    *)
(* ================================================================== *)

Section Rows.
Context {A : Type}.
Variables (sel : A -> bool) (f : A -> A).

Lemma find_map_stable (l : list A) :
  (forall x, sel (f x) = sel x) ->
  find sel (map f l) = option_map f (find sel l).
Proof.
  intros Hsel. induction l as [|x l IH]; simpl; [reflexivity|].
  rewrite Hsel. destruct (sel x); [reflexivity | exact IH].
Qed.

Lemma find_app_last (l : list A) (x : A) :
  find sel (l ++ [x]) =
  match find sel l with
  | Some y => Some y
  | None => if sel x then Some x else None
  end.
Proof.
  induction l as [|y l IH]; simpl; [reflexivity|].
  destruct (sel y); [reflexivity | exact IH].
Qed.

Lemma find_filter_keeps (keep : A -> bool) (l : list A) :
  (forall x, In x l -> sel x = true -> keep x = true) ->
  find sel (filter keep l) = find sel l.
Proof.
  induction l as [|y l IH]; intros Hk; simpl; [reflexivity|].
  destruct (sel y) eqn:Hy.
  - rewrite (Hk y (or_introl eq_refl) Hy). simpl. now rewrite Hy.
  - destruct (keep y); simpl; [rewrite Hy|]; apply IH;
      intros x Hx; apply Hk; now right.
Qed.

Lemma existsb_find (l : list A) :
  existsb sel l = match find sel l with Some _ => true | None => false end.
Proof.
  induction l as [|y l IH]; simpl; [reflexivity|].
  destruct (sel y); [reflexivity | exact IH].
Qed.
End Rows.

Lemma NoDup_map_filter {A B : Type} (g : A -> B) (keep : A -> bool)
  (l : list A) :
  NoDup (map g l) -> NoDup (map g (filter keep l)).
Proof.
  induction l as [|x l IH]; simpl; intros H; [exact H|].
  inversion H as [|? ? Hnotin Hrest]; subst.
  destruct (keep x); simpl; [constructor|]; auto.
  intros Hin. apply Hnotin. apply in_map_iff in Hin.
  destruct Hin as [y [Hy Hin]]. apply filter_In in Hin.
  apply in_map_iff. exists y. tauto.
Qed.

Lemma NoDup_snoc {B : Type} (l : list B) (x : B) :
  NoDup l -> ~ In x l -> NoDup (l ++ [x]).
Proof.
  intros Hl Hx. induction Hl as [|y l Hy Hl IH]; simpl.
  - constructor; [intros [] | constructor].
  - constructor.
    + rewrite in_app_iff. simpl. intros [H|[H|[]]]; [tauto|].
      subst. apply Hx. now left.
    + apply IH. intros H. apply Hx. now right.
Qed.

(* ================================================================== *)
(** * Numbers                                                          *)
(* ================================================================== *)

Lemma digits2_pos_lower (m : positive) :
  2 ^ (Z.pos (digits2_pos m) - 1) <= Z.pos m.
Proof.
  induction m as [m IH|m IH|]; cbn [digits2_pos]; [| |cbn; lia].
  - rewrite Pos2Z.inj_succ.
    replace (Z.succ (Z.pos (digits2_pos m)) - 1)
      with (Z.succ (Z.pos (digits2_pos m) - 1)) by lia.
    rewrite Z.pow_succ_r by lia. lia.
  - rewrite Pos2Z.inj_succ.
    replace (Z.succ (Z.pos (digits2_pos m)) - 1)
      with (Z.succ (Z.pos (digits2_pos m) - 1)) by lia.
    rewrite Z.pow_succ_r by lia. lia.
Qed.

Lemma digits2_pos_small (m : positive) :
  Z.pos m < 2 ^ 53 -> Z.pos (digits2_pos m) <= 53.
Proof.
  intros Hm. destruct (Z_le_gt_dec (Z.pos (digits2_pos m)) 53) as [H|H];
    [exact H|].
  exfalso. pose proof (digits2_pos_lower m) as Hl.
  assert (2 ^ 53 <= 2 ^ (Z.pos (digits2_pos m) - 1))
    by (apply Z.pow_le_mono_r; lia).
  lia.
Qed.

Lemma digits2_pos_shift (k m : positive) :
  digits2_pos (Pos.iter xO m k) = (digits2_pos m + k)%positive.
Proof.
  induction k as [|k IH] using Pos.peano_ind.
  - cbn. lia.
  - rewrite Pos.iter_succ. cbn [digits2_pos]. rewrite IH. lia.
Qed.

Lemma shift_value (k m : positive) :
  Z.pos (Pos.iter xO m k) = Z.pos m * 2 ^ Z.pos k.
Proof.
  induction k as [|k IH] using Pos.peano_ind.
  - cbn. lia.
  - rewrite Pos.iter_succ, Pos2Z.inj_succ, Z.pow_succ_r by lia.
    rewrite Pos2Z.inj_xO, IH. lia.
Qed.

(** An integer below 2^53 is a binary64 number: the conversion shifts it to
    53 bits and rounds nothing away. *)
Lemma binary_round_small (s : bool) (m : positive) :
  Z.pos m < 2 ^ 53 ->
  exists m' e,
    binary_round prec emax s m 0 = S754_finite s m' e
    /\ valid_binary (S754_finite s m' e) = true
    /\ (if 0 <=? e then Z.pos m' * 2 ^ e else Z.pos m' / 2 ^ (- e)) = Z.pos m.
Proof.
  intros Hm. pose proof (digits2_pos_small m Hm) as Hd.
  unfold binary_round, shl_align, fexp, emin.
  change prec with 53. change emax with 1024.
  rewrite Z.add_0_r.
  replace (Z.max (Z.pos (digits2_pos m) - 53) (3 - 1024 - 53))
    with (Z.pos (digits2_pos m) - 53) by lia.
  rewrite Z.sub_0_r.
  destruct (Z.pos (digits2_pos m) - 53) as [|k|k] eqn:Hk; [| lia |].
  - exists m, 0.
    assert (Hdig : Z.pos (digits2_pos m) = 53) by lia.
    split; [|split].
    + unfold binary_round_aux, shr_fexp, fexp, emin, Zdigits2.
      rewrite Hdig.
      change (Z.max (53 + 0 - 53) (3 - 1024 - 53) - 0) with 0.
      cbn [shr shr_record_of_loc shr_m loc_of_shr_record round_nearest_even].
      unfold Zdigits2. rewrite Hdig.
      change (Z.max (53 + 0 - 53) (3 - 1024 - 53) - 0) with 0.
      cbn [shr shr_record_of_loc shr_m]. reflexivity.
    + unfold SpecFloat.valid_binary, bounded, canonical_mantissa, fexp, emin.
      rewrite Hdig. reflexivity.
    + cbn. lia.
  - exists (Pos.iter xO m k), (Z.neg k).
    assert (Hdig : Z.pos (digits2_pos (Pos.iter xO m k)) = 53)
      by (rewrite digits2_pos_shift; lia).
    assert (Hk' : Z.pos k <= 52)
      by (pose proof (Pos2Z.is_pos (digits2_pos m)); lia).
    split; [|split].
    + unfold binary_round_aux, shr_fexp, fexp, emin, Zdigits2.
      rewrite Hdig.
      replace (Z.max (53 + Z.neg k - 53) (3 - 1024 - 53) - Z.neg k)
        with 0 by lia.
      cbn [shr shr_record_of_loc shr_m loc_of_shr_record round_nearest_even].
      unfold Zdigits2. rewrite Hdig.
      replace (Z.max (53 + Z.neg k - 53) (3 - 1024 - 53) - Z.neg k)
        with 0 by lia.
      cbn [shr shr_record_of_loc shr_m].
      replace (Z.neg k <=? 1024 - 53) with true
        by (symmetry; apply Z.leb_le; lia).
      reflexivity.
    + unfold SpecFloat.valid_binary, bounded, canonical_mantissa, fexp, emin.
      rewrite Hdig. apply andb_true_iff.
      split; [apply Z.eqb_eq | apply Z.leb_le]; lia.
    + cbn [Z.leb Z.compare Z.opp]. rewrite shift_value.
      apply Z.div_mul. apply Z.pow_nonzero; lia.
Qed.

Lemma digits2_pos_upper (m : positive) :
  Z.pos m < 2 ^ Z.pos (digits2_pos m).
Proof.
  induction m as [m IH|m IH|]; cbn [digits2_pos]; [| |cbn; lia];
    rewrite Pos2Z.inj_succ, Z.pow_succ_r by lia; lia.
Qed.

Lemma digits2_pos_log2 (m : positive) :
  Z.pos (digits2_pos m) = Z.log2 (Z.pos m) + 1.
Proof.
  pose proof (digits2_pos_lower m). pose proof (digits2_pos_upper m).
  rewrite (Z.log2_unique (Z.pos m) (Z.pos (digits2_pos m) - 1)); [lia|lia|].
  replace (Z.succ (Z.pos (digits2_pos m) - 1)) with (Z.pos (digits2_pos m))
    by lia.
  lia.
Qed.

(** One shift to the right of a mantissa that is not negative: the bit
    that leaves is the round bit, and the sticky bit remembers the bits
    that left before. *)
Lemma shr_1_nonneg (m : Z) (r s : bool) :
  0 <= m ->
  shr_1 (Build_shr_record m r s) = Build_shr_record (m / 2) (Z.odd m) (r || s).
Proof.
  intros Hm. rewrite <- Z.div2_div.
  destruct m as [|[p|p|]|p]; try lia; reflexivity.
Qed.

Lemma iter_pos_iter {A : Type} (f : A -> A) (n : positive) (x : A) :
  iter_pos f n x = Pos.iter f x n.
Proof.
  revert x. induction n as [n IH|n IH|]; intros x; cbn [iter_pos Pos.iter].
  - rewrite !IH, !Pos.iter_swap. reflexivity.
  - now rewrite !IH.
  - reflexivity.
Qed.

Lemma iter_shr_1 (a : Z) (k : positive) :
  0 <= a ->
  Pos.iter shr_1 (Build_shr_record a false false) k =
  Build_shr_record (a / 2 ^ Z.pos k)
                   (Z.odd (a / 2 ^ (Z.pos k - 1)))
                   (negb (a mod 2 ^ (Z.pos k - 1) =? 0)).
Proof.
  intros Ha. induction k as [|k IH] using Pos.peano_ind.
  - cbn [Pos.iter]. rewrite shr_1_nonneg by lia.
    change (Z.pos 1 - 1) with 0.
    rewrite Z.pow_0_r, Z.div_1_r, Z.mod_1_r, Z.pow_1_r. reflexivity.
  - rewrite Pos.iter_succ, IH.
    assert (Hpow : 0 < 2 ^ Z.pos k) by (apply Z.pow_pos_nonneg; lia).
    assert (Hpow' : 0 < 2 ^ (Z.pos k - 1)) by (apply Z.pow_pos_nonneg; lia).
    rewrite shr_1_nonneg by (apply Z.div_pos; lia).
    rewrite Pos2Z.inj_succ.
    replace (Z.succ (Z.pos k) - 1) with (Z.pos k) by lia.
    rewrite Z.pow_succ_r by lia.
    rewrite Z.div_div by lia. rewrite (Z.mul_comm 2).
    f_equal.
    replace (2 ^ Z.pos k) with (2 ^ (Z.pos k - 1) * 2)
      by (rewrite Z.mul_comm, <- Z.pow_succ_r by lia; f_equal; lia).
    rewrite Z.rem_mul_r by lia.
    rewrite <- Z.bit0_mod, Z.bit0_odd.
    pose proof (Z.mod_pos_bound a (2 ^ (Z.pos k - 1)) Hpow').
    destruct (Z.odd (a / 2 ^ (Z.pos k - 1))); cbn [Z.b2z orb].
    + symmetry. apply negb_true_iff. apply Z.eqb_neq. lia.
    + now rewrite Z.mul_0_r, Z.add_0_r.
Qed.

(** Rounding to nearest, ties to even, from the round and sticky bits, is
    rounding by the comparison of the remainder with half of the unit. *)
Lemma round_nearest_even_up (a n : Z) :
  0 <= a -> 1 <= n ->
  round_nearest_even
    (a / 2 ^ n)
    (loc_of_shr_record
       (Build_shr_record (a / 2 ^ n) (Z.odd (a / 2 ^ (n - 1)))
                         (negb (a mod 2 ^ (n - 1) =? 0)))) =
  if (2 ^ (n - 1) <? a mod 2 ^ n)
     || ((a mod 2 ^ n =? 2 ^ (n - 1)) && Z.odd (a / 2 ^ n))
  then a / 2 ^ n + 1 else a / 2 ^ n.
Proof.
  intros Ha Hn.
  assert (Hhalf : 0 < 2 ^ (n - 1)) by (apply Z.pow_pos_nonneg; lia).
  assert (Hrem : a mod 2 ^ n =
                 a mod 2 ^ (n - 1)
                 + 2 ^ (n - 1) * Z.b2z (Z.odd (a / 2 ^ (n - 1)))).
  { replace (2 ^ n) with (2 ^ (n - 1) * 2)
      by (rewrite Z.mul_comm, <- Z.pow_succ_r by lia; f_equal; lia).
    rewrite Z.rem_mul_r by lia. now rewrite <- Z.bit0_mod, Z.bit0_odd. }
  pose proof (Z.mod_pos_bound a (2 ^ (n - 1)) Hhalf) as Hlow.
  rewrite Hrem.
  destruct (Z.odd (a / 2 ^ (n - 1))) eqn:Hr;
    destruct (a mod 2 ^ (n - 1) =? 0) eqn:Hs;
    cbn [negb loc_of_shr_record round_nearest_even Z.b2z].
  - apply Z.eqb_eq in Hs. rewrite Hs, Z.mul_1_r, Z.add_0_l.
    rewrite Z.ltb_irrefl, Z.eqb_refl. cbn [orb andb].
    rewrite <- Z.negb_odd. now destruct (Z.odd (a / 2 ^ n)).
  - apply Z.eqb_neq in Hs.
    replace (2 ^ (n - 1) <? a mod 2 ^ (n - 1) + 2 ^ (n - 1) * 1) with true
      by (symmetry; apply Z.ltb_lt; lia).
    reflexivity.
  - apply Z.eqb_eq in Hs. rewrite Hs, Z.mul_0_r, Z.add_0_l.
    replace (2 ^ (n - 1) <? 0) with false by (symmetry; apply Z.ltb_ge; lia).
    replace (0 =? 2 ^ (n - 1)) with false by (symmetry; apply Z.eqb_neq; lia).
    reflexivity.
  - rewrite Z.mul_0_r, Z.add_0_r.
    replace (2 ^ (n - 1) <? a mod 2 ^ (n - 1)) with false
      by (symmetry; apply Z.ltb_ge; lia).
    replace (a mod 2 ^ (n - 1) =? 2 ^ (n - 1)) with false
      by (symmetry; apply Z.eqb_neq; lia).
    reflexivity.
Qed.

Lemma digits2_pos_53 (p : positive) :
  2 ^ 52 <= Z.pos p < 2 ^ 53 -> Z.pos (digits2_pos p) = 53.
Proof.
  intros Hp. rewrite digits2_pos_log2.
  rewrite (Z.log2_unique (Z.pos p) 52); lia.
Qed.

(** An integer beyond 2^53 and below 2^1024: the conversion keeps its 53
    leading bits, rounded, as [binary64] does. *)
Lemma binary_round_large (s : bool) (m : positive) :
  2 ^ 53 < Z.pos m < 2 ^ 1024 ->
  valid_binary (binary_round prec emax s m 0) = true
  /\ integer_of_spec (binary_round prec emax s m 0) =
     (if s then -1 else 1) * binary64 (Z.pos m).
Proof.
  intros Hm.
  assert (Hlog : 53 <= Z.log2 (Z.pos m) < 1024).
  { split; [apply Z.log2_le_pow2; lia | apply Z.log2_lt_pow2; lia]. }
  pose proof (Z.log2_spec (Z.pos m) ltac:(lia)) as Hspec.
  unfold binary64. cbn [Z.abs Z.sgn].
  replace (Z.pos m <=? 2 ^ 53) with false by (symmetry; apply Z.leb_gt; lia).
  cbv zeta.
  set (n := Z.log2 (Z.pos m) - 52) in *.
  assert (Hn : 1 <= n <= 971) by (unfold n; lia).
  assert (Hpow : 0 < 2 ^ n) by (apply Z.pow_pos_nonneg; lia).
  assert (Hsplit : 2 ^ Z.log2 (Z.pos m) = 2 ^ 52 * 2 ^ n)
    by (rewrite <- Z.pow_add_r by lia; f_equal; unfold n; lia).
  assert (Hsplit' : 2 ^ Z.succ (Z.log2 (Z.pos m)) = 2 ^ 53 * 2 ^ n)
    by (rewrite <- Z.pow_add_r by lia; f_equal; unfold n; lia).
  assert (HM : 2 ^ 52 <= Z.pos m / 2 ^ n < 2 ^ 53).
  { split.
    - apply Z.div_le_lower_bound; [exact Hpow|]. lia.
    - apply Z.div_lt_upper_bound; [exact Hpow|]. lia. }
  unfold binary_round, shl_align, fexp, emin.
  change prec with 53. change emax with 1024.
  rewrite Z.add_0_r, digits2_pos_log2.
  replace (Z.max (Z.log2 (Z.pos m) + 1 - 53) (3 - 1024 - 53)) with n
    by (unfold n; lia).
  rewrite Z.sub_0_r.
  destruct n as [|pn|pn] eqn:En; try lia.
  unfold binary_round_aux, shr_fexp, fexp, emin, Zdigits2.
  rewrite Z.add_0_r, digits2_pos_log2.
  replace (Z.max (Z.log2 (Z.pos m) + 1 - 53) (3 - 1024 - 53) - 0)
    with (Z.pos pn) by lia.
  cbn [shr shr_record_of_loc]. rewrite iter_pos_iter, iter_shr_1 by lia.
  cbn [shr_m]. rewrite round_nearest_even_up by lia.
  set (up := (2 ^ (Z.pos pn - 1) <? Z.pos m mod 2 ^ Z.pos pn)
             || ((Z.pos m mod 2 ^ Z.pos pn =? 2 ^ (Z.pos pn - 1))
                 && Z.odd (Z.pos m / 2 ^ Z.pos pn))).
  set (M := Z.pos m / 2 ^ Z.pos pn) in *.
  rewrite Z.add_0_l.
  destruct (Z_lt_le_dec (if up then M + 1 else M) (2 ^ 53)) as [Hlt|Hge].
  - (* the mantissa still has 53 bits *)
    destruct (if up then M + 1 else M) as [|p'|p'] eqn:EM';
      try (destruct up; lia).
    assert (Hp' : 2 ^ 52 <= Z.pos p' < 2 ^ 53) by (destruct up; lia).
    rewrite (digits2_pos_53 p' Hp').
    replace (Z.max (53 + Z.pos pn - 53) (3 - 1024 - 53) - Z.pos pn)
      with 0 by lia.
    cbn [shr shr_m].
    replace (Z.pos pn <=? 1024 - 53) with true
      by (symmetry; apply Z.leb_le; lia).
    split.
    + unfold SpecFloat.valid_binary, bounded, canonical_mantissa, fexp, emin.
      rewrite (digits2_pos_53 p' Hp'). apply andb_true_iff.
      split; [apply Z.eqb_eq | apply Z.leb_le]; lia.
    + cbn [integer_of_spec Z.leb Z.compare]. destruct s; lia.
  - (* the mantissa was rounded up to 2^53 *)
    assert (HM' : (if up then M + 1 else M) = 2 ^ 53) by (destruct up; lia).
    rewrite HM'.
    change (match 2 ^ 53 with
            | 0 => 2 ^ 53
            | Z.pos p | Z.neg p => Z.pos (digits2_pos p)
            end) with 54.
    replace (Z.max (54 + Z.pos pn - 53) (3 - 1024 - 53) - Z.pos pn)
      with 1 by lia.
    assert (Hshr : shr (Build_shr_record (2 ^ 53) false false) (Z.pos pn) 1 =
                   (Build_shr_record (Z.pos (2 ^ 52)%positive) false false,
                    Z.pos pn + 1)) by reflexivity.
    rewrite Hshr. cbn [shr_m].
    destruct (Z.pos pn + 1 <=? 1024 - 53) eqn:Hfin.
    + apply Z.leb_le in Hfin. split.
      * unfold SpecFloat.valid_binary, bounded, canonical_mantissa, fexp, emin.
        change (Z.pos (digits2_pos (2 ^ 52))) with 53.
        apply andb_true_iff.
        split; [apply Z.eqb_eq | apply Z.leb_le]; lia.
      * cbn [integer_of_spec].
        replace (0 <=? Z.pos pn + 1) with true
          by (symmetry; apply Z.leb_le; lia).
        rewrite Z.pow_add_r by lia.
        change (Z.pos (2 ^ 52)) with (2 ^ 52). change (2 ^ 53) with (2 ^ 52 * 2).
        change (2 ^ 1) with 2. destruct s; lia.
    + apply Z.leb_gt in Hfin. split; [reflexivity|].
      assert (Z.pos pn = 971) by lia.
      cbn [integer_of_spec]. replace (Z.pos pn) with 971 by lia.
      destruct s; vm_compute; reflexivity.
Qed.

Lemma binary64_small (z : Z) : Z.abs z <= 2 ^ 53 -> binary64 z = z.
Proof.
  intros Hz. unfold binary64.
  now replace (Z.abs z <=? 2 ^ 53) with true by (symmetry; now apply Z.leb_le).
Qed.

Lemma binary64_opp (z : Z) : binary64 (- z) = - binary64 z.
Proof.
  unfold binary64. rewrite Z.abs_opp, Z.sgn_opp.
  destruct (Z.abs z <=? 2 ^ 53); [reflexivity|]. cbv zeta. lia.
Qed.

(** [binary64] is the rounding of the conversion to a JavaScript number:
    the integer value of the number nearest to [z] is [binary64 z]. *)
Lemma binary64_is_number_of_Z (z : Z) :
  Z.abs z < 2 ^ 1024 -> binary64 z = integer_of_number (number_of_Z z).
Proof.
  intros Hz.
  assert (Hpos : forall (s : bool) (m : positive),
             Z.pos m < 2 ^ 1024 ->
             valid_binary (binary_round prec emax s m 0) = true
             /\ integer_of_spec (binary_round prec emax s m 0) =
                (if s then -1 else 1) * binary64 (Z.pos m)).
  { intros s m Hm.
    destruct (Z_lt_le_dec (Z.pos m) (2 ^ 53)) as [Hsmall|Hlarge].
    - destruct (binary_round_small s m Hsmall) as [m' [e [Hr [Hv Hval]]]].
      rewrite Hr. split; [exact Hv|]. cbn [integer_of_spec]. rewrite Hval.
      unfold binary64.
      now replace (Z.abs (Z.pos m) <=? 2 ^ 53) with true
        by (symmetry; apply Z.leb_le; cbn [Z.abs]; lia).
    - destruct (Z.eq_dec (Z.pos m) (2 ^ 53)) as [Heq|Hne].
      + assert (m = (2 ^ 53)%positive) by (apply Pos2Z.inj; exact Heq).
        subst m. destruct s; split; vm_compute; reflexivity.
      + apply binary_round_large. lia. }
  unfold integer_of_number, number_of_Z.
  destruct z as [|m|m]; cbn [binary_normalize].
  - rewrite Prim2SF_SF2Prim by reflexivity. reflexivity.
  - destruct (Hpos false m) as [Hv Hi]; [cbn [Z.abs] in Hz; lia|].
    rewrite Prim2SF_SF2Prim by exact Hv. rewrite Hi. lia.
  - destruct (Hpos true m) as [Hv Hi]; [cbn [Z.abs] in Hz; lia|].
    rewrite Prim2SF_SF2Prim by exact Hv. rewrite Hi.
    change (Z.neg m) with (- Z.pos m). rewrite binary64_opp. lia.
Qed.

(** An integer of magnitude below 2^53 goes to a JavaScript number and back
    unchanged. *)
Lemma integer_of_number_of_Z (z : Z) :
  Z.abs z < 2 ^ 53 -> integer_of_number (number_of_Z z) = z.
Proof.
  intros Hz. rewrite <- binary64_is_number_of_Z by lia.
  apply binary64_small. lia.
Qed.

Lemma int32_bounds (q : Z) : int32 q = true <-> - 2 ^ 31 <= q < 2 ^ 31.
Proof.
  unfold int32. rewrite andb_true_iff, Z.leb_le, Z.ltb_lt. tauto.
Qed.

(** A quantity of magnitude below 2^53 is stored as it is. *)
Lemma bound_quantity_exact (q : Z) :
  Z.abs q < 2 ^ 53 -> bound_quantity q = q.
Proof.
  intros Hq. unfold bound_quantity, bind_number.
  destruct (int32 q); cbn [in_column];
    [reflexivity | now apply integer_of_number_of_Z].
Qed.

Lemma bound_quantity_int32 (q : Z) : int32 q = true -> bound_quantity q = q.
Proof.
  intros Hq. unfold bound_quantity, bind_number. now rewrite Hq.
Qed.

(** A 32-bit increment of an [INTEGER] quantity is added exactly while the
    sum stays in the 64-bit range. *)
Lemma added_quantity_exact (quantity q : Z) :
  int32 q = true -> sum_fits quantity q ->
  added_quantity quantity q = quantity + q.
Proof.
  intros Hq [Hquantity Hsum]. unfold added_quantity, of_column, bind_number.
  rewrite Hq.
  replace ((- 2 ^ 63 <? quantity) && (quantity <? 2 ^ 63)) with true
    by (symmetry; apply andb_true_iff; rewrite !Z.ltb_lt; lia).
  cbn [sql_add]. unfold int64.
  replace ((- 2 ^ 63 <=? quantity + q) && (quantity + q <? 2 ^ 63)) with true
    by (symmetry; apply andb_true_iff; rewrite Z.leb_le, Z.ltb_lt; lia).
  reflexivity.
Qed.

(** A quantity is stored rounded to binary64. *)
Lemma bound_quantity_rounds (q : Z) :
  Z.abs q < 2 ^ 1024 -> bound_quantity q = binary64 q.
Proof.
  intros Hq. unfold bound_quantity, bind_number.
  destruct (int32 q) eqn:Hsmall; cbn [in_column].
  - apply int32_bounds in Hsmall. symmetry. apply binary64_small. lia.
  - symmetry. now apply binary64_is_number_of_Z.
Qed.

(** Rounding to binary64 takes no positive integer below 1. *)
Lemma binary64_floor (z : Z) : 1 <= z -> 1 <= binary64 z.
Proof.
  intros Hz. unfold binary64.
  destruct (Z.abs z <=? 2 ^ 53) eqn:Hsmall; [exact Hz|].
  apply Z.leb_gt in Hsmall.
  rewrite Z.abs_eq in * by lia. rewrite Z.sgn_pos by lia.
  assert (Hlog : 53 <= Z.log2 z) by (apply Z.log2_le_pow2; lia).
  set (e := Z.log2 z - 52) in *.
  assert (He : 0 <= e) by (unfold e; lia).
  assert (Hpow : 0 < 2 ^ e) by (apply Z.pow_pos_nonneg; lia).
  assert (Hm : 1 <= z / 2 ^ e).
  { apply Z.div_le_lower_bound; [exact Hpow|].
    pose proof (Z.log2_spec z ltac:(lia)) as [Hlow _].
    assert (2 ^ e <= 2 ^ Z.log2 z)
      by (apply Z.pow_le_mono_r; unfold e; lia).
    lia. }
  destruct ((2 ^ (e - 1) <? z mod 2 ^ e)
            || ((z mod 2 ^ e =? 2 ^ (e - 1)) && Z.odd (z / 2 ^ e))); nia.
Qed.

(* ================================================================== *)
(** * The statements                                                   *)
(* ================================================================== *)

Lemma max_rowid_bound (rows : list cart_row) (r : cart_row) :
  In r rows -> c_id r <= max_rowid rows.
Proof.
  induction rows as [|x rows IH]; simpl; [intros []|].
  intros [->|H]; [lia|]. specialize (IH H). lia.
Qed.

(** The rowid of an inserted row is above every rowid of the table and above
    the recorded sequence. *)
Lemma next_rowid_fresh (s : store) :
  cart_seq s < next_rowid s /\
  forall r, In r (cart s) -> c_id r < next_rowid s.
Proof.
  unfold next_rowid. split; [lia|].
  intros r Hr. apply max_rowid_bound in Hr. lia.
Qed.

Lemma select_none_no_line (s : store) (p : Z) :
  select_cart_by_product s (VInt p) = None ->
  forall r, In r (cart s) -> c_product_id r <> p.
Proof.
  unfold select_cart_by_product. intros Hnone r Hr Heq.
  pose proof (find_none _ _ Hnone r Hr) as H. simpl in H. lia.
Qed.

Lemma select_some_line (s : store) (p : Z) (row : cart_row) :
  select_cart_by_product s (VInt p) = Some row ->
  In row (cart s) /\ c_product_id row = p.
Proof.
  unfold select_cart_by_product. intros H. apply find_some in H.
  simpl in H. split; [tauto | lia].
Qed.

(** With at most one line per product, the [SELECT] of the route finds every
    line of the product. *)
Lemma select_unique_line (s : store) (r : cart_row) :
  one_line_per_product s -> In r (cart s) ->
  select_cart_by_product s (VInt (c_product_id r)) = Some r.
Proof.
  unfold one_line_per_product, select_cart_by_product.
  induction (cart s) as [|x l IH]; simpl; [intros _ []|].
  intros Hnd Hin. inversion Hnd as [|? ? Hx Hl]; subst.
  destruct Hin as [->|Hin].
  - now rewrite Z.eqb_refl.
  - destruct (c_product_id x =? c_product_id r) eqn:E.
    + exfalso. apply Hx. apply Z.eqb_eq in E. rewrite E. now apply in_map.
    + now apply IH.
Qed.

(* ================================================================== *)
(** * AddOrIncrement                                                   *)
(* ================================================================== *)

Lemma post_cart_found (s : store) (p q : Z) (row : cart_row) :
  select_cart_by_product s (VInt p) = Some row ->
  post_cart s (VInt p) (VInt q) =
  (mkStore (products s) (map (incremented p q) (cart s)) (cart_seq s),
   mkResponse 200 (JIdMessage (c_id row) "Cart updated")).
Proof.
  intros H. unfold post_cart. rewrite H. reflexivity.
Qed.

Lemma post_cart_absent (s : store) (p q : Z) :
  select_cart_by_product s (VInt p) = None ->
  post_cart s (VInt p) (VInt q) =
  (mkStore (products s)
           (cart s ++ [mkCartRow (next_rowid s) p (bound_quantity q)])
           (next_rowid s),
   mkResponse 200 (JIdMessage (next_rowid s) "Added to cart")).
Proof.
  intros H. unfold post_cart. rewrite H. reflexivity.
Qed.

Lemma lines_of_absent (s : store) (p : Z) :
  select_cart_by_product s (VInt p) = None -> lines_of p s = [].
Proof.
  intros H. unfold lines_of.
  pose proof (select_none_no_line s p H) as Hno.
  induction (cart s) as [|x l IH]; simpl; [reflexivity|].
  destruct (c_product_id x =? p) eqn:E.
  - apply Z.eqb_eq in E. exfalso. apply (Hno x); [now left | exact E].
  - apply IH. intros r Hr. apply Hno. now right.
Qed.

Lemma incremented_product (p q : Z) (x : cart_row) :
  c_product_id (incremented p q x) = c_product_id x.
Proof.
  unfold incremented. now destruct (c_product_id x =? p).
Qed.

Lemma incremented_id (p q : Z) (x : cart_row) :
  c_id (incremented p q x) = c_id x.
Proof.
  unfold incremented. now destruct (c_product_id x =? p).
Qed.

(** The quantity the cart holds for a product after an increment of a line
    it had. *)
Lemma post_cart_found_quantity (s : store) (p q : Z) (row : cart_row) :
  select_cart_by_product s (VInt p) = Some row ->
  quantity_of p (fst (post_cart s (VInt p) (VInt q))) =
  added_quantity (c_quantity row) q.
Proof.
  intros Hrow. rewrite (post_cart_found s p q row Hrow).
  unfold quantity_of, select_cart_by_product in *. cbn [fst cart sql_eq] in *.
  rewrite find_map_stable by (intros x; now rewrite incremented_product).
  rewrite Hrow. cbn [option_map]. apply find_some in Hrow.
  destruct Hrow as [_ Hp]. unfold incremented. now rewrite Hp.
Qed.

Lemma post_cart_int_status (s : store) (p q : Z) :
  status (snd (post_cart s (VInt p) (VInt q))) = 200.
Proof.
  destruct (select_cart_by_product s (VInt p)) as [row|] eqn:Hsel.
  - now rewrite (post_cart_found s p q row Hsel).
  - now rewrite (post_cart_absent s p q Hsel).
Qed.

(** The quantity the cart holds for a product after the first addition of
    it. *)
Lemma post_cart_absent_quantity (s : store) (p q : Z) :
  select_cart_by_product s (VInt p) = None ->
  quantity_of p (fst (post_cart s (VInt p) (VInt q))) = bound_quantity q.
Proof.
  intros Hnone. rewrite (post_cart_absent s p q Hnone).
  unfold quantity_of, select_cart_by_product in *. cbn [fst cart sql_eq] in *.
  rewrite find_app_last, Hnone. cbn [c_product_id c_quantity].
  now rewrite Z.eqb_refl.
Qed.

(** C1, as stated, fails: the quantity of a line is not always raised by
    the quantity added.  The seeded database holds 3 of product 1;
    [POST /cart] for 2^53 more, a number the driver binds as a [REAL],
    makes SQLite add in binary64, and the line then holds
    9007199254740996 where 3 + 2^53 is 9007199254740995. *)
Lemma large_increment_is_rounded :
  ~ (forall (s : store) (p q : Z) (row : cart_row),
        select_cart_by_product s (VInt p) = Some row ->
        quantity_of p (fst (post_cart s (VInt p) (VInt q))) =
        c_quantity row + q)
  /\ (let s := fst (post_cart fresh_db (VInt 1) (VInt 3)) in
      cart s = [mkCartRow 1 1 3]
      /\ cart (fst (post_cart s (VInt 1) (VInt (2 ^ 53)))) =
         [mkCartRow 1 1 9007199254740996]
      /\ 3 + 2 ^ 53 = 9007199254740995).
Proof.
  split.
  - intros H.
    specialize (H (fst (post_cart fresh_db (VInt 1) (VInt 3))) 1 (2 ^ 53)
                  (mkCartRow 1 1 3) eq_refl).
    vm_compute in H. discriminate H.
  - cbv zeta. split; [reflexivity|]. split; [|reflexivity].
    vm_compute. reflexivity.
Qed.

(** C1, as the code has it.  [AddOrIncrement(product_id, q)], that is
    [POST /cart], consolidates repeated additions of a quantity [q] in the
    32-bit range.  When the cart has a line for the product, the request
    answers 200 with that line's id, no line is added or moved, every line
    keeps its id and its product, every line of another product is as
    before, and every line of the product whose quantity is an [INTEGER]
    such that the sum fits 64 bits has its quantity raised by [q].  When it
    has none,
    the request answers 200 with a new id, above every id of the cart and
    above the recorded sequence, and the cart gains exactly one line, last,
    with that id and quantity [q].  From an empty cart, adding 2 and then 3
    of a product leaves a single line, of quantity 5. *)
Theorem add_or_increment_consolidates (s : store) (p q : Z) :
  int32 q = true ->
  (forall row,
      select_cart_by_product s (VInt p) = Some row ->
      snd (post_cart s (VInt p) (VInt q)) =
        mkResponse 200 (JIdMessage (c_id row) "Cart updated")
      /\ List.length (cart (fst (post_cart s (VInt p) (VInt q)))) =
         List.length (cart s)
      /\ (forall i x,
             nth_error (cart s) i = Some x ->
             exists x',
               nth_error (cart (fst (post_cart s (VInt p) (VInt q)))) i =
               Some x'
               /\ c_id x' = c_id x /\ c_product_id x' = c_product_id x
               /\ (c_product_id x <> p -> x' = x)
               /\ (c_product_id x = p -> sum_fits (c_quantity x) q ->
                   c_quantity x' = c_quantity x + q))
      /\ (sum_fits (c_quantity row) q ->
          quantity_of p (fst (post_cart s (VInt p) (VInt q))) =
          c_quantity row + q))
  /\ (select_cart_by_product s (VInt p) = None ->
      exists id,
        snd (post_cart s (VInt p) (VInt q)) =
          mkResponse 200 (JIdMessage id "Added to cart")
        /\ cart (fst (post_cart s (VInt p) (VInt q))) =
           cart s ++ [mkCartRow id p q]
        /\ (forall x, In x (cart s) -> c_id x < id)
        /\ cart_seq s < id
        /\ lines_of p (fst (post_cart s (VInt p) (VInt q))) =
           [mkCartRow id p q])
  /\ (cart s = [] ->
      exists id,
        cart (serve_all s [AddOrIncrement (VInt p) (VInt 2);
                           AddOrIncrement (VInt p) (VInt 3)]) =
        [mkCartRow id p 5]).
Proof.
  intros Hq. split; [|split].
  - intros row Hrow. split; [|split; [|split]].
    + now rewrite (post_cart_found s p q row Hrow).
    + rewrite (post_cart_found s p q row Hrow). apply length_map.
    + intros i x Hx. rewrite (post_cart_found s p q row Hrow).
      cbn [fst cart]. rewrite nth_error_map, Hx. cbn [option_map].
      exists (incremented p q x). split; [reflexivity|].
      split; [apply incremented_id|].
      split; [apply incremented_product|].
      unfold incremented. split.
      * intros Hne. now replace (c_product_id x =? p) with false by lia.
      * intros Hp Hfits. replace (c_product_id x =? p) with true by lia.
        cbn [c_quantity]. now apply added_quantity_exact.
    + intros Hfits. rewrite (post_cart_found_quantity s p q row Hrow).
      now apply added_quantity_exact.
  - intros Hnone. exists (next_rowid s).
    rewrite (post_cart_absent s p q Hnone), (bound_quantity_int32 q Hq).
    cbn [fst snd cart].
    destruct (next_rowid_fresh s) as [Hseq Hids].
    repeat split; auto.
    unfold lines_of. cbn [cart]. rewrite filter_app.
    fold (lines_of p s). rewrite (lines_of_absent s p Hnone).
    cbn [filter c_product_id app]. now rewrite Z.eqb_refl.
  - intros Hempty. exists (next_rowid s).
    unfold serve_all. cbn [fold_left serve].
    assert (Hnone : select_cart_by_product s (VInt p) = None)
      by (unfold select_cart_by_product; now rewrite Hempty).
    rewrite (post_cart_absent s p 2 Hnone). cbn [fst].
    erewrite post_cart_found.
    + cbn [fst cart]. rewrite Hempty. cbn [app map]. unfold incremented.
      cbn [c_product_id c_id c_quantity]. rewrite Z.eqb_refl. reflexivity.
    + unfold select_cart_by_product. cbn [cart sql_eq]. rewrite Hempty.
      cbn [app find c_product_id]. rewrite Z.eqb_refl. reflexivity.
Qed.

(** On the seeded database: a cart holding 2 of product 1 and 1 of product
    7 receives 3 more of product 1; an empty cart receives 2 of product 1. *)
Lemma add_or_increment_consolidates_witness :
  let s := serve_all fresh_db [AddOrIncrement (VInt 1) (VInt 2);
                               AddOrIncrement (VInt 7) (VInt 1)] in
  (int32 3 = true
   /\ select_cart_by_product s (VInt 1) = Some (mkCartRow 1 1 2)
   /\ sum_fits 2 3
   /\ quantity_of 1 (fst (post_cart s (VInt 1) (VInt 3))) = 2 + 3)
  /\ (select_cart_by_product fresh_db (VInt 1) = None
      /\ exists id,
          cart (fst (post_cart fresh_db (VInt 1) (VInt 2))) =
          cart fresh_db ++ [mkCartRow id 1 2])
  /\ (cart fresh_db = []
      /\ exists id,
          cart (serve_all fresh_db [AddOrIncrement (VInt 1) (VInt 2);
                                    AddOrIncrement (VInt 1) (VInt 3)]) =
          [mkCartRow id 1 5]).
Proof.
  intros s.
  assert (Hfits : sum_fits 2 3) by (unfold sum_fits; lia).
  split; [|split].
  - split; [reflexivity|]. split; [reflexivity|]. split; [exact Hfits|].
    destruct (add_or_increment_consolidates s 1 3 eq_refl) as [Hfound _].
    destruct (Hfound (mkCartRow 1 1 2) eq_refl) as [_ [_ [_ Hsum]]].
    exact (Hsum Hfits).
  - split; [reflexivity|].
    destruct (add_or_increment_consolidates fresh_db 1 2 eq_refl)
      as [_ [Habsent _]].
    destruct (Habsent eq_refl) as [id [_ [Hcart _]]].
    exists id. exact Hcart.
  - split; [reflexivity|].
    destruct (add_or_increment_consolidates fresh_db 1 0 eq_refl)
      as [_ [_ Hempty]].
    exact (Hempty eq_refl).
Defined.

(* ================================================================== *)
(** * Remove                                                           *)
(* ================================================================== *)

Lemma delete_cart_absent (s : store) (id : Z) :
  (forall r, In r (cart s) -> c_id r <> id) -> delete_cart s id = s.
Proof.
  intros Hno. destruct s as [ps rows seq]. unfold delete_cart. simpl in *.
  f_equal. induction rows as [|x rows IH]; simpl; [reflexivity|].
  destruct (c_id x =? id) eqn:E.
  - apply Z.eqb_eq in E. exfalso. apply (Hno x); [now left | exact E].
  - simpl. f_equal. apply IH. intros r Hr. apply Hno. now right.
Qed.

Lemma delete_cart_gone (s : store) (id : Z) (r : cart_row) :
  In r (cart (delete_cart s id)) -> c_id r <> id.
Proof.
  simpl. intros H. apply filter_In in H. destruct H as [_ H].
  apply negb_true_iff in H. lia.
Qed.

(** C5.  [Remove(line_id)], that is [DELETE /cart/{line_id}], is idempotent.
    Whatever the id, the request answers 200 [Item removed]; afterwards no
    line has that id and every line with another id is still there; a second
    call answers the same and leaves the store as the first left it; and when
    no line has the id to begin with, the store is unchanged. *)
Theorem remove_idempotent (s : store) (id : Z) :
  snd (delete_cart_line s id) = mkResponse 200 (JMessage "Item removed")
  /\ (forall r, In r (cart (fst (delete_cart_line s id))) -> c_id r <> id)
  /\ (forall r, In r (cart s) -> c_id r <> id ->
                In r (cart (fst (delete_cart_line s id))))
  /\ delete_cart_line (fst (delete_cart_line s id)) id = delete_cart_line s id
  /\ ((forall r, In r (cart s) -> c_id r <> id) ->
      delete_cart_line s id =
      (s, mkResponse 200 (JMessage "Item removed"))).
Proof.
  unfold delete_cart_line. simpl. split; [reflexivity|].
  split; [apply delete_cart_gone|]. split; [|split].
  - intros r Hr Hid. apply filter_In. split; [exact Hr|].
    apply negb_true_iff. lia.
  - f_equal. apply delete_cart_absent. apply delete_cart_gone.
  - intros Hno. f_equal. now apply delete_cart_absent.
Qed.

(** A cart with lines 1 and 2 loses line 1; an empty cart loses nothing. *)
Lemma remove_idempotent_witness :
  let s := serve_all fresh_db [AddOrIncrement (VInt 4) (VInt 1);
                               AddOrIncrement (VInt 9) (VInt 2)] in
  cart (fst (delete_cart_line s 1)) = [mkCartRow 2 9 2]
  /\ delete_cart_line (fst (delete_cart_line s 1)) 1 = delete_cart_line s 1
  /\ delete_cart_line fresh_db 1 =
     (fresh_db, mkResponse 200 (JMessage "Item removed")).
Proof.
  intros s. split; [reflexivity|]. split.
  - exact (proj1 (proj2 (proj2 (proj2 (remove_idempotent s 1))))).
  - apply (proj2 (proj2 (proj2 (proj2 (remove_idempotent fresh_db 1))))).
    intros r [].
Defined.

(* ================================================================== *)
(** * View                                                             *)
(* ================================================================== *)

(** C6.  With no line in the cart, [View()], that is [GET /cart], answers 200
    with the empty list, and the page's total over that list is 0; the
    answer is not an error. *)
Theorem view_empty_cart (s : store) :
  cart s = [] ->
  get_cart s = mkResponse 200 (JRows [])
  /\ total [] = 0%float
  /\ ~ refused (get_cart s).
Proof.
  intros Hempty. unfold get_cart, select_cart_join, refused.
  rewrite Hempty. simpl. repeat split. intros H. now apply H.
Qed.

Lemma view_empty_cart_witness :
  cart fresh_db = []
  /\ get_cart fresh_db = mkResponse 200 (JRows [])
  /\ total [] = 0%float
  /\ ~ refused (get_cart fresh_db).
Proof.
  split; [reflexivity | exact (view_empty_cart fresh_db eq_refl)].
Defined.

Lemma filter_none {A : Type} (f : A -> bool) (l : list A) :
  existsb f l = false -> filter f l = [].
Proof.
  induction l as [|x l IH]; simpl; [reflexivity|].
  destruct (f x); simpl; [discriminate | exact IH].
Qed.

Lemma filter_one {A : Type} (f : A -> bool) (g : A -> Z) (l : list A) :
  NoDup (map g l) -> (forall x y, f x = true -> f y = true -> g x = g y) ->
  existsb f l = true -> exists x, filter f l = [x].
Proof.
  intros Hnd Hsame. induction l as [|x l IH]; simpl; [discriminate|].
  inversion Hnd as [|? ? Hx Hl]; subst.
  destruct (f x) eqn:Ex; simpl.
  - intros _. exists x. f_equal. apply filter_none.
    destruct (existsb f l) eqn:El; [|reflexivity].
    apply existsb_exists in El. destruct El as [y [Hy Hfy]].
    exfalso. apply Hx. rewrite (Hsame x y Ex Hfy). now apply in_map.
  - now apply IH.
Qed.

Lemma join_without_orphans (s : store) :
  select_cart_join (without_orphans s) = select_cart_join s.
Proof.
  unfold select_cart_join, without_orphans. cbn [cart products].
  induction (cart s) as [|c l IH]; simpl; [reflexivity|].
  destruct (in_catalog s (c_product_id c)) eqn:E; simpl.
  - now rewrite IH.
  - unfold in_catalog in E. rewrite (filter_none _ _ E). simpl. exact IH.
Qed.

(** C10.  [View()] leaves out, without an error, every line whose product is
    not in the catalog: the answer is 200 and is the answer the store would
    give without those lines, so the page's total is theirs too; every
    object returned carries the id of a catalog product; and where product
    ids are unique, as the primary key makes them, the lines that have a
    product are returned one object each, in their order, with the line's
    quantity as a JavaScript number.  The store is only read. *)
Theorem view_omits_orphans (s : store) :
  status (get_cart s) = 200
  /\ get_cart s = get_cart (without_orphans s)
  /\ total (select_cart_join s) = total (select_cart_join (without_orphans s))
  /\ (forall row, In row (select_cart_join s) ->
                  in_catalog s (j_id row) = true)
  /\ (NoDup (map p_id (products s)) ->
      map j_quantity (select_cart_join s) =
      map (fun c => number_of_Z (c_quantity c)) (cart (without_orphans s))).
Proof.
  split; [reflexivity|]. split.
  { unfold get_cart. now rewrite join_without_orphans. }
  split. { now rewrite join_without_orphans. }
  split.
  - intros row Hrow. unfold select_cart_join in Hrow.
    apply in_flat_map in Hrow. destruct Hrow as [c [_ Hrow]].
    apply in_map_iff in Hrow. destruct Hrow as [p [<- Hp]].
    apply filter_In in Hp. destruct Hp as [Hp _].
    unfold in_catalog. apply existsb_exists. exists p. simpl.
    split; [exact Hp | apply Z.eqb_refl].
  - intros Hnd. unfold select_cart_join, without_orphans. cbn [cart].
    induction (cart s) as [|c l IH]; simpl; [reflexivity|].
    rewrite map_app, IH.
    destruct (in_catalog s (c_product_id c)) eqn:E; unfold in_catalog in E.
    + destruct (filter_one (fun p => c_product_id c =? p_id p) p_id
                  (products s) Hnd) as [p Hp]; [|exact E|].
      * intros x y Hx Hy. lia.
      * rewrite Hp. reflexivity.
    + rewrite (filter_none _ _ E). reflexivity.
Qed.

(** A cart with a line for product 3 and a line for the unknown product 77. *)
Lemma view_omits_orphans_witness :
  let s := serve_all fresh_db [AddOrIncrement (VInt 77) (VInt 4);
                               AddOrIncrement (VInt 3) (VInt 2)] in
  cart s = [mkCartRow 1 77 4; mkCartRow 2 3 2]
  /\ map j_quantity (select_cart_join s) = [number_of_Z 2]
  /\ NoDup (map p_id (products s))
  /\ map j_quantity (select_cart_join s) =
     map (fun c => number_of_Z (c_quantity c)) (cart (without_orphans s)).
Proof.
  intros s.
  assert (Hnd : NoDup (map p_id (products s))).
  { apply (NoDup_map_inv (fun z => z)). rewrite map_id.
    vm_compute. repeat (constructor; [simpl; intuition discriminate|]).
    constructor. }
  split; [reflexivity|]. split; [reflexivity|]. split; [exact Hnd|].
  exact (proj2 (proj2 (proj2 (proj2 (view_omits_orphans s)))) Hnd).
Defined.

(* ================================================================== *)
(** * Requests served one after the other                              *)
(* ================================================================== *)

Lemma select_null (s : store) : select_cart_by_product s VNull = None.
Proof.
  unfold select_cart_by_product.
  induction (cart s) as [|x l IH]; simpl; [reflexivity | exact IH].
Qed.

Lemma post_cart_null_quantity (s : store) (product_id : value) :
  fst (post_cart s product_id VNull) = s.
Proof.
  unfold post_cart, post_cart_write.
  destruct (select_cart_by_product s product_id).
  - unfold update_cart_add. now destruct (existsb _ _).
  - unfold insert_cart. now destruct product_id.
Qed.

Lemma post_cart_null_product (s : store) (quantity : value) :
  fst (post_cart s VNull quantity) = s.
Proof.
  unfold post_cart. rewrite select_null. reflexivity.
Qed.

Lemma put_cart_null_quantity (s : store) (id : Z) :
  fst (put_cart s id VNull) = s.
Proof.
  unfold put_cart, update_cart_set. now destruct (existsb _ _).
Qed.

Lemma put_cart_int (s : store) (id q : Z) :
  put_cart s id (VInt q) =
  (mkStore (products s) (map (overwritten id q) (cart s)) (cart_seq s),
   mkResponse 200 (JMessage "Quantity updated")).
Proof. reflexivity. Qed.

Lemma overwritten_product (id q : Z) (x : cart_row) :
  c_product_id (overwritten id q x) = c_product_id x.
Proof.
  unfold overwritten. now destruct (c_id x =? id).
Qed.

Lemma overwritten_id (id q : Z) (x : cart_row) :
  c_id (overwritten id q x) = c_id x.
Proof.
  unfold overwritten. now destruct (c_id x =? id).
Qed.


(** No request breaks "at most one line per product". *)
Lemma serve_one_line_per_product (s : store) (o : operation) :
  one_line_per_product s -> one_line_per_product (fst (serve s o)).
Proof.
  unfold one_line_per_product. intros Hs.
  destruct o as [product_id quantity | line_id quantity | line_id]; simpl.
  - destruct quantity as [|q]; [now rewrite post_cart_null_quantity|].
    destruct product_id as [|p]; [now rewrite post_cart_null_product|].
    destruct (select_cart_by_product s (VInt p)) as [row|] eqn:Hsel.
    + rewrite (post_cart_found s p q row Hsel). simpl.
      rewrite map_map. erewrite map_ext; [exact Hs|].
      intros x. apply incremented_product.
    + rewrite (post_cart_absent s p q Hsel). simpl.
      rewrite map_app. simpl. apply NoDup_snoc; [exact Hs|].
      intros Hin. apply in_map_iff in Hin. destruct Hin as [r [Hp Hr]].
      exact (select_none_no_line s p Hsel r Hr Hp).
  - destruct quantity as [|q]; [now rewrite put_cart_null_quantity|].
    simpl. rewrite map_map. erewrite map_ext; [exact Hs|].
    intros x. simpl. now destruct (c_id x =? line_id).
  - now apply NoDup_map_filter.
Qed.

Lemma serve_all_one_line_per_product (os : list operation) (s : store) :
  one_line_per_product s -> one_line_per_product (serve_all s os).
Proof.
  revert s. induction os as [|o os IH]; intros s Hs; [exact Hs|].
  apply IH. now apply serve_one_line_per_product.
Qed.

Lemma not_targeted (s : store) (line_id p : Z) (r : cart_row) :
  existsb (fun r => (c_id r =? line_id) && (c_product_id r =? p)) (cart s)
  = false ->
  In r (cart s) -> c_product_id r = p -> (c_id r =? line_id) = false.
Proof.
  intros Hno Hr Hp.
  destruct (c_id r =? line_id) eqn:E; [|reflexivity].
  assert (Hex : existsb (fun r => (c_id r =? line_id)
                                  && (c_product_id r =? p)) (cart s) = true).
  { apply existsb_exists. exists r. split; [exact Hr|].
    rewrite E. simpl. now apply Z.eqb_eq. }
  congruence.
Qed.

Lemma has_line_quantity (p : Z) (s : store) :
  has_line p s = false -> quantity_of p s = 0.
Proof.
  unfold has_line, quantity_of, select_cart_by_product. cbn [sql_eq].
  rewrite existsb_find.
  now destruct (find (fun r => c_product_id r =? p) (cart s)).
Qed.

(** The quantity the cart holds for a product after a request that is not
    a [SetQuantity] or [Remove] of a line of the product: an increment of
    the product adds to it, in SQLite's arithmetic, or gives the first line
    its quantity; any other request leaves it. *)
Lemma serve_quantity_of (p : Z) (s : store) (o : operation) :
  targets s o p = false ->
  quantity_of p (fst (serve s o)) =
  match o with
  | AddOrIncrement (VInt p') (VInt q) =>
      if p' =? p
      then if has_line p s then added_quantity (quantity_of p s) q
           else bound_quantity q
      else quantity_of p s
  | _ => quantity_of p s
  end.
Proof.
  intros Hfree.
  destruct o as [product_id quantity | line_id quantity | line_id];
    cbn [serve targets] in *.
  - destruct product_id as [|p'];
      [now rewrite post_cart_null_product|].
    destruct quantity as [|q];
      [now rewrite post_cart_null_quantity|].
    destruct (p' =? p) eqn:E.
    + apply Z.eqb_eq in E. subst p'.
      destruct (select_cart_by_product s (VInt p)) as [row|] eqn:Hsel.
      * rewrite (post_cart_found_quantity s p q row Hsel).
        unfold has_line, quantity_of. rewrite existsb_find.
        unfold select_cart_by_product in Hsel. cbn [sql_eq] in Hsel.
        unfold select_cart_by_product. cbn [sql_eq]. now rewrite Hsel.
      * rewrite (post_cart_absent_quantity s p q Hsel).
        unfold has_line. rewrite existsb_find.
        unfold select_cart_by_product in Hsel. cbn [sql_eq] in Hsel.
        now rewrite Hsel.
    + destruct (select_cart_by_product s (VInt p')) as [row|] eqn:Hsel.
      * rewrite (post_cart_found s p' q row Hsel).
        unfold quantity_of, select_cart_by_product. cbn [fst cart sql_eq].
        rewrite find_map_stable
          by (intros x; now rewrite incremented_product).
        destruct (find (fun r => c_product_id r =? p) (cart s))
          as [r|] eqn:Hr; cbn [option_map]; [|reflexivity].
        apply find_some in Hr. destruct Hr as [_ Hp].
        unfold incremented.
        now replace (c_product_id r =? p') with false by lia.
      * rewrite (post_cart_absent s p' q Hsel).
        unfold quantity_of, select_cart_by_product. cbn [fst cart sql_eq].
        rewrite find_app_last. cbn [c_product_id]. rewrite E.
        now destruct (find (fun r => c_product_id r =? p) (cart s)).
  - destruct quantity as [|q];
      [now rewrite put_cart_null_quantity|].
    rewrite put_cart_int.
    unfold quantity_of, select_cart_by_product. cbn [fst cart sql_eq].
    rewrite find_map_stable
      by (intros x; now rewrite overwritten_product).
    destruct (find (fun r => c_product_id r =? p) (cart s))
      as [r|] eqn:Hr; cbn [option_map]; [|reflexivity].
    apply find_some in Hr. destruct Hr as [Hin Hp].
    unfold overwritten.
    now rewrite (not_targeted s line_id p r Hfree Hin) by lia.
  - unfold quantity_of, select_cart_by_product.
    cbn [delete_cart_line delete_cart fst cart sql_eq].
    rewrite find_filter_keeps; [reflexivity|].
    intros x Hx Hp.
    rewrite (not_targeted s line_id p x Hfree Hx) by lia.
    reflexivity.
Qed.

(** While the quantity leaves room for one more 32-bit increment, such a
    request changes the product's quantity by the increment it asks. *)
Lemma serve_quantity_of_exact (p : Z) (s : store) (o : operation) :
  targets s o p = false -> small_increment o ->
  Z.abs (quantity_of p s) + 2 ^ 31 < 2 ^ 63 ->
  quantity_of p (fst (serve s o)) = quantity_of p s + increments p [o]
  /\ Z.abs (increments p [o]) <= 2 ^ 31.
Proof.
  intros Hfree Hsmall Hroom. rewrite (serve_quantity_of p s o Hfree).
  destruct o as [[|p'] [|q] | |]; cbn [increments small_increment] in *;
    try (split; lia).
  apply int32_bounds in Hsmall.
  destruct (p' =? p); [|split; lia].
  destruct (has_line p s) eqn:Hline.
  - rewrite added_quantity_exact;
      [split; lia | now apply int32_bounds | unfold sum_fits; lia].
  - rewrite (has_line_quantity p s Hline).
    rewrite bound_quantity_int32 by now apply int32_bounds.
    split; lia.
Qed.

Lemma increments_cons (p : Z) (o : operation) (os : list operation) :
  increments p (o :: os) = increments p [o] + increments p os.
Proof.
  destruct o as [[|p'] [|q] | |]; simpl; lia.
Qed.

Lemma serve_all_quantity_of (p : Z) (os : list operation) (s : store) :
  only_added p s os = true -> Forall small_increment os ->
  Z.abs (quantity_of p s) + 2 ^ 31 * Z.of_nat (List.length os) < 2 ^ 63 ->
  quantity_of p (serve_all s os) = quantity_of p s + increments p os.
Proof.
  revert s. induction os as [|o os IH]; intros s H Hsmall Hroom.
  - simpl. lia.
  - cbn [only_added] in H. apply andb_true_iff in H. destruct H as [Ho Hos].
    apply negb_true_iff in Ho.
    inversion Hsmall as [|? ? Hsmall_o Hsmall_os]; subst.
    rewrite increments_cons.
    change (serve_all s (o :: os)) with (serve_all (fst (serve s o)) os).
    cbn [List.length] in Hroom. rewrite Nat2Z.inj_succ in Hroom.
    destruct (serve_quantity_of_exact p s o Ho Hsmall_o) as [Hq Hinc];
      [lia|].
    rewrite (IH _ Hos Hsmall_os); lia.
Qed.

Lemma has_line_in (p : Z) (s : store) :
  has_line p s = true <-> exists r, In r (cart s) /\ c_product_id r = p.
Proof.
  unfold has_line. rewrite existsb_exists.
  split; intros [r [Hr Hp]]; exists r; split; auto; lia.
Qed.

(** A request that is not a [SetQuantity] or [Remove] of a line of the
    product keeps the product's line. *)
Lemma serve_keeps_line (p : Z) (s : store) (o : operation) :
  targets s o p = false -> has_line p s = true ->
  has_line p (fst (serve s o)) = true.
Proof.
  intros Hfree Hline. apply has_line_in in Hline.
  destruct Hline as [r [Hr Hp]]. apply has_line_in.
  destruct o as [product_id quantity | line_id quantity | line_id];
    cbn [serve targets] in *.
  - destruct quantity as [|q];
      [rewrite post_cart_null_quantity; eauto|].
    destruct product_id as [|p'];
      [rewrite post_cart_null_product; eauto|].
    destruct (select_cart_by_product s (VInt p')) as [row|] eqn:Hsel.
    + rewrite (post_cart_found s p' q row Hsel). cbn [fst cart].
      exists (incremented p' q r). split; [now apply in_map|].
      now rewrite incremented_product.
    + rewrite (post_cart_absent s p' q Hsel). cbn [fst cart].
      exists r. split; [apply in_or_app; now left | exact Hp].
  - destruct quantity as [|q];
      [rewrite put_cart_null_quantity; eauto|].
    rewrite put_cart_int. fold (overwritten line_id q). cbn [fst cart].
    exists (overwritten line_id q r). split; [now apply in_map|].
    unfold overwritten. now destruct (c_id r =? line_id).
  - exists r. split; [|exact Hp]. cbn. apply filter_In.
    split; [exact Hr|].
    now rewrite (not_targeted s line_id p r Hfree Hr Hp).
Qed.

(** An increment of an integer quantity leaves a line for the product. *)
Lemma post_cart_makes_line (p q : Z) (s : store) :
  has_line p (fst (post_cart s (VInt p) (VInt q))) = true.
Proof.
  apply has_line_in.
  destruct (select_cart_by_product s (VInt p)) as [row|] eqn:Hsel.
  - rewrite (post_cart_found s p q row Hsel). cbn [fst cart].
    apply select_some_line in Hsel. destruct Hsel as [Hrow Hp].
    exists (incremented p q row). split; [now apply in_map|].
    now rewrite incremented_product.
  - rewrite (post_cart_absent s p q Hsel). cbn [fst cart].
    exists (mkCartRow (next_rowid s) p (bound_quantity q)).
    split; [apply in_or_app; right; now left | reflexivity].
Qed.

Lemma serve_all_has_line (p : Z) (os : list operation) (s : store) :
  only_added p s os = true ->
  has_line p s || added p os = true ->
  has_line p (serve_all s os) = true.
Proof.
  revert s. induction os as [|o os IH]; intros s Honly Hsome.
  - cbn in *. now rewrite orb_false_r in Hsome.
  - cbn [only_added] in Honly. apply andb_true_iff in Honly.
    destruct Honly as [Ho Hos]. apply negb_true_iff in Ho.
    change (serve_all s (o :: os)) with (serve_all (fst (serve s o)) os).
    apply IH; [exact Hos|].
    destruct (has_line p s) eqn:Hline.
    + now rewrite (serve_keeps_line p s o Ho Hline).
    + cbn [orb] in Hsome.
      destruct o as [[|p'] [|q] | |]; cbn [added] in Hsome;
        try (rewrite Hsome; apply orb_true_r).
      destruct (p' =? p) eqn:E; cbn [orb] in Hsome;
        [|rewrite Hsome; apply orb_true_r].
      apply Z.eqb_eq in E. subst p'. cbn [serve].
      now rewrite post_cart_makes_line.
Qed.

(** C8, as stated, fails: the line need not hold the sum of the
    increments.  On the seeded database, product 1 is added 3 times, then
    2^53 times, then -2^53 times; the second and third increments are bound
    as [REAL]s and added in binary64, and the line holds 4 where the
    increments sum to 3. *)
Lemma large_increments_do_not_sum :
  ~ (forall (s : store) (os : list operation) (p : Z) (r : cart_row),
        cart s = [] -> only_added p s os = true ->
        In r (cart (serve_all s os)) -> c_product_id r = p ->
        c_quantity r = increments p os)
  /\ (let os := [AddOrIncrement (VInt 1) (VInt 3);
                 AddOrIncrement (VInt 1) (VInt (2 ^ 53));
                 AddOrIncrement (VInt 1) (VInt (- 2 ^ 53))] in
      cart (serve_all fresh_db os) = [mkCartRow 1 1 4]
      /\ increments 1 os = 3).
Proof.
  split.
  - intros H.
    specialize (H fresh_db
                  [AddOrIncrement (VInt 1) (VInt 3);
                   AddOrIncrement (VInt 1) (VInt (2 ^ 53));
                   AddOrIncrement (VInt 1) (VInt (- 2 ^ 53))]
                  1 (mkCartRow 1 1 4) eq_refl eq_refl).
    assert (Hin : In (mkCartRow 1 1 4)
                     (cart (serve_all fresh_db
                              [AddOrIncrement (VInt 1) (VInt 3);
                               AddOrIncrement (VInt 1) (VInt (2 ^ 53));
                               AddOrIncrement (VInt 1) (VInt (- 2 ^ 53))])))
      by (vm_compute; now left).
    specialize (H Hin eq_refl). vm_compute in H. discriminate H.
  - cbv zeta. split; vm_compute; reflexivity.
Qed.

(** C8, as the code has it.  Requests served one after the other, from an
    empty cart, leave at most one line per product.  When, along the way,
    no [SetQuantity] or [Remove] names a line of a product, and the
    increments asked are 32-bit integers, at most 2^31 of them, any line
    the cart has for that product holds the sum of the increments asked for
    it; and it has such a line as soon as one increment of an integer
    quantity was asked. *)
Theorem sequential_one_line_per_product (s : store) (os : list operation) :
  cart s = [] ->
  one_line_per_product (serve_all s os)
  /\ (forall p r,
         only_added p s os = true -> small_increments os ->
         In r (cart (serve_all s os)) -> c_product_id r = p ->
         c_quantity r = increments p os)
  /\ (forall p,
         only_added p s os = true -> added p os = true ->
         exists r, In r (cart (serve_all s os))
                   /\ c_product_id r = p
                   /\ (small_increments os ->
                       c_quantity r = increments p os)).
Proof.
  intros Hempty.
  assert (Hone : one_line_per_product (serve_all s os)).
  { apply serve_all_one_line_per_product. unfold one_line_per_product.
    rewrite Hempty. constructor. }
  assert (Hsum : forall p r,
             only_added p s os = true -> small_increments os ->
             In r (cart (serve_all s os)) -> c_product_id r = p ->
             c_quantity r = increments p os).
  { intros p r Honly [Hsmall Hlen] Hr Hp.
    assert (H0 : quantity_of p s = 0)
      by (unfold quantity_of, select_cart_by_product; now rewrite Hempty).
    pose proof (serve_all_quantity_of p os s Honly Hsmall) as Hq.
    rewrite H0 in Hq. unfold quantity_of in Hq. subst p.
    rewrite (select_unique_line _ r Hone Hr) in Hq.
    rewrite Hq; [lia|]. cbn [Z.abs]. nia. }
  split; [exact Hone|]. split; [exact Hsum|].
  intros p Honly Hadded.
  assert (Hline : has_line p (serve_all s os) = true).
  { apply serve_all_has_line; [exact Honly|].
    rewrite Hadded. apply orb_true_r. }
  apply has_line_in in Hline. destruct Hline as [r [Hr Hp]].
  exists r. split; [exact Hr|]. split; [exact Hp|].
  intros Hsmall. now apply Hsum.
Qed.

(** Product 1 is added three times while a line of product 2 is set and
    removed: its one line holds 2 + 3 + 4. *)
Lemma sequential_one_line_per_product_witness :
  let os := [AddOrIncrement (VInt 1) (VInt 2);
             AddOrIncrement (VInt 2) (VInt 1);
             AddOrIncrement (VInt 1) (VInt 3);
             SetQuantity 2 (VInt 7);
             Remove 2;
             AddOrIncrement (VInt 1) (VInt 4)] in
  cart fresh_db = []
  /\ only_added 1 fresh_db os = true
  /\ small_increments os
  /\ cart (serve_all fresh_db os) = [mkCartRow 1 1 9]
  /\ one_line_per_product (serve_all fresh_db os)
  /\ c_quantity (mkCartRow 1 1 9) = increments 1 os.
Proof.
  intros os.
  assert (Hsmall : small_increments os).
  { split; [repeat constructor | cbn; lia]. }
  destruct (sequential_one_line_per_product fresh_db os eq_refl)
    as [Hone [Hsum _]].
  split; [reflexivity|]. split; [reflexivity|]. split; [exact Hsmall|].
  split; [reflexivity|]. split; [exact Hone|].
  apply (Hsum 1 (mkCartRow 1 1 9) eq_refl Hsmall); [now left | reflexivity].
Defined.

(* ================================================================== *)
(** * What the routes do not check                                     *)
(* ================================================================== *)

(** A refused request leaves the store as it was. *)
Lemma refused_no_mutation (s : store) (o : operation) :
  refused (snd (serve s o)) -> fst (serve s o) = s.
Proof.
  unfold refused.
  destruct o as [product_id quantity | line_id quantity | line_id]; simpl.
  - unfold post_cart, post_cart_write.
    destruct (select_cart_by_product s product_id).
    + destruct (update_cart_add s quantity product_id); simpl;
        [intros H; now elim H | reflexivity].
    + destruct (insert_cart s product_id quantity) as [[s' id]|]; simpl;
        [intros H; now elim H | reflexivity].
  - unfold put_cart.
    destruct (update_cart_set s quantity line_id); simpl;
      [intros H; now elim H | reflexivity].
  - intros H. now elim H.
Qed.

(** [POST /cart] never reads the catalog: on two stores with the same cart
    table it answers the same and leaves the same cart table. *)
Lemma post_cart_ignores_catalog (s : store) (catalog : list product)
  (product_id quantity : value) :
  let s0 := mkStore catalog (cart s) (cart_seq s) in
  snd (post_cart s0 product_id quantity) = snd (post_cart s product_id quantity)
  /\ cart (fst (post_cart s0 product_id quantity)) =
     cart (fst (post_cart s product_id quantity)).
Proof.
  unfold post_cart, post_cart_write, select_cart_by_product. simpl.
  destruct (find _ (cart s)).
  - unfold update_cart_add. simpl.
    destruct quantity; [destruct (existsb _ _)|]; simpl; auto.
  - unfold insert_cart. destruct product_id, quantity; simpl; auto.
Qed.

(** C2, on the code.  Product 999 is not in the seeded catalog, and
    [POST /cart] for it answers 200 [Added to cart] and inserts the line:
    the route never reads [products], and the [FOREIGN KEY] clause of the
    cart table is not enforced. *)
Theorem add_unknown_product_inserts :
  in_catalog fresh_db 999 = false
  /\ post_cart fresh_db (VInt 999) (VInt 1) =
     (mkStore (products fresh_db) [mkCartRow 1 999 1] 1,
      mkResponse 200 (JIdMessage 1 "Added to cart"))
  /\ get_cart (fst (post_cart fresh_db (VInt 999) (VInt 1))) =
     mkResponse 200 (JRows []).
Proof.
  repeat split.
Qed.

(** C3, as stated, fails: a quantity of 0 is accepted by [POST /cart], which
    answers 200 and creates a line of quantity 0, and by
    [PUT /cart/{line_id}], which answers 200. *)
Lemma nonpositive_quantity_accepted :
  ~ (forall (s : store) (p line_id q : Z),
        q <= 0 ->
        (refused (snd (post_cart s (VInt p) (VInt q)))
         /\ fst (post_cart s (VInt p) (VInt q)) = s)
        /\ (refused (snd (put_cart s line_id (VInt q)))
            /\ fst (put_cart s line_id (VInt q)) = s)).
Proof.
  intros H.
  destruct (H fresh_db 1 1 0 ltac:(lia)) as [[Hpost _] _].
  apply Hpost. reflexivity.
Qed.

(** C3, as the code has it.  The service sets no floor on quantities.  For
    every quantity [q] of magnitude below 2^53, positive or not,
    [POST /cart] answers 200; when the cart has no line for the product it
    creates one, last, of quantity [q]; when it has one it creates none,
    and, [q] being in the 32-bit range, the quantity the cart holds for the
    product moves by [q], as long as that quantity is an [INTEGER] and the
    sum fits 64 bits; and [PUT /cart/{line_id}] answers 200 and every line
    with that id then holds [q].  A request is refused only for a NULL the
    schema forbids, and a refused request changes nothing.  The floor of 1
    is in the page: its [-] button and its input field never send less
    than 1. *)
Theorem quantity_floor_only_in_page (s : store) (p line_id q : Z) :
  Z.abs q < 2 ^ 53 ->
  status (snd (post_cart s (VInt p) (VInt q))) = 200
  /\ (select_cart_by_product s (VInt p) = None ->
      cart (fst (post_cart s (VInt p) (VInt q))) =
      cart s ++ [mkCartRow (next_rowid s) p q])
  /\ (forall row,
         select_cart_by_product s (VInt p) = Some row ->
         List.length (cart (fst (post_cart s (VInt p) (VInt q)))) =
         List.length (cart s)
         /\ (int32 q = true -> sum_fits (c_quantity row) q ->
             quantity_of p (fst (post_cart s (VInt p) (VInt q))) =
             c_quantity row + q))
  /\ status (snd (put_cart s line_id (VInt q))) = 200
  /\ (forall r, In r (cart s) -> c_id r = line_id ->
        In (mkCartRow line_id (c_product_id r) q)
           (cart (fst (put_cart s line_id (VInt q)))))
  /\ (forall o, refused (snd (serve s o)) -> fst (serve s o) = s)
  /\ (forall quantity, 1 <= minus_button quantity)
  /\ (forall parsed, 1 <= input_change parsed).
Proof.
  intros Hq. pose proof (bound_quantity_exact q Hq) as Hbound.
  split; [|split; [|split; [|split; [|split; [|split; [|split]]]]]].
  - apply post_cart_int_status.
  - intros Hnone. now rewrite (post_cart_absent s p q Hnone), Hbound.
  - intros row Hrow. split.
    + rewrite (post_cart_found s p q row Hrow). apply length_map.
    + intros Hsmall Hfits. rewrite (post_cart_found_quantity s p q row Hrow).
      now apply added_quantity_exact.
  - reflexivity.
  - intros r Hr Hid. rewrite put_cart_int. cbn [fst cart].
    apply in_map_iff. exists r. split; [|exact Hr]. unfold overwritten.
    replace (c_id r =? line_id) with true by lia.
    now rewrite Hid, Hbound.
  - apply refused_no_mutation.
  - intros quantity. unfold minus_button. lia.
  - intros parsed. unfold input_change. lia.
Qed.

(** The seeded database receives 0 of product 1, which makes a line of 0;
    a cart holding 2 of product 1 receives -5 more and then 0 by [PUT]. *)
Lemma quantity_floor_only_in_page_witness :
  let s := fst (post_cart fresh_db (VInt 1) (VInt 2)) in
  Z.abs (-5) < 2 ^ 53 /\ Z.abs 0 < 2 ^ 53
  /\ cart (fst (post_cart fresh_db (VInt 1) (VInt 0))) = [mkCartRow 1 1 0]
  /\ quantity_of 1 (fst (post_cart s (VInt 1) (VInt (-5)))) = 2 + -5
  /\ In (mkCartRow 1 1 0) (cart (fst (put_cart s 1 (VInt 0))))
  /\ 1 <= minus_button 1
  /\ 1 <= input_change (Some (-3)).
Proof.
  intros s.
  assert (H5 : Z.abs (-5) < 2 ^ 53) by (cbn; lia).
  assert (H0 : Z.abs 0 < 2 ^ 53) by (cbn; lia).
  destruct (quantity_floor_only_in_page s 1 1 (-5) H5)
    as [_ [_ [Hfound [_ [_ [_ [Hminus Hinput]]]]]]].
  destruct (quantity_floor_only_in_page s 1 1 0 H0)
    as [_ [_ [_ [_ [Hput _]]]]].
  destruct (quantity_floor_only_in_page fresh_db 1 1 0 H0)
    as [_ [Hnew _]].
  split; [exact H5|]. split; [exact H0|]. split; [|split; [|split]].
  - exact (Hnew eq_refl).
  - apply (Hfound (mkCartRow 1 1 2) eq_refl); [reflexivity|].
    unfold sum_fits. cbn. lia.
  - exact (Hput (mkCartRow 1 1 2) (or_introl eq_refl) eq_refl).
  - split; [apply Hminus | apply Hinput].
Defined.

(* ================================================================== *)
(** * SetQuantity                                                      *)
(* ================================================================== *)

Lemma overwritten_twice (id q : Z) (x : cart_row) :
  overwritten id q (overwritten id q x) = overwritten id q x.
Proof.
  unfold overwritten. destruct (c_id x =? id) eqn:E; simpl; now rewrite E.
Qed.

Lemma overwritten_absent (id q : Z) (rows : list cart_row) :
  (forall r, In r rows -> c_id r <> id) -> map (overwritten id q) rows = rows.
Proof.
  intros Hno. rewrite <- (map_id rows) at 2. apply map_ext_in.
  intros r Hr. unfold overwritten.
  replace (c_id r =? id) with false; [reflexivity|].
  specialize (Hno r Hr). lia.
Qed.

Lemma in_select_cart_join (s : store) (c : cart_row) (p : product) :
  In c (cart s) -> In p (products s) -> c_product_id c = p_id p ->
  In (join_row c p) (select_cart_join s).
Proof.
  intros Hc Hp Heq. unfold select_cart_join. apply in_flat_map.
  exists c. split; [exact Hc|]. apply in_map. apply filter_In.
  split; [exact Hp | lia].
Qed.

(** C4, as stated, fails: on the seeded database, whose cart is empty,
    [PUT /cart/42] with quantity 3 answers 200 [Quantity updated]. *)
Lemma set_quantity_missing_line_succeeds :
  ~ (forall (s : store) (line_id q : Z),
        (forall r, In r (cart s) -> c_id r <> line_id) ->
        refused (snd (put_cart s line_id (VInt q)))).
Proof.
  intros H. apply (H fresh_db 42 3); [intros r [] | reflexivity].
Qed.

(** C4, as the code has it.  [SetQuantity(line_id, q)], that is
    [PUT /cart/{line_id}], answers 200 [Quantity updated] whether or not a
    line has that id; when none has, the store is unchanged; a second call
    with the same value answers the same and changes nothing more.  For a
    quantity [q] of magnitude below 2^53: when a line has the id, its
    quantity becomes exactly [q] and every other line is as before; and
    when the line's product is in the catalog, the view that follows
    returns an object for that product whose quantity is the number of
    value [q] (with at most one line per product, every object it returns
    for that product has that quantity).  In general the quantity stored is
    the binary64 number nearest to [q]: 2^53 + 1 is stored as 2^53. *)
Theorem set_quantity_overwrites (s : store) (line_id q : Z) :
  snd (put_cart s line_id (VInt q)) =
    mkResponse 200 (JMessage "Quantity updated")
  /\ ((forall r, In r (cart s) -> c_id r <> line_id) ->
      fst (put_cart s line_id (VInt q)) = s)
  /\ put_cart (fst (put_cart s line_id (VInt q))) line_id (VInt q) =
     put_cart s line_id (VInt q)
  /\ (Z.abs q < 2 ^ 53 ->
      (forall i x,
          nth_error (cart s) i = Some x ->
          nth_error (cart (fst (put_cart s line_id (VInt q)))) i =
          Some (if c_id x =? line_id
                then mkCartRow line_id (c_product_id x) q
                else x))
      /\ (forall c p,
             In c (cart s) -> c_id c = line_id ->
             In p (products s) -> p_id p = c_product_id c ->
             (exists row,
                 In row (select_cart_join (fst (put_cart s line_id (VInt q))))
                 /\ j_id row = c_product_id c
                 /\ j_quantity row = number_of_Z q
                 /\ quantity_shown row = q)
             /\ (one_line_per_product s ->
                 forall row,
                   In row (select_cart_join
                             (fst (put_cart s line_id (VInt q)))) ->
                   j_id row = c_product_id c ->
                   j_quantity row = number_of_Z q)))
  /\ (Z.abs q < 2 ^ 1023 ->
      forall r, In r (cart s) -> c_id r = line_id ->
                In (mkCartRow line_id (c_product_id r) (binary64 q))
                   (cart (fst (put_cart s line_id (VInt q)))))
  /\ cart (fst (put_cart (fst (post_cart fresh_db (VInt 1) (VInt 1))) 1
                         (VInt (2 ^ 53 + 1)))) =
     [mkCartRow 1 1 (2 ^ 53)].
Proof.
  rewrite put_cart_int. cbn [fst snd].
  split; [reflexivity|]. split; [|split; [|split; [|split]]].
  - intros Hno. rewrite (overwritten_absent _ _ _ Hno). now destruct s.
  - rewrite put_cart_int. cbn [products cart cart_seq].
    rewrite map_map. f_equal. f_equal. apply map_ext.
    apply overwritten_twice.
  - intros Hq. pose proof (bound_quantity_exact q Hq) as Hbound. split.
    + intros i x Hx. cbn [cart]. rewrite nth_error_map, Hx. cbn [option_map].
      unfold overwritten. rewrite Hbound.
      destruct (c_id x =? line_id) eqn:E; [|reflexivity].
      apply Z.eqb_eq in E. now rewrite E.
    + intros c p Hc Hid Hp Hpid. split.
      * exists (join_row (overwritten line_id q c) p).
        unfold overwritten. replace (c_id c =? line_id) with true by lia.
        rewrite Hbound.
        split; [|split; [cbn; lia | split; [reflexivity|]]].
        -- apply in_select_cart_join; cbn [cart products].
           ++ apply in_map_iff. exists c. unfold overwritten.
              replace (c_id c =? line_id) with true by lia.
              rewrite ?Hbound. tauto.
           ++ exact Hp.
           ++ cbn. lia.
        -- unfold quantity_shown. cbn [join_row j_quantity c_quantity].
           now apply integer_of_number_of_Z.
      * intros Hone row Hrow Hrid. unfold select_cart_join in Hrow.
        cbn [cart products] in Hrow.
        apply in_flat_map in Hrow. destruct Hrow as [c' [Hc' Hrow]].
        apply in_map_iff in Hrow. destruct Hrow as [p' [<- Hp']].
        apply filter_In in Hp'. destruct Hp' as [_ Hp'].
        apply in_map_iff in Hc'. destruct Hc' as [x [<- Hx]].
        cbn [join_row j_id] in Hrid. rewrite overwritten_product in Hp'.
        assert (Hxp : c_product_id x = c_product_id c) by lia.
        assert (x = c).
        { pose proof (select_unique_line s x Hone Hx) as H1.
          pose proof (select_unique_line s c Hone Hc) as H2.
          rewrite Hxp in H1. congruence. }
        subst x. cbn [join_row j_quantity]. unfold overwritten.
        replace (c_id c =? line_id) with true by lia.
        cbn [c_quantity]. now rewrite Hbound.
  - intros Hq r Hr Hid. cbn [cart]. apply in_map_iff. exists r.
    split; [|exact Hr]. unfold overwritten.
    replace (c_id r =? line_id) with true by lia.
    rewrite Hid, bound_quantity_rounds by lia. reflexivity.
  - vm_compute. reflexivity.
Qed.

(** A cart with lines for products 1 and 2; line 2 is set to 7, and line 42,
    which does not exist, is set to 3. *)
Lemma set_quantity_overwrites_witness :
  let s := serve_all fresh_db [AddOrIncrement (VInt 1) (VInt 2);
                               AddOrIncrement (VInt 2) (VInt 1)] in
  fst (put_cart s 42 (VInt 3)) = s
  /\ Z.abs 7 < 2 ^ 53
  /\ nth_error (cart (fst (put_cart s 2 (VInt 7)))) 1 =
     Some (mkCartRow 2 2 7)
  /\ exists row,
       In row (select_cart_join (fst (put_cart s 2 (VInt 7))))
       /\ j_id row = 2 /\ j_quantity row = number_of_Z 7
       /\ quantity_shown row = 7.
Proof.
  intros s.
  assert (Hsmall : Z.abs 7 < 2 ^ 53) by (cbn; lia).
  destruct (set_quantity_overwrites s 42 3) as [_ [Habsent _]].
  destruct (set_quantity_overwrites s 2 7) as [_ [_ [_ [Hset _]]]].
  destruct (Hset Hsmall) as [Hnth Hview].
  split; [|split; [exact Hsmall|split]].
  - apply Habsent. intros r [<-|[<-|[]]]; discriminate.
  - exact (Hnth 1%nat (mkCartRow 2 2 1) eq_refl).
  - refine (proj1 (Hview (mkCartRow 2 2 1)
                         (mkProduct 2 "Smartphone X" "📱" 899.99%float
                                    "Latest smartphone" "Electronics")
                         _ eq_refl _ eq_refl)).
    + right. now left.
    + right. now left.
Defined.

(* ================================================================== *)
(** * The total of the page                                            *)
(* ================================================================== *)






(* ================================================================== *)
(** * Two requests at once                                             *)
(* ================================================================== *)

(** A request that runs without another in between is the request served
    alone. *)
Lemma run_alone (s : store) (o : operation) :
  run (s, [Arrived o]) [0%nat; 0%nat] =
  (fst (serve s o), [Responded (snd (serve s o))]).
Proof.
  destruct o as [product_id quantity | line_id quantity | line_id];
    unfold run; cbn.
  - unfold post_cart. now destruct (post_cart_write _ _ _ _).
  - now destruct (put_cart s line_id quantity).
  - reflexivity.
Qed.

(** The race, in general: two increments of a product the cart has no line
    for, both [SELECT]s before either callback, insert two lines. *)
Lemma race_inserts_twice (s : store) (p q1 q2 : Z) :
  has_line p s = false ->
  cart (fst (run (s, [Arrived (AddOrIncrement (VInt p) (VInt q1));
                      Arrived (AddOrIncrement (VInt p) (VInt q2))])
                 [0%nat; 1%nat; 0%nat; 1%nat])) =
  cart s ++ [mkCartRow (next_rowid s) p (bound_quantity q1);
             mkCartRow (next_rowid s + 1) p (bound_quantity q2)].
Proof.
  intros Hno.
  assert (Hsel : select_cart_by_product s (VInt p) = None).
  { unfold has_line in Hno. unfold select_cart_by_product. cbn [sql_eq].
    rewrite existsb_find in Hno. now destruct (find _ (cart s)). }
  unfold run. cbn. rewrite Hsel. cbn. rewrite <- app_assoc. cbn.
  unfold next_rowid at 2. cbn [cart cart_seq].
  replace (Z.max (max_rowid (cart s ++ [mkCartRow (next_rowid s) p
                                                  (bound_quantity q1)]))
                 (next_rowid s)) with (next_rowid s); [reflexivity|].
  assert (Hmax : forall l x, (forall r, In r l -> c_id r <= c_id x) ->
                             0 <= c_id x -> max_rowid (l ++ [x]) = c_id x).
  { induction l as [|y l IH]; intros x Hle Hx; cbn; [lia|].
    rewrite IH; [|intros r Hr; apply Hle; now right | exact Hx].
    specialize (Hle y (or_introl eq_refl)). lia. }
  rewrite Hmax; cbn [c_id]; [lia | |].
  - intros r Hr. destruct (next_rowid_fresh s) as [_ Hids].
    specialize (Hids r Hr). lia.
  - unfold next_rowid.
    assert (0 <= max_rowid (cart s)).
    { unfold max_rowid. induction (cart s) as [|y l IH]; simpl; lia. }
    lia.
Qed.

(** C9, on the code.  Two [POST /cart] for one unit of product 1 reach the
    seeded database together.  When both [SELECT]s run before either
    callback, both requests see no line and both insert: the cart ends with
    two lines for product 1, and both requests answer 200.  A third request
    for one more unit then raises both lines, and the cart holds 4 units
    where 3 were added.  Served one after the other, the same two requests
    leave one line of quantity 2. *)
Theorem concurrent_adds_duplicate_line :
  let add := AddOrIncrement (VInt 1) (VInt 1) in
  let raced := run (fresh_db, [Arrived add; Arrived add])
                   [0%nat; 1%nat; 0%nat; 1%nat] in
  let serial := run (fresh_db, [Arrived add; Arrived add])
                    [0%nat; 0%nat; 1%nat; 1%nat] in
  cart (fst raced) = [mkCartRow 1 1 1; mkCartRow 2 1 1]
  /\ snd raced =
     [Responded (mkResponse 200 (JIdMessage 1 "Added to cart"));
      Responded (mkResponse 200 (JIdMessage 2 "Added to cart"))]
  /\ ~ one_line_per_product (fst raced)
  /\ cart (fst (serve (fst raced) add)) = [mkCartRow 1 1 2; mkCartRow 2 1 2]
  /\ cart (fst serial) = [mkCartRow 1 1 2]
  /\ fst serial = serve_all fresh_db [add; add].
Proof.
  cbv zeta. split; [reflexivity|]. split; [reflexivity|].
  split; [|repeat split].
  intros H. inversion H as [|? ? Hnotin _]. apply Hnotin. now left.
Qed.

(* ================================================================== *)
(** * Increments in flight together, the line being there              *)
(* ================================================================== *)

Lemma has_line_select (p : Z) (s : store) :
  has_line p s = true ->
  exists row, select_cart_by_product s (VInt p) = Some row.
Proof.
  unfold has_line, select_cart_by_product. cbn [sql_eq].
  rewrite existsb_find. destruct (find _ (cart s)) as [row|]; [|discriminate].
  intros _. now exists row.
Qed.

(** The callback of a stale [SELECT] writes what a fresh one would: the row
    it read only names the id in the answer. *)
Lemma post_cart_write_stale (s : store) (p q : Z) (stale row : cart_row) :
  select_cart_by_product s (VInt p) = Some row ->
  fst (post_cart_write s (VInt p) (VInt q) (Some stale)) =
  fst (post_cart s (VInt p) (VInt q))
  /\ status (snd (post_cart_write s (VInt p) (VInt q) (Some stale))) = 200.
Proof.
  intros Hsel. unfold post_cart. rewrite Hsel. split; reflexivity.
Qed.

Lemma set_nth_Forall (P : phase -> Prop) (phs : list phase) (i : nat)
  (ph : phase) :
  Forall P phs -> P ph -> Forall P (set_nth phs i ph).
Proof.
  intros Hall Hph. revert i.
  induction Hall as [|x l Hx Hl IH]; intros [|i]; simpl; auto.
Qed.

Lemma set_nth_pending (phs : list phase) (i : nat) (old ph : phase) :
  nth_error phs i = Some old ->
  pending_sum (set_nth phs i ph) = pending_sum phs - pending old + pending ph.
Proof.
  revert i. induction phs as [|x l IH]; intros [|i]; simpl; try discriminate.
  - intros [= ->]. lia.
  - intros H. rewrite (IH i H). lia.
Qed.

Lemma set_nth_unanswered (phs : list phase) (i : nat) (old ph : phase) :
  nth_error phs i = Some old ->
  unanswered (set_nth phs i ph) = unanswered phs - waiting old + waiting ph.
Proof.
  revert i. induction phs as [|x l IH]; intros [|i]; simpl; try discriminate.
  - intros [= ->]. lia.
  - intros H. rewrite (IH i H). lia.
Qed.

Lemma unanswered_nonneg (phs : list phase) : 0 <= unanswered phs.
Proof.
  induction phs as [|ph phs IH]; [cbn; lia|].
  change (unanswered (ph :: phs)) with (waiting ph + unanswered phs).
  destruct ph; cbn [waiting]; lia.
Qed.

Lemma advance_in_flight (p k : Z) (s0 : store) (sys : store * list phase)
  (i : nat) :
  in_flight_invariant p k s0 sys -> in_flight_invariant p k s0 (advance sys i).
Proof.
  destruct sys as [s phs]. unfold in_flight_invariant, advance. cbn [fst snd].
  intros [Hline [Hall [Hk [Hroom [Hids Hpids]]]]].
  destruct (nth_error phs i) as [ph|] eqn:Hnth; [|cbn; auto 6].
  assert (Hph : increment_in_flight p ph).
  { rewrite Forall_forall in Hall. apply Hall.
    now apply nth_error_In with i. }
  destruct (has_line_select p s Hline) as [row Hrow].
  destruct ph as [[[|p'] [|q] | |] | [|p'] [|q] [stale|] | r];
    cbn in Hph; try contradiction.
  - (* the SELECT of an arrived request *)
    destruct Hph as [-> Hq]. cbn [step fst snd]. rewrite Hrow.
    repeat split; auto.
    + apply set_nth_Forall; [exact Hall | now split].
    + rewrite (set_nth_pending phs i _ _ Hnth). cbn. lia.
    + rewrite (set_nth_unanswered phs i _ _ Hnth). cbn [waiting]. lia.
  - (* the callback: the UPDATE *)
    destruct Hph as [-> Hq]. cbn [step].
    destruct (post_cart_write_stale s p q stale row Hrow) as [Hst Hok].
    destruct (post_cart_write s (VInt p) (VInt q) (Some stale))
      as [s' r] eqn:Hw.
    cbn [fst snd] in *. subst s'.
    pose proof (set_nth_unanswered phs i _ (Responded r) Hnth) as Hleft.
    cbn [waiting] in Hleft.
    pose proof (unanswered_nonneg (set_nth phs i (Responded r))) as Hnonneg.
    destruct (serve_quantity_of_exact p s
                (AddOrIncrement (VInt p) (VInt q)) eq_refl Hq) as [Hsum Hinc];
      [lia|].
    cbn [serve increments] in Hsum, Hinc. rewrite Z.eqb_refl in Hsum, Hinc.
    repeat split.
    + apply (serve_keeps_line p s (AddOrIncrement (VInt p) (VInt q)));
        [reflexivity | exact Hline].
    + apply set_nth_Forall; [exact Hall | exact Hok].
    + rewrite (set_nth_pending phs i _ _ Hnth). cbn. lia.
    + lia.
    + rewrite (post_cart_found s p q row Hrow). cbn [fst cart].
      rewrite map_map. rewrite <- Hids. apply map_ext.
      intros x. apply incremented_id.
    + rewrite (post_cart_found s p q row Hrow). cbn [fst cart].
      rewrite map_map. rewrite <- Hpids. apply map_ext.
      intros x. apply incremented_product.
  - (* an answered request does nothing more *)
    cbn [step fst snd]. repeat split; auto.
    + apply set_nth_Forall; [exact Hall | exact Hph].
    + rewrite (set_nth_pending phs i _ _ Hnth). cbn. lia.
    + rewrite (set_nth_unanswered phs i _ _ Hnth). cbn [waiting]. lia.
Qed.

Lemma run_in_flight (p k : Z) (s0 : store) (schedule : list nat)
  (sys : store * list phase) :
  in_flight_invariant p k s0 sys ->
  in_flight_invariant p k s0 (run sys schedule).
Proof.
  revert sys. induction schedule as [|i schedule IH]; intros sys H;
    [exact H|].
  apply IH. now apply advance_in_flight.
Qed.

Lemma adds_of_pending (p : Z) (qs : list Z) :
  pending_sum (adds_of p qs) = fold_right Z.add 0 qs.
Proof.
  induction qs as [|q qs IH]; simpl; [reflexivity | now rewrite IH].
Qed.

Lemma adds_of_unanswered (p : Z) (qs : list Z) :
  unanswered (adds_of p qs) = Z.of_nat (List.length qs).
Proof.
  induction qs as [|q qs IH]; [reflexivity|].
  cbn [adds_of map unanswered fold_right waiting List.length].
  fold (adds_of p qs). fold (unanswered (adds_of p qs)). rewrite IH. lia.
Qed.

Lemma responded_pending (phs : list phase) :
  forallb responded phs = true -> pending_sum phs = 0.
Proof.
  induction phs as [|ph phs IH]; simpl; [reflexivity|].
  intros H. apply andb_true_iff in H. destruct H as [Hph Hrest].
  rewrite (IH Hrest). now destruct ph.
Qed.

(** Increments of one product that overlap in any order, on a cart that
    already has a line for it, are all kept.  The increments being 32-bit
    integers, few enough for the quantity held to stay in the 64-bit range:
    once every request has answered, each has answered 200, the cart has
    the lines it had, with the ids and products they had, and the quantity
    held for the product is the one before plus the sum of the increments.
    The [UPDATE] adds in one statement; only the first insertion of a
    product can race. *)
Theorem interleaved_increments_kept (s : store) (p : Z) (qs : list Z)
  (schedule : list nat) :
  has_line p s = true ->
  Forall (fun q => int32 q = true) qs ->
  Z.abs (quantity_of p s) + 2 ^ 31 * Z.of_nat (List.length qs) < 2 ^ 63 ->
  forallb responded (snd (run (s, adds_of p qs) schedule)) = true ->
  quantity_of p (fst (run (s, adds_of p qs) schedule)) =
    quantity_of p s + fold_right Z.add 0 qs
  /\ map c_id (cart (fst (run (s, adds_of p qs) schedule))) =
     map c_id (cart s)
  /\ map c_product_id (cart (fst (run (s, adds_of p qs) schedule))) =
     map c_product_id (cart s)
  /\ Forall (fun ph => exists r, ph = Responded r /\ status r = 200)
            (snd (run (s, adds_of p qs) schedule)).
Proof.
  intros Hline Hqs Hroom Hdone.
  assert (Hinit : in_flight_invariant p
                    (quantity_of p s + fold_right Z.add 0 qs) s
                    (s, adds_of p qs)).
  { unfold in_flight_invariant. cbn [fst snd]. repeat split; auto.
    - unfold adds_of. rewrite Forall_forall in *. intros ph Hph.
      apply in_map_iff in Hph. destruct Hph as [q [<- Hq]].
      split; [reflexivity | now apply Hqs].
    - now rewrite adds_of_pending.
    - now rewrite adds_of_unanswered. }
  destruct (run_in_flight p _ s schedule _ Hinit)
    as [_ [Hall [Hk [_ [Hids Hpids]]]]].
  rewrite (responded_pending _ Hdone) in Hk.
  split; [lia|]. split; [exact Hids|]. split; [exact Hpids|].
  rewrite Forall_forall in *. intros ph Hph.
  specialize (Hall ph Hph).
  rewrite forallb_forall in Hdone. specialize (Hdone ph Hph).
  destruct ph as [| |r]; try discriminate. now exists r.
Qed.

(** A cart holding 2 of product 1 receives increments of 3, 4 and 5 whose
    statements alternate. *)
Lemma interleaved_increments_kept_witness :
  let s := fst (post_cart fresh_db (VInt 1) (VInt 2)) in
  let schedule := [0; 1; 2; 2; 1; 0]%nat in
  has_line 1 s = true
  /\ Forall (fun q => int32 q = true) [3; 4; 5]
  /\ Z.abs (quantity_of 1 s) + 2 ^ 31 * Z.of_nat (List.length [3; 4; 5])
     < 2 ^ 63
  /\ forallb responded (snd (run (s, adds_of 1 [3; 4; 5]) schedule)) = true
  /\ quantity_of 1 (fst (run (s, adds_of 1 [3; 4; 5]) schedule)) =
     2 + (3 + (4 + (5 + 0))).
Proof.
  intros s schedule.
  assert (Hqs : Forall (fun q => int32 q = true) [3; 4; 5])
    by (repeat constructor).
  assert (Hroom : Z.abs (quantity_of 1 s)
                  + 2 ^ 31 * Z.of_nat (List.length [3; 4; 5]) < 2 ^ 63)
    by (vm_compute; reflexivity).
  split; [reflexivity|]. split; [exact Hqs|]. split; [exact Hroom|].
  split; [reflexivity|].
  exact (proj1 (interleaved_increments_kept s 1 [3; 4; 5] schedule
                  eq_refl Hqs Hroom eq_refl)).
Defined.

(* ================================================================== *)
(** * Row ids                                                          *)
(* ================================================================== *)

Lemma sorted_snoc (l : list Z) (y : Z) :
  StronglySorted Z.lt l -> (forall x, In x l -> x < y) ->
  StronglySorted Z.lt (l ++ [y]).
Proof.
  intros Hl. induction Hl as [|x l Hl IH Hx]; intros Hy; simpl.
  - repeat constructor.
  - constructor.
    + apply IH. intros z Hz. apply Hy. now right.
    + apply Forall_app. split; [exact Hx|].
      constructor; [|constructor]. apply Hy. now left.
Qed.

Lemma sorted_map_filter {A : Type} (g : A -> Z) (keep : A -> bool)
  (l : list A) :
  StronglySorted Z.lt (map g l) ->
  StronglySorted Z.lt (map g (filter keep l)).
Proof.
  induction l as [|x l IH]; simpl; intros H; [exact H|].
  inversion H as [|? ? Hl Hx]; subst.
  destruct (keep x); simpl; [|now apply IH].
  constructor; [now apply IH|].
  rewrite Forall_forall in *. intros z Hz. apply Hx.
  apply in_map_iff in Hz. destruct Hz as [a [<- Ha]].
  apply filter_In in Ha. apply in_map. tauto.
Qed.

(** Rowids are given in increasing order and never given twice.  A request
    keeps the cart table in rowid order and below the recorded sequence,
    never lowers the sequence, and every line it leaves either has the id of
    a line that was there or an id above the sequence as it was: the view
    lists lines in the order of their creation. *)
Theorem rowids_never_reused (s : store) (o : operation) :
  rowid_order s ->
  rowid_order (fst (serve s o))
  /\ cart_seq s <= cart_seq (fst (serve s o))
  /\ forall r, In r (cart (fst (serve s o))) ->
               In (c_id r) (map c_id (cart s)) \/ cart_seq s < c_id r.
Proof.
  unfold rowid_order. intros [Hsorted Hbelow].
  assert (Hsame : forall f : cart_row -> cart_row,
             (forall x, c_id (f x) = c_id x) ->
             (StronglySorted Z.lt (map c_id (map f (cart s)))
              /\ Forall (fun r => c_id r <= cart_seq s) (map f (cart s)))
             /\ cart_seq s <= cart_seq s
             /\ forall r, In r (map f (cart s)) ->
                          In (c_id r) (map c_id (cart s))
                          \/ cart_seq s < c_id r).
  { intros f Hf. split; [split|split; [lia|]].
    - rewrite map_map. erewrite map_ext; [exact Hsorted | exact Hf].
    - rewrite Forall_forall in *. intros r Hr.
      apply in_map_iff in Hr. destruct Hr as [x [<- Hx]].
      rewrite Hf. now apply Hbelow.
    - intros r Hr. left. apply in_map_iff in Hr.
      destruct Hr as [x [<- Hx]]. rewrite Hf. now apply in_map. }
  assert (Hstay : (StronglySorted Z.lt (map c_id (cart s))
                   /\ Forall (fun r => c_id r <= cart_seq s) (cart s))
                  /\ cart_seq s <= cart_seq s
                  /\ forall r, In r (cart s) ->
                               In (c_id r) (map c_id (cart s))
                               \/ cart_seq s < c_id r).
  { split; [tauto|]. split; [lia|]. intros r Hr. left. now apply in_map. }
  destruct o as [product_id quantity | line_id quantity | line_id];
    cbn [serve].
  - destruct quantity as [|q];
      [rewrite post_cart_null_quantity; exact Hstay|].
    destruct product_id as [|p];
      [rewrite post_cart_null_product; exact Hstay|].
    destruct (select_cart_by_product s (VInt p)) as [row|] eqn:Hsel.
    + rewrite (post_cart_found s p q row Hsel). cbn [fst cart cart_seq].
      apply Hsame. intros x. unfold incremented.
      now destruct (c_product_id x =? p).
    + rewrite (post_cart_absent s p q Hsel). cbn [fst cart cart_seq].
      destruct (next_rowid_fresh s) as [Hseq Hids].
      split; [split|split; [lia|]].
      * rewrite map_app. apply sorted_snoc; [exact Hsorted|].
        intros x Hx. apply in_map_iff in Hx.
        destruct Hx as [r [<- Hr]]. now apply Hids.
      * apply Forall_app. split.
        -- rewrite Forall_forall in *. intros r Hr.
           specialize (Hids r Hr). lia.
        -- constructor; [cbn; lia | constructor].
      * intros r Hr. apply in_app_or in Hr. destruct Hr as [Hr|[<-|[]]].
        -- left. now apply in_map.
        -- right. exact Hseq.
  - destruct quantity as [|q];
      [rewrite put_cart_null_quantity; exact Hstay|].
    rewrite put_cart_int. cbn [fst cart cart_seq].
    apply Hsame. apply overwritten_id.
  - cbn [delete_cart_line delete_cart fst cart cart_seq].
    split; [split|split; [lia|]].
    + now apply sorted_map_filter.
    + rewrite Forall_forall in *. intros r Hr.
      apply filter_In in Hr. apply Hbelow. tauto.
    + intros r Hr. apply filter_In in Hr. left. apply in_map. tauto.
Qed.

(** Line 1 is removed and a product added: the new line is 2, not 1. *)
Lemma rowids_never_reused_witness :
  let s := serve_all fresh_db [AddOrIncrement (VInt 4) (VInt 1); Remove 1] in
  rowid_order s
  /\ cart s = []
  /\ cart (fst (serve s (AddOrIncrement (VInt 4) (VInt 1)))) =
     [mkCartRow 2 4 1]
  /\ rowid_order (fst (serve s (AddOrIncrement (VInt 4) (VInt 1)))).
Proof.
  intros s.
  assert (Hs : rowid_order s).
  { split; [constructor | constructor]. }
  split; [exact Hs|]. split; [reflexivity|]. split; [reflexivity|].
  exact (proj1 (rowids_never_reused s (AddOrIncrement (VInt 4) (VInt 1)) Hs)).
Defined.

(* ================================================================== *)
(** * The controls of the page                                         *)
(* ================================================================== *)

(** On a line whose quantity is of magnitude below 2^53, the page holds the
    quantity itself, and its buttons send one less, but at least 1, and one
    more. *)
Lemma quantity_shown_rounds (c : cart_row) (p : product) :
  Z.abs (c_quantity c) < 2 ^ 1024 ->
  quantity_shown (join_row c p) = binary64 (c_quantity c).
Proof.
  intros Hq. unfold quantity_shown. cbn [join_row j_quantity].
  symmetry. now apply binary64_is_number_of_Z.
Qed.

Lemma buttons_exact (c : cart_row) (p : product) :
  Z.abs (c_quantity c) < 2 ^ 53 ->
  quantity_shown (join_row c p) = c_quantity c
  /\ minus_button (quantity_shown (join_row c p)) =
     Z.max 1 (c_quantity c - 1)
  /\ plus_button (quantity_shown (join_row c p)) = c_quantity c + 1.
Proof.
  intros Hq.
  assert (Hshown : quantity_shown (join_row c p) = c_quantity c)
    by (unfold quantity_shown; cbn [join_row j_quantity];
        now apply integer_of_number_of_Z).
  rewrite Hshown. unfold minus_button, plus_button.
  rewrite !binary64_small by lia. auto.
Qed.

(** The object the page shows for a line carries the product's id, and the
    page names it in its requests.  On an item shown for line [c], [Remove]
    deletes the lines whose id is [c]'s product id, and [-] and [+] set a
    quantity on those lines: at least 1 for [-]; one less than the quantity
    of [c], but at least 1, and one more than it, in the arithmetic of
    binary64 numbers; which is exact when the quantity of [c] is of
    magnitude below 2^53.  The line [c] itself is touched only when its id
    happens to be its product's id. *)
Theorem page_controls_name_product_id (s : store) (c : cart_row)
  (p : product) :
  In c (cart s) -> In p (products s) -> c_product_id c = p_id p ->
  In (join_row c p) (select_cart_join s)
  /\ j_id (join_row c p) = c_product_id c
  /\ click_remove s (join_row c p) = delete_cart s (c_product_id c)
  /\ (exists q,
         click_minus s (join_row c p) =
         fst (put_cart s (c_product_id c) (VInt q))
         /\ 1 <= q
         /\ (Z.abs (c_quantity c) < 2 ^ 1023 ->
             q = Z.max 1 (binary64 (binary64 (c_quantity c) - 1)))
         /\ (Z.abs (c_quantity c) < 2 ^ 53 ->
             q = Z.max 1 (c_quantity c - 1)))
  /\ (exists q,
         click_plus s (join_row c p) =
         fst (put_cart s (c_product_id c) (VInt q))
         /\ (Z.abs (c_quantity c) < 2 ^ 1023 ->
             q = binary64 (binary64 (c_quantity c) + 1))
         /\ (Z.abs (c_quantity c) < 2 ^ 53 -> q = c_quantity c + 1))
  /\ (c_id c <> c_product_id c ->
      In c (cart (click_remove s (join_row c p)))
      /\ In c (cart (click_minus s (join_row c p)))
      /\ In c (cart (click_plus s (join_row c p)))).
Proof.
  intros Hc Hp Heq.
  unfold click_remove, click_minus, click_plus, removeItem, updateQuantity.
  cbn [join_row j_id delete_cart_line fst]. rewrite <- Heq.
  split; [now apply in_select_cart_join|].
  split; [reflexivity|]. split; [reflexivity|].
  split; [|split].
  - eexists. split; [reflexivity|]. split; [|split].
    + unfold minus_button. lia.
    + intros Hq. unfold minus_button.
      now rewrite (quantity_shown_rounds c p) by lia.
    + intros Hq. now apply (buttons_exact c p).
  - eexists. split; [reflexivity|]. split.
    + intros Hq. unfold plus_button.
      now rewrite (quantity_shown_rounds c p) by lia.
    + intros Hq. now apply (buttons_exact c p).
  - intros Hne.
    assert (Hkeep : forall q,
               In c (cart (fst (put_cart s (c_product_id c) (VInt q))))).
    { intros q. rewrite put_cart_int. cbn [fst cart]. apply in_map_iff.
      exists c. split; [|exact Hc]. unfold overwritten.
      replace (c_id c =? c_product_id c) with false by lia. reflexivity. }
    split; [|split; apply Hkeep].
    cbn. apply filter_In. split; [exact Hc|].
    apply negb_true_iff. lia.
Qed.

(** Smart Watch, product 4, is the first line of the cart: the page shows it
    with id 4, and its [Remove] button removes nothing. *)
Lemma page_controls_name_product_id_witness :
  let s := fst (post_cart fresh_db (VInt 4) (VInt 2)) in
  let watch := mkProduct 4 "Smart Watch" "⌚" 349.99%float
                         "Fitness tracking watch" "Wearables" in
  cart s = [mkCartRow 1 4 2]
  /\ map j_id (select_cart_join s) = [4]
  /\ cart (click_remove s (join_row (mkCartRow 1 4 2) watch)) =
     [mkCartRow 1 4 2]
  /\ In (mkCartRow 1 4 2)
        (cart (click_remove s (join_row (mkCartRow 1 4 2) watch))).
Proof.
  intros s watch.
  split; [reflexivity|]. split; [reflexivity|]. split; [reflexivity|].
  assert (Hc : In (mkCartRow 1 4 2) (cart s)) by now left.
  assert (Hp : In watch (products s)).
  { do 3 right. now left. }
  destruct (page_controls_name_product_id s (mkCartRow 1 4 2) watch
              Hc Hp eq_refl) as [_ [_ [_ [_ [_ Hstuck]]]]].
  apply Hstuck. discriminate.
Defined.

(* ================================================================== *)
(** * The catalog                                                      *)
(* ================================================================== *)

Lemma post_cart_write_products (s : store) (product_id quantity : value)
  (row : option cart_row) :
  products (fst (post_cart_write s product_id quantity row)) = products s.
Proof.
  unfold post_cart_write. destruct row as [r|].
  - unfold update_cart_add.
    destruct quantity; [destruct (existsb _ _)|]; reflexivity.
  - unfold insert_cart. destruct product_id, quantity; reflexivity.
Qed.

Lemma serve_products (s : store) (o : operation) :
  products (fst (serve s o)) = products s.
Proof.
  destruct o as [product_id quantity | line_id quantity | line_id];
    cbn [serve].
  - apply post_cart_write_products.
  - unfold put_cart, update_cart_set.
    destruct quantity; [destruct (existsb _ _)|]; reflexivity.
  - reflexivity.
Qed.

Lemma serve_all_products (os : list operation) (s : store) :
  products (serve_all s os) = products s.
Proof.
  revert s. induction os as [|o os IH]; intros s; [reflexivity|].
  change (serve_all s (o :: os)) with (serve_all (fst (serve s o)) os).
  now rewrite IH, serve_products.
Qed.

Lemma step_products (s : store) (ph : phase) :
  products (fst (step s ph)) = products s.
Proof.
  destruct ph as [o | product_id quantity row | r]; cbn [step].
  - destruct o as [product_id quantity | line_id quantity | line_id];
      [reflexivity | |].
    + rewrite <- (serve_products s (SetQuantity line_id quantity)).
      now destruct (serve s (SetQuantity line_id quantity)).
    + rewrite <- (serve_products s (Remove line_id)).
      now destruct (serve s (Remove line_id)).
  - rewrite <- (post_cart_write_products s product_id quantity row).
    now destruct (post_cart_write s product_id quantity row).
  - reflexivity.
Qed.

Lemma advance_products (sys : store * list phase) (i : nat) :
  products (fst (advance sys i)) = products (fst sys).
Proof.
  unfold advance. destruct (nth_error (snd sys) i) as [ph|]; [|reflexivity].
  rewrite <- (step_products (fst sys) ph).
  now destruct (step (fst sys) ph).
Qed.

Lemma run_products (schedule : list nat) (sys : store * list phase) :
  products (fst (run sys schedule)) = products (fst sys).
Proof.
  revert sys. induction schedule as [|i schedule IH]; intros sys;
    [reflexivity|].
  change (run sys (i :: schedule)) with (run (advance sys i) schedule).
  now rewrite IH, advance_products.
Qed.

(** No cart request writes the catalog.  After requests served one after
    the other, and after requests that overlap in any order, the products
    table is the one before, so [GET /products] and [GET /products/:id]
    answer as before. *)
Theorem catalog_never_changes (s : store) (os : list operation)
  (phs : list phase) (schedule : list nat) (id : Z) :
  products (serve_all s os) = products s
  /\ products (fst (run (s, phs) schedule)) = products s
  /\ get_products (serve_all s os) = get_products s
  /\ get_product (serve_all s os) id = get_product s id
  /\ get_products (fst (run (s, phs) schedule)) = get_products s
  /\ get_product (fst (run (s, phs) schedule)) id = get_product s id.
Proof.
  unfold get_products, get_product, select_product_by_id.
  rewrite serve_all_products, run_products. cbn [fst]. repeat split.
Qed.

Lemma select_product_unique (s : store) (p : product) :
  NoDup (map p_id (products s)) -> In p (products s) ->
  select_product_by_id s (p_id p) = Some p.
Proof.
  unfold select_product_by_id.
  induction (products s) as [|x l IH]; simpl; [intros _ []|].
  intros Hnd Hin. inversion Hnd as [|? ? Hx Hl]; subst.
  destruct Hin as [->|Hin].
  - now rewrite Z.eqb_refl.
  - destruct (p_id x =? p_id p) eqn:E.
    + exfalso. apply Hx. apply Z.eqb_eq in E. rewrite E. now apply in_map.
    + now apply IH.
Qed.

Lemma select_product_in_catalog (s : store) (id : Z) :
  in_catalog s id =
  match select_product_by_id s id with Some _ => true | None => false end.
Proof.
  unfold in_catalog, select_product_by_id. rewrite existsb_find.
  induction (products s) as [|x l IH]; simpl; [reflexivity|].
  rewrite (Z.eqb_sym id). destruct (p_id x =? id); [reflexivity | exact IH].
Qed.

(** What [GET /products] lists, [GET /products/:id] finds.  Product ids
    being unique, as the primary key makes them, every product of the list
    is answered, 200, under its id, the very row; an answer of 200 is a
    product of the list with the id asked; and the answer is 404
    [Product not found] exactly when no product of the list has the id. *)
Theorem product_lookup_round_trip (s : store) :
  NoDup (map p_id (products s)) ->
  (forall p, In p (products s) ->
             get_product s (p_id p) = mkProductResponse 200 (PRow p))
  /\ (forall id p,
         get_product s id = mkProductResponse 200 (PRow p) ->
         In p (products s) /\ p_id p = id)
  /\ (forall id,
         get_product s id =
           mkProductResponse 404 (PError "Product not found")
         <-> ~ In id (map p_id (products s))).
Proof.
  intros Hnd. split; [|split].
  - intros p Hp. unfold get_product.
    now rewrite (select_product_unique s p Hnd Hp).
  - intros id p. unfold get_product.
    destruct (select_product_by_id s id) as [row|] eqn:Hsel;
      [|discriminate].
    intros [= <-]. unfold select_product_by_id in Hsel.
    apply find_some in Hsel. split; [tauto | lia].
  - intros id. unfold get_product.
    destruct (select_product_by_id s id) as [row|] eqn:Hsel.
    + split; [discriminate|]. intros Hno. exfalso. apply Hno.
      unfold select_product_by_id in Hsel. apply find_some in Hsel.
      apply in_map_iff. exists row. split; [lia | tauto].
    + split; [|reflexivity]. intros _ Hin.
      apply in_map_iff in Hin. destruct Hin as [p [Hid Hp]].
      unfold select_product_by_id in Hsel.
      pose proof (find_none _ _ Hsel p Hp) as H. simpl in H. lia.
Qed.

Lemma seeded_ids_unique : NoDup (map p_id (products fresh_db)).
Proof.
  apply (NoDup_map_inv (fun z => z)). rewrite map_id.
  vm_compute. repeat (constructor; [simpl; intuition discriminate|]).
  constructor.
Qed.

(** On the seeded catalog: product 8 is found, product 21 is not. *)
Lemma product_lookup_round_trip_witness :
  NoDup (map p_id (products fresh_db))
  /\ get_product fresh_db 8 =
     mkProductResponse 200
       (PRow (mkProduct 8 "Bluetooth Speaker" "🔊" 79.99%float
                        "Portable speaker" "Audio"))
  /\ get_product fresh_db 21 =
     mkProductResponse 404 (PError "Product not found").
Proof.
  destruct (product_lookup_round_trip fresh_db seeded_ids_unique)
    as [Hfound [_ Hmissing]].
  split; [exact seeded_ids_unique|]. split.
  - apply (Hfound (mkProduct 8 "Bluetooth Speaker" "🔊" 79.99%float
                             "Portable speaker" "Audio")).
    do 7 right. now left.
  - apply Hmissing. vm_compute. intuition discriminate.
Defined.



(* ================================================================== *)
(** * The start of the server                                          *)
(* ================================================================== *)

Lemma max_product_rowid_snoc (rows : list product) (p : product) :
  max_product_rowid (rows ++ [p]) =
  Z.max (max_product_rowid rows) (Z.max (p_id p) 0).
Proof.
  unfold max_product_rowid.
  induction rows as [|x rows IH]; simpl; [lia|]. rewrite IH. lia.
Qed.

Lemma max_product_rowid_nonneg (rows : list product) :
  0 <= max_product_rowid rows.
Proof.
  unfold max_product_rowid. induction rows as [|x rows IH]; simpl; lia.
Qed.

(** Rows inserted one by one into a table whose ids the sequence bounds get
    the ids that follow the sequence, in order. *)
Lemma insert_all_products
  (rows : list (string * string * float * string * string)) (d : db_file) :
  max_product_rowid (products (tables d)) <= products_seq d ->
  fold_left insert_product rows d =
  mkDb (mkStore (products (tables d)
                 ++ insert_products (products_seq d + 1) rows)
                (cart (tables d)) (cart_seq (tables d)))
       (products_seq d + Z.of_nat (List.length rows)).
Proof.
  revert d. induction rows as [|row rows IH]; intros d Hmax.
  - cbn. rewrite app_nil_r, Z.add_0_r. now destruct d as [[ps c cs] n].
  - destruct row as [[[[name emoji] price] description] category].
    cbn [fold_left]. rewrite IH.
    + cbn [insert_product tables products cart cart_seq products_seq
           insert_products].
      replace (Z.max (max_product_rowid (products (tables d)))
                     (products_seq d)) with (products_seq d) by lia.
      rewrite <- app_assoc. cbn [app].
      replace (products_seq d + 1 + Z.of_nat (List.length rows))
        with (products_seq d
              + Z.of_nat (List.length
                            ((name, emoji, price, description, category)
                             :: rows)))
        by (cbn [List.length]; lia).
      reflexivity.
    + cbn [insert_product tables products products_seq].
      rewrite max_product_rowid_snoc. cbn [p_id].
      pose proof (max_product_rowid_nonneg (products (tables d))). lia.
Qed.

Lemma insert_products_ids
  (rows : list (string * string * float * string * string)) (k : Z) :
  (forall p, In p (insert_products k rows) -> k <= p_id p)
  /\ NoDup (map p_id (insert_products k rows)).
Proof.
  revert k. induction rows as [|row rows IH]; intros k.
  - split; [intros p [] | constructor].
  - destruct row as [[[[name emoji] price] description] category].
    destruct (IH (k + 1)) as [Hge Hnd]. cbn [insert_products]. split.
    + intros p [<-|Hp]; [cbn; lia|]. specialize (Hge p Hp). lia.
    + cbn [map p_id]. constructor; [|exact Hnd].
      intros Hin. apply in_map_iff in Hin. destruct Hin as [p [Hid Hp]].
      specialize (Hge p Hp). lia.
Qed.

Lemma start_empty_table (d : db_file) :
  0 <= products_seq d -> products (tables d) = [] ->
  start d =
  mkDb (mkStore (insert_products (products_seq d + 1) seed)
                (cart (tables d)) (cart_seq (tables d)))
       (products_seq d + 20).
Proof.
  intros Hseq He. unfold start. rewrite He. cbn [List.length Nat.eqb].
  rewrite insert_all_products by (rewrite He; cbn; lia).
  now rewrite He.
Qed.

Lemma start_full_table (d : db_file) :
  products (tables d) <> [] -> start d = d.
Proof.
  intros Hne. unfold start.
  destruct (products (tables d)); [contradiction | reflexivity].
Qed.

Lemma start_not_empty (d : db_file) :
  0 <= products_seq d -> products (tables (start d)) <> [].
Proof.
  intros Hseq. destruct (products (tables d)) as [|p ps] eqn:He.
  - rewrite (start_empty_table d Hseq He). discriminate.
  - rewrite start_full_table by (rewrite He; discriminate).
    rewrite He. discriminate.
Qed.

(** The catalog is inserted once.  On a products table that has a row, the
    start of the server changes nothing; on an empty one it inserts the
    twenty products, which get the ids that follow the recorded sequence, in
    the order of the source, all different.  Either way the cart table is
    left as it was, the catalog is not empty afterwards, and a second start
    changes nothing more.  On a new file the result is the seeded database,
    ids 1 to 20. *)
Theorem start_seeds_once (d : db_file) :
  0 <= products_seq d ->
  start (start d) = start d
  /\ cart (tables (start d)) = cart (tables d)
  /\ cart_seq (tables (start d)) = cart_seq (tables d)
  /\ products (tables (start d)) <> []
  /\ (products (tables d) <> [] -> start d = d)
  /\ (products (tables d) = [] ->
      products (tables (start d)) =
        insert_products (products_seq d + 1) seed
      /\ products_seq (start d) = products_seq d + 20
      /\ NoDup (map p_id (products (tables (start d)))))
  /\ tables (start new_file) = fresh_db.
Proof.
  intros Hseq.
  pose proof (start_not_empty d Hseq) as Hafter.
  split; [|split; [|split; [|split; [exact Hafter|split;
    [apply start_full_table|split]]]]].
  - now apply start_full_table.
  - destruct (products (tables d)) as [|p ps] eqn:He.
    + now rewrite (start_empty_table d Hseq He).
    + rewrite start_full_table; [reflexivity | rewrite He; discriminate].
  - destruct (products (tables d)) as [|p ps] eqn:He.
    + now rewrite (start_empty_table d Hseq He).
    + rewrite start_full_table; [reflexivity | rewrite He; discriminate].
  - intros He. rewrite (start_empty_table d Hseq He).
    cbn [tables products products_seq].
    split; [reflexivity|]. split; [reflexivity|].
    apply insert_products_ids.
  - reflexivity.
Qed.

(** A file whose products table was emptied after 20 rows had been
    inserted: the catalog comes back under ids 21 to 40. *)
Lemma start_seeds_once_witness :
  let d := mkDb (mkStore [] [mkCartRow 3 2 1] 3) 20 in
  0 <= products_seq d
  /\ map p_id (products (tables (start d))) =
     [21; 22; 23; 24; 25; 26; 27; 28; 29; 30;
      31; 32; 33; 34; 35; 36; 37; 38; 39; 40]
  /\ cart (tables (start d)) = [mkCartRow 3 2 1]
  /\ start (start d) = start d.
Proof.
  intros d.
  assert (Hseq : 0 <= products_seq d) by (cbn; lia).
  destruct (start_seeds_once d Hseq) as [Hidem [Hcart [_ [_ [_ [Hempty _]]]]]].
  destruct (Hempty eq_refl) as [Hproducts _].
  split; [exact Hseq|]. split; [|split; [exact Hcart | exact Hidem]].
  rewrite Hproducts. reflexivity.
Defined.

(** A restart keeps the catalog and the cart.  Whatever cart requests were
    served since a start, starting the server again on the file they left
    changes nothing: nothing is inserted a second time and no cart line is
    lost. *)
Theorem restart_changes_nothing (d : db_file) (os : list operation) :
  0 <= products_seq d ->
  start (mkDb (serve_all (tables (start d)) os) (products_seq (start d))) =
  mkDb (serve_all (tables (start d)) os) (products_seq (start d)).
Proof.
  intros Hseq. apply start_full_table. cbn [tables].
  rewrite serve_all_products. now apply start_not_empty.
Qed.

(** The seeded database serves requests and the server starts again. *)
Lemma restart_changes_nothing_witness :
  let os := [AddOrIncrement (VInt 2) (VInt 1); SetQuantity 1 (VInt 4)] in
  0 <= products_seq new_file
  /\ cart (tables (start (mkDb (serve_all (tables (start new_file)) os)
                               (products_seq (start new_file))))) =
     [mkCartRow 1 2 4].
Proof.
  intros os. split; [cbn; lia|].
  rewrite (restart_changes_nothing new_file os); [reflexivity | cbn; lia].
Defined.

(* ================================================================== *)
(** * The product page                                                 *)
(* ================================================================== *)

Lemma use_control_floor (pg : page) (c : control) :
  1 <= pp_quantity pg ->
  1 <= pp_quantity (use_control pg c)
  /\ pp_id (use_control pg c) = pp_id pg
  /\ pp_product (use_control pg c) = pp_product pg.
Proof.
  intros Hq. unfold use_control.
  destruct (shows_controls pg); [|auto]. cbn [pp_quantity pp_id pp_product].
  repeat split.
  destruct c as [| |parsed].
  - unfold minus_button. lia.
  - unfold plus_button. apply binary64_floor. lia.
  - unfold input_change. lia.
Qed.

Lemma use_controls_floor (cs : list control) (pg : page) :
  1 <= pp_quantity pg ->
  1 <= pp_quantity (use_controls pg cs)
  /\ pp_id (use_controls pg cs) = pp_id pg
  /\ pp_product (use_controls pg cs) = pp_product pg.
Proof.
  revert pg. induction cs as [|c cs IH]; intros pg Hq; [auto|].
  destruct (use_control_floor pg c Hq) as [H1 [H2 H3]].
  destruct (IH (use_control pg c) H1) as [H4 [H5 H6]].
  change (use_controls pg (c :: cs))
    with (use_controls (use_control pg c) cs).
  split; [exact H4|]. split; congruence.
Qed.

(** A 32-bit increment moves the quantity the cart holds for the product by
    itself, as long as that quantity is an [INTEGER] and the sum fits 64
    bits. *)
Lemma post_cart_quantity_exact (s : store) (p q : Z) :
  int32 q = true -> sum_fits (quantity_of p s) q ->
  quantity_of p (fst (post_cart s (VInt p) (VInt q))) = quantity_of p s + q.
Proof.
  intros Hq Hfits.
  pose proof (serve_quantity_of p s (AddOrIncrement (VInt p) (VInt q))
                eq_refl) as H.
  cbn [serve] in H. rewrite Z.eqb_refl in H. rewrite H.
  destruct (has_line p s) eqn:Hline.
  - now apply added_quantity_exact.
  - rewrite (has_line_quantity p s Hline), (bound_quantity_int32 q Hq). lia.
Qed.

(** The quantity selector of the product page never goes below 1.  Whatever
    buttons are pressed and whatever is typed, before or after the product
    has loaded, the quantity the page holds is at least 1 and the page is
    still that of the same product.  When that quantity is in the 32-bit
    range, [Add to Cart], on any state of the cart, is answered 200 and
    leaves a line for the product; and it raises the quantity the cart
    holds for the product by that amount, as long as that quantity is an
    [INTEGER] and the sum fits 64 bits. *)
Theorem product_page_adds_at_least_one (s0 s : store) (id : Z)
  (before after : list control) :
  let pg := use_controls (loaded s0 (use_controls (mount id) before)) after in
  1 <= pp_quantity pg
  /\ pp_id pg = id
  /\ (int32 (pp_quantity pg) = true ->
      status (snd (addToCart s pg)) = 200
      /\ has_line id (fst (addToCart s pg)) = true
      /\ (sum_fits (quantity_of id s) (pp_quantity pg) ->
          quantity_of id (fst (addToCart s pg)) =
          quantity_of id s + pp_quantity pg
          /\ quantity_of id s < quantity_of id (fst (addToCart s pg)))).
Proof.
  cbv zeta.
  set (pg0 := use_controls (mount id) before).
  assert (H0 : 1 <= pp_quantity pg0 /\ pp_id pg0 = id).
  { destruct (use_controls_floor before (mount id)) as [H1 [H2 _]];
      [cbn; lia|]. split; [exact H1 | exact H2]. }
  destruct H0 as [Hq0 Hid0].
  destruct (use_controls_floor after (loaded s0 pg0)) as [Hq [Hid _]];
    [exact Hq0|].
  cbn [loaded pp_id] in Hid. rewrite Hid0 in Hid.
  set (pg := use_controls (loaded s0 pg0) after) in *.
  split; [exact Hq|]. split; [exact Hid|].
  intros Hsmall. unfold addToCart. rewrite Hid.
  split; [apply post_cart_int_status|].
  split; [apply post_cart_makes_line|].
  intros Hfits.
  rewrite (post_cart_quantity_exact s id (pp_quantity pg) Hsmall Hfits).
  split; lia.
Qed.

(** The page of product 5 on the seeded database: [+] twice and [-] once,
    some of it before the product has loaded, then [Add to Cart] on a cart
    that holds 4 of the product. *)
Lemma product_page_adds_at_least_one_witness :
  let s := fst (post_cart fresh_db (VInt 5) (VInt 4)) in
  let pg := use_controls (loaded fresh_db (use_controls (mount 5) [Plus]))
                         [Plus; Plus; Minus] in
  pp_quantity pg = 2
  /\ int32 (pp_quantity pg) = true
  /\ sum_fits (quantity_of 5 s) (pp_quantity pg)
  /\ status (snd (addToCart s pg)) = 200
  /\ quantity_of 5 (fst (addToCart s pg)) = 4 + 2.
Proof.
  intros s pg.
  assert (Hfits : sum_fits (quantity_of 5 s) (pp_quantity pg))
    by (unfold sum_fits; vm_compute; repeat split; discriminate).
  destruct (product_page_adds_at_least_one fresh_db s 5 [Plus]
              [Plus; Plus; Minus]) as [_ [_ Hadd]].
  destruct (Hadd eq_refl) as [Hstatus [_ Hsum]].
  split; [reflexivity|]. split; [reflexivity|]. split; [exact Hfits|].
  split; [exact Hstatus|]. exact (proj1 (Hsum Hfits)).
Defined.

Lemma orphan_rows (s : store) (c : cart_row) :
  in_catalog s (c_product_id c) = false ->
  map (join_row c)
      (filter (fun p => c_product_id c =? p_id p) (products s)) = [].
Proof.
  intros H. unfold in_catalog in H. now rewrite (filter_none _ _ H).
Qed.

(** A line for a product that is not in the catalog cannot be seen.  The
    product page of an id that [GET /products/:id] answers with 404 still
    shows its controls, the body of the 404 being an object; adding from it
    is answered 200 and the cart then has a line for the id; yet
    [GET /cart] returns what it returned before, and the cart page renders
    what it rendered. *)
Theorem orphan_add_is_invisible (s : store) (id q : Z) :
  ~ In id (map p_id (products s)) ->
  pp_product (loaded s (mount id)) = Some (PError "Product not found")
  /\ shows_controls (loaded s (mount id)) = true
  /\ status (snd (post_cart s (VInt id) (VInt q))) = 200
  /\ has_line id (fst (post_cart s (VInt id) (VInt q))) = true
  /\ get_cart (fst (post_cart s (VInt id) (VInt q))) = get_cart s
  /\ render (select_cart_join (fst (post_cart s (VInt id) (VInt q)))) =
     render (select_cart_join s).
Proof.
  intros Hno.
  assert (Horphan : in_catalog s id = false).
  { destruct (in_catalog s id) eqn:E; [|reflexivity].
    unfold in_catalog in E. apply existsb_exists in E.
    destruct E as [p [Hp Hid]]. exfalso. apply Hno.
    apply in_map_iff. exists p. split; [lia | exact Hp]. }
  assert (Hview : select_cart_join (fst (post_cart s (VInt id) (VInt q))) =
                  select_cart_join s).
  { destruct (select_cart_by_product s (VInt id)) as [row|] eqn:Hsel.
    - rewrite (post_cart_found s id q row Hsel).
      unfold select_cart_join. cbn [fst cart products].
      induction (cart s) as [|c l IH]; [reflexivity|].
      cbn [map flat_map]. rewrite IH. f_equal.
      unfold incremented. destruct (c_product_id c =? id) eqn:E;
        [|reflexivity].
      apply Z.eqb_eq in E. cbn [c_product_id].
      rewrite (filter_none (fun p => c_product_id c =? p_id p))
        by (rewrite E; exact Horphan).
      reflexivity.
    - rewrite (post_cart_absent s id q Hsel).
      unfold select_cart_join. cbn [fst cart products].
      rewrite flat_map_app. cbn [flat_map c_product_id].
      rewrite (filter_none (fun p => id =? p_id p)) by exact Horphan.
      cbn. now rewrite !app_nil_r. }
  split; [|split; [reflexivity|split; [|split; [|split]]]].
  - cbn. unfold get_product.
    destruct (select_product_by_id s id) as [row|] eqn:Hsel;
      [|reflexivity].
    rewrite select_product_in_catalog, Hsel in Horphan. discriminate.
  - destruct (select_cart_by_product s (VInt id)) as [row|] eqn:Hsel.
    + now rewrite (post_cart_found s id q row Hsel).
    + now rewrite (post_cart_absent s id q Hsel).
  - apply post_cart_makes_line.
  - unfold get_cart. now rewrite Hview.
  - now rewrite Hview.
Qed.

(** Product 21 on the seeded database, whose cart holds one Laptop Pro. *)
Lemma orphan_add_is_invisible_witness :
  let s := fst (post_cart fresh_db (VInt 1) (VInt 1)) in
  ~ In 21 (map p_id (products s))
  /\ cart (fst (post_cart s (VInt 21) (VInt 3))) =
     [mkCartRow 1 1 1; mkCartRow 2 21 3]
  /\ get_cart (fst (post_cart s (VInt 21) (VInt 3))) = get_cart s.
Proof.
  intros s.
  assert (Hno : ~ In 21 (map p_id (products s)))
    by (vm_compute; intuition discriminate).
  split; [exact Hno|]. split; [reflexivity|].
  exact (proj1 (proj2 (proj2 (proj2 (proj2
           (orphan_add_is_invisible s 21 3 Hno)))))).
Defined.

(* ================================================================== *)
(** * What the cart page renders                                       *)
(* ================================================================== *)

(** When the cart page says the cart is empty.  It says so from the start
    and until a fetch resolves, and keeps the list it holds when a fetch is
    rejected; once the server has answered, the list is the one
    [GET /cart] returned, whatever it was, and the page says the cart is
    empty exactly when no line of the cart has its product in the catalog:
    an empty cart, or a cart of lines without product. *)
Theorem empty_message_iff_no_product (s : store)
  (cartItems : list joined_row) :
  render mounted = EmptyCart
  /\ fetchCart cartItems Rejected = Some cartItems
  /\ fetchCart cartItems (answered s) = Some (select_cart_join s)
  /\ (render (select_cart_join s) = EmptyCart
      <-> forall c, In c (cart s) -> in_catalog s (c_product_id c) = false).
Proof.
  split; [reflexivity|]. split; [reflexivity|]. split; [reflexivity|].
  unfold render.
  destruct (select_cart_join s) as [|row rows] eqn:Hrows; cbn; split.
  - intros _ c Hc.
    destruct (in_catalog s (c_product_id c)) eqn:E; [|reflexivity].
    unfold in_catalog in E. apply existsb_exists in E.
    destruct E as [p [Hp Heq]].
    assert (Hin : In (join_row c p) (select_cart_join s))
      by (apply in_select_cart_join; [exact Hc | exact Hp | lia]).
    rewrite Hrows in Hin. destruct Hin.
  - reflexivity.
  - discriminate.
  - intros Hall. exfalso.
    assert (Hin : In row (select_cart_join s))
      by (rewrite Hrows; now left).
    unfold select_cart_join in Hin. apply in_flat_map in Hin.
    destruct Hin as [c [Hc Hin]].
    rewrite (orphan_rows s c (Hall c Hc)) in Hin. destruct Hin.
Qed.

Lemma line_of_id (s : store) (r c : cart_row) :
  NoDup (map c_id (cart s)) -> In r (cart s) -> In c (cart s) ->
  c_id r = c_id c -> r = c.
Proof.
  induction (cart s) as [|x l IH]; simpl; [intros _ []|].
  intros Hnd Hr Hc Hid. inversion Hnd as [|? ? Hx Hl]; subst.
  destruct Hr as [->|Hr], Hc as [->|Hc]; auto.
  - exfalso. apply Hx. rewrite Hid. now apply in_map.
  - exfalso. apply Hx. rewrite <- Hid. now apply in_map.
Qed.

Lemma update_aligned (s : store) (c : cart_row) (q : Z) :
  In c (cart s) -> aligned c -> NoDup (map c_id (cart s)) ->
  In (mkCartRow (c_id c) (c_product_id c) (bound_quantity q))
     (cart (updateQuantity s (c_product_id c) q))
  /\ (forall r, In r (cart s) -> r <> c ->
                In r (cart (updateQuantity s (c_product_id c) q)))
  /\ List.length (cart (updateQuantity s (c_product_id c) q)) =
     List.length (cart s).
Proof.
  intros Hc Hal Hnd. unfold aligned in Hal. unfold updateQuantity.
  rewrite put_cart_int.
  cbn [fst cart]. split; [|split; [|apply length_map]].
  - apply in_map_iff. exists c. split; [|exact Hc]. unfold overwritten.
    replace (c_id c =? c_product_id c) with true by lia. reflexivity.
  - intros r Hr Hne. apply in_map_iff. exists r. split; [|exact Hr].
    unfold overwritten.
    destruct (c_id r =? c_product_id c) eqn:E; [|reflexivity].
    exfalso. apply Hne. apply (line_of_id s r c Hnd Hr Hc). lia.
Qed.

(** When a line's id is its product's id, the buttons of its item work.
    Line ids being unique and the cart having one line per product:
    [Remove] deletes that line and no other, and the list fetched next has
    no item of the product; [+] and [-] leave the other lines; and, the
    quantity of the line being of magnitude below 2^53 - 1, they put
    [quantity + 1] and [max(1, quantity - 1)] on that line, and the list
    fetched next has the item with the new quantity. *)
Theorem page_controls_on_aligned_line (s : store)
  (cartItems : list joined_row) (c : cart_row) (p : product) :
  In c (cart s) -> In p (products s) -> c_product_id c = p_id p ->
  aligned c -> NoDup (map c_id (cart s)) -> one_line_per_product s ->
  (~ In c (cart (click_remove s (join_row c p)))
   /\ (forall r, In r (cart s) -> r <> c ->
                 In r (cart (click_remove s (join_row c p))))
   /\ (exists rows,
          snd (after_click click_remove s cartItems (join_row c p)) =
          Some rows
          /\ forall row, In row rows -> j_id row <> c_product_id c))
  /\ (forall r, In r (cart s) -> r <> c ->
                In r (cart (click_plus s (join_row c p)))
                /\ In r (cart (click_minus s (join_row c p))))
  /\ (Z.abs (c_quantity c) < 2 ^ 53 - 1 ->
      (exists rows,
          snd (after_click click_plus s cartItems (join_row c p)) = Some rows
          /\ In (join_row (mkCartRow (c_id c) (c_product_id c)
                                     (c_quantity c + 1)) p) rows)
      /\ (exists rows,
             snd (after_click click_minus s cartItems (join_row c p)) =
             Some rows
             /\ In (join_row (mkCartRow (c_id c) (c_product_id c)
                                        (Z.max 1 (c_quantity c - 1))) p)
                   rows)).
Proof.
  intros Hc Hp Heq Hal Hnd Hone.
  assert (Hupd : forall q,
             In (join_row (mkCartRow (c_id c) (c_product_id c)
                                     (bound_quantity q)) p)
                (select_cart_join (updateQuantity s (c_product_id c) q))).
  { intros q. destruct (update_aligned s c q Hc Hal Hnd) as [Hin _].
    apply in_select_cart_join; [exact Hin | | exact Heq].
    unfold updateQuantity. rewrite put_cart_int. exact Hp. }
  assert (Hplus : Z.abs (c_quantity c) < 2 ^ 53 - 1 ->
                  click_plus s (join_row c p) =
                  updateQuantity s (c_product_id c) (c_quantity c + 1)).
  { intros Hq. unfold click_plus.
    destruct (buttons_exact c p) as [_ [_ ->]]; [lia|].
    cbn [join_row j_id]. now rewrite <- Heq. }
  assert (Hminus : Z.abs (c_quantity c) < 2 ^ 53 - 1 ->
                   click_minus s (join_row c p) =
                   updateQuantity s (c_product_id c)
                                  (Z.max 1 (c_quantity c - 1))).
  { intros Hq. unfold click_minus.
    destruct (buttons_exact c p) as [_ [-> _]]; [lia|].
    cbn [join_row j_id]. now rewrite <- Heq. }
  split; [split; [|split]|split].
  - unfold click_remove, removeItem. cbn [join_row j_id delete_cart_line fst].
    rewrite <- Heq.
    intros Hin. apply delete_cart_gone in Hin. unfold aligned in Hal. lia.
  - unfold click_remove, removeItem. cbn [join_row j_id delete_cart_line fst].
    rewrite <- Heq.
    intros r Hr Hne. cbn. apply filter_In. split; [exact Hr|].
    apply negb_true_iff. apply Z.eqb_neq. intros Hid. apply Hne.
    apply (line_of_id s r c Hnd Hr Hc). unfold aligned in Hal. lia.
  - unfold after_click, fetchCart, answered, get_cart, click_remove,
      removeItem.
    cbn [join_row j_id snd body delete_cart_line fst]. rewrite <- Heq.
    eexists. split; [reflexivity|]. intros row Hrow Hid.
    unfold select_cart_join in Hrow. apply in_flat_map in Hrow.
    destruct Hrow as [c' [Hc' Hrow]]. apply in_map_iff in Hrow.
    destruct Hrow as [p' [<- Hp']]. apply filter_In in Hp'.
    destruct Hp' as [_ Hp']. cbn in Hid.
    pose proof (delete_cart_gone s (c_product_id c) c' Hc') as Hgone.
    cbn in Hc'. apply filter_In in Hc'. destruct Hc' as [Hc' _].
    assert (c' = c).
    { pose proof (select_unique_line s c' Hone Hc') as H1.
      pose proof (select_unique_line s c Hone Hc) as H2.
      replace (c_product_id c') with (c_product_id c) in H1 by lia.
      congruence. }
    subst c'. unfold aligned in Hal. lia.
  - intros r Hr Hne. unfold click_plus, click_minus.
    cbn [join_row j_id]. rewrite <- Heq. split.
    + now apply (update_aligned s c _ Hc Hal Hnd).
    + now apply (update_aligned s c _ Hc Hal Hnd).
  - intros Hq. unfold after_click, fetchCart, answered, get_cart.
    cbn [snd body]. rewrite (Hplus Hq), (Hminus Hq). split.
    + eexists. split; [reflexivity|].
      rewrite <- (bound_quantity_exact (c_quantity c + 1)) at 1 by lia.
      apply Hupd.
    + eexists. split; [reflexivity|].
      rewrite <- (bound_quantity_exact (Z.max 1 (c_quantity c - 1))) at 1
        by lia.
      apply Hupd.
Qed.

(** Products 1 and 2 added in this order to the seeded database: lines 1
    and 2.  [Remove] on the first item leaves the second line. *)
Lemma page_controls_on_aligned_line_witness :
  let s := serve_all fresh_db [AddOrIncrement (VInt 1) (VInt 2);
                               AddOrIncrement (VInt 2) (VInt 5)] in
  let laptop := mkProduct 1 "Laptop Pro" "💻" 1299.99%float
                          "High-performance laptop" "Electronics" in
  aligned (mkCartRow 1 1 2)
  /\ Z.abs 2 < 2 ^ 53 - 1
  /\ cart (click_remove s (join_row (mkCartRow 1 1 2) laptop)) =
     [mkCartRow 2 2 5]
  /\ ~ In (mkCartRow 1 1 2)
          (cart (click_remove s (join_row (mkCartRow 1 1 2) laptop)))
  /\ exists rows,
       snd (after_click click_plus s (select_cart_join s)
                        (join_row (mkCartRow 1 1 2) laptop)) =
       Some rows
       /\ In (join_row (mkCartRow 1 1 3) laptop) rows.
Proof.
  intros s laptop.
  assert (Hc : In (mkCartRow 1 1 2) (cart s)) by now left.
  assert (Hp : In laptop (products s)) by now left.
  assert (Hnd : NoDup (map c_id (cart s))).
  { repeat constructor; simpl; intuition discriminate. }
  assert (Hone : one_line_per_product s).
  { repeat constructor; simpl; intuition discriminate. }
  assert (Hq : Z.abs 2 < 2 ^ 53 - 1) by (cbn; lia).
  destruct (page_controls_on_aligned_line s (select_cart_join s)
              (mkCartRow 1 1 2) laptop Hc Hp eq_refl eq_refl Hnd Hone)
    as [[Hgone _] [_ Hset]].
  destruct (Hset Hq) as [Hplus _].
  split; [reflexivity|]. split; [exact Hq|]. split; [reflexivity|].
  split; [exact Hgone | exact Hplus].
Defined.

(* ================================================================== *)
(** * Row ids, whatever the schedule                                   *)
(* ================================================================== *)

Lemma rowid_order_same_ids (s : store) (rows : list cart_row) :
  rowid_order s -> map c_id rows = map c_id (cart s) ->
  rowid_order (mkStore (products s) rows (cart_seq s)).
Proof.
  unfold rowid_order. cbn [cart cart_seq]. intros [Hsorted Hbelow] Hids.
  rewrite Hids. split; [exact Hsorted|].
  rewrite Forall_forall in *. intros r Hr.
  assert (Hin : In (c_id r) (map c_id (cart s)))
    by (rewrite <- Hids; now apply in_map).
  apply in_map_iff in Hin. destruct Hin as [x [Hx Hin]].
  rewrite <- Hx. now apply Hbelow.
Qed.

Lemma post_cart_write_rowid_order (s : store) (product_id quantity : value)
  (row : option cart_row) :
  rowid_order s ->
  rowid_order (fst (post_cart_write s product_id quantity row))
  /\ cart_seq s <= cart_seq (fst (post_cart_write s product_id quantity row)).
Proof.
  intros Hs. unfold post_cart_write. destruct row as [r|].
  - unfold update_cart_add. destruct quantity as [|q].
    + destruct (existsb _ _); cbn [fst]; split; auto; lia.
    + cbn [fst cart_seq]. split; [|lia].
      apply rowid_order_same_ids; [exact Hs|].
      rewrite map_map. apply map_ext. intros x.
      now destruct (sql_eq (c_product_id x) product_id).
  - unfold insert_cart. destruct product_id as [|p], quantity as [|q];
      cbn [fst]; try (split; [exact Hs | lia]).
    destruct (next_rowid_fresh s) as [Hseq Hids].
    destruct Hs as [Hsorted Hbelow]. unfold rowid_order.
    cbn [cart cart_seq]. split; [split|lia].
    + rewrite map_app. apply sorted_snoc; [exact Hsorted|].
      intros x Hx. apply in_map_iff in Hx.
      destruct Hx as [r [<- Hr]]. now apply Hids.
    + apply Forall_app. split.
      * rewrite Forall_forall in *. intros r Hr.
        specialize (Hids r Hr). lia.
      * constructor; [cbn; lia | constructor].
Qed.

Lemma step_rowid_order (s : store) (ph : phase) :
  rowid_order s ->
  rowid_order (fst (step s ph)) /\ cart_seq s <= cart_seq (fst (step s ph)).
Proof.
  intros Hs.
  destruct ph as [[product_id quantity | line_id quantity | line_id]
                 | product_id quantity row | r]; cbn [step fst];
    try (split; [exact Hs | lia]).
  - cbn [serve]. unfold put_cart, update_cart_set.
    destruct quantity as [|q].
    + destruct (existsb _ _); cbn [fst]; split; auto; lia.
    + cbn [fst cart_seq]. split; [|lia].
      apply rowid_order_same_ids; [exact Hs|].
      rewrite map_map. apply map_ext. intros x.
      now destruct (c_id x =? line_id).
  - cbn [serve delete_cart_line fst delete_cart cart_seq]. split; [|lia].
    destruct Hs as [Hsorted Hbelow]. unfold rowid_order.
    cbn [cart cart_seq]. split.
    + now apply sorted_map_filter.
    + rewrite Forall_forall in *. intros r Hr.
      apply filter_In in Hr. apply Hbelow. tauto.
  - pose proof (post_cart_write_rowid_order s product_id quantity row Hs).
    now destruct (post_cart_write s product_id quantity row).
Qed.

Lemma run_rowid_order (schedule : list nat) (sys : store * list phase) :
  rowid_order (fst sys) ->
  rowid_order (fst (run sys schedule))
  /\ cart_seq (fst sys) <= cart_seq (fst (run sys schedule)).
Proof.
  revert sys. induction schedule as [|i schedule IH]; intros sys Hs.
  - split; [exact Hs | cbn; lia].
  - change (run sys (i :: schedule)) with (run (advance sys i) schedule).
    assert (Hadv : rowid_order (fst (advance sys i))
                   /\ cart_seq (fst sys) <= cart_seq (fst (advance sys i))).
    { unfold advance.
      destruct (nth_error (snd sys) i) as [ph|]; [|split; [exact Hs | lia]].
      pose proof (step_rowid_order (fst sys) ph Hs).
      now destruct (step (fst sys) ph). }
    destruct Hadv as [Hadv Hle]. destruct (IH _ Hadv) as [Hrun Hle'].
    split; [exact Hrun | lia].
Qed.

Lemma sorted_NoDup (l : list Z) : StronglySorted Z.lt l -> NoDup l.
Proof.
  induction 1 as [|x l Hl IH Hx]; constructor; [|exact IH].
  intros Hin. rewrite Forall_forall in Hx. specialize (Hx x Hin). lia.
Qed.

(** Overlapping requests may give a product two lines, never two lines one
    id.  From a cart table in rowid order, whatever the requests in flight,
    whatever they have read and however their statements alternate, the
    table stays in rowid order below the sequence, no two lines share an id,
    and the sequence never goes down. *)
Theorem rowids_unique_under_interleaving (s : store) (phs : list phase)
  (schedule : list nat) :
  rowid_order s ->
  rowid_order (fst (run (s, phs) schedule))
  /\ NoDup (map c_id (cart (fst (run (s, phs) schedule))))
  /\ cart_seq s <= cart_seq (fst (run (s, phs) schedule)).
Proof.
  intros Hs. destruct (run_rowid_order schedule (s, phs) Hs) as [Hrun Hle].
  split; [exact Hrun|]. split; [|exact Hle].
  apply sorted_NoDup. apply Hrun.
Qed.

(** The race of two additions of product 1, then a removal of line 1 that
    overlaps a third addition. *)
Lemma rowids_unique_under_interleaving_witness :
  let add := AddOrIncrement (VInt 1) (VInt 1) in
  let sys := run (fresh_db, [Arrived add; Arrived add; Arrived (Remove 1);
                             Arrived add])
                 [0; 1; 0; 1; 3; 2; 3]%nat in
  rowid_order fresh_db
  /\ cart (fst sys) = [mkCartRow 2 1 2]
  /\ NoDup (map c_id (cart (fst sys))).
Proof.
  intros add sys.
  assert (Hs : rowid_order fresh_db) by (split; constructor).
  split; [exact Hs|]. split; [reflexivity|].
  exact (proj1 (proj2 (rowids_unique_under_interleaving fresh_db _ _ Hs))).
Defined.

(* ================================================================== *)
(** * Units, whatever the schedule                                     *)
(* ================================================================== *)

Lemma units_of_insert (p q id : Z) (s : store) (seq' : Z) :
  units_of p (mkStore (products s) (cart s ++ [mkCartRow id p q]) seq') =
  units_of p s + q.
Proof.
  unfold units_of, lines_of. cbn [cart]. rewrite filter_app.
  cbn [filter c_product_id]. rewrite Z.eqb_refl.
  induction (filter _ (cart s)) as [|x l IH]; cbn; [lia|].
  cbn in IH. rewrite IH. lia.
Qed.

Lemma units_of_update (p q : Z) (s : store) :
  (forall r, In r (cart s) -> c_product_id r = p ->
             added_quantity (c_quantity r) q = c_quantity r + q) ->
  units_of p (mkStore (products s) (map (incremented p q) (cart s))
                      (cart_seq s)) =
  units_of p s + q * Z.of_nat (List.length (lines_of p s)).
Proof.
  unfold units_of, lines_of. cbn [cart].
  induction (cart s) as [|x l IH]; intros Hexact; [cbn; lia|].
  cbn [map filter]. rewrite incremented_product.
  assert (Hrest : forall r, In r l -> c_product_id r = p ->
                            added_quantity (c_quantity r) q =
                            c_quantity r + q)
    by (intros r Hr; apply Hexact; now right).
  destruct (c_product_id x =? p) eqn:E; [|exact (IH Hrest)].
  cbn [fold_right List.length]. rewrite (IH Hrest).
  unfold incremented. rewrite E. cbn [c_quantity].
  rewrite (Hexact x (or_introl eq_refl)) by lia. lia.
Qed.

Lemma has_line_count (p : Z) (s : store) :
  has_line p s = true -> (1 <= List.length (lines_of p s))%nat.
Proof.
  unfold has_line, lines_of.
  induction (cart s) as [|x l IH]; cbn; [discriminate|].
  destruct (c_product_id x =? p); cbn; [lia | exact IH].
Qed.

Lemma growing_later (p : Z) (s s' : store) (ph : phase) :
  (has_line p s = true -> has_line p s' = true) ->
  growing p s ph -> growing p s' ph.
Proof.
  intros Hmono.
  destruct ph as [[[|p'] [|q] | |] | [|p'] [|q] row | r]; cbn; auto.
  intros [Hp [Hq Hrow]]. auto.
Qed.

Lemma select_has_line (p : Z) (s : store) :
  select_cart_by_product s (VInt p) <> None -> has_line p s = true.
Proof.
  unfold has_line, select_cart_by_product. cbn [sql_eq].
  rewrite existsb_find. now destruct (find _ (cart s)).
Qed.

Lemma growing_pending (p : Z) (s : store) (ph : phase) :
  growing p s ph -> 0 <= pending ph < 2 ^ 31.
Proof.
  destruct ph as [[[|p'] [|q] | |] | [|p'] [|q] row | r]; cbn;
    try contradiction; try lia; tauto.
Qed.

Lemma growing_pending_sum (p : Z) (s : store) (phs : list phase) :
  Forall (growing p s) phs -> 0 <= pending_sum phs.
Proof.
  induction 1 as [|ph phs Hph _ IH]; [cbn; lia|].
  change (pending_sum (ph :: phs)) with (pending ph + pending_sum phs).
  pose proof (growing_pending p s ph Hph). lia.
Qed.

(** What stays true while increments, none negative, of product [p] are in
    flight: every request is one of them, the lines of the product have
    room for what is still to be written, and nothing asked is lost. *)
Lemma advance_growing (p k : Z) (sys : store * list phase) (i : nat) :
  Forall (growing p (fst sys)) (snd sys) ->
  lines_have_room p (fst sys) (pending_sum (snd sys)) ->
  pending_sum (snd sys) < 2 ^ 63 ->
  k <= units_of p (fst sys) + pending_sum (snd sys) ->
  Forall (growing p (fst (advance sys i))) (snd (advance sys i))
  /\ lines_have_room p (fst (advance sys i))
                     (pending_sum (snd (advance sys i)))
  /\ pending_sum (snd (advance sys i)) < 2 ^ 63
  /\ k <= units_of p (fst (advance sys i)) + pending_sum (snd (advance sys i)).
Proof.
  destruct sys as [s phs]. unfold advance. cbn [fst snd].
  intros Hall Hroom Hpend Hk.
  destruct (nth_error phs i) as [ph|] eqn:Hnth; [|cbn; auto].
  assert (Hph : growing p s ph).
  { rewrite Forall_forall in Hall. apply Hall.
    now apply nth_error_In with i. }
  pose proof (growing_pending p s ph Hph) as Hq.
  destruct ph as [[[|p'] [|q] | |] | [|p'] [|q] row | r];
    cbn in Hph; try contradiction.
  - (* the SELECT *)
    destruct Hph as [-> Hq']. cbn [step fst snd].
    rewrite (set_nth_pending phs i _ _ Hnth). cbn [pending].
    replace (pending_sum phs - q + q) with (pending_sum phs) by lia.
    split; [|auto].
    apply set_nth_Forall; [exact Hall|]. cbn.
    repeat split; auto; try lia. apply select_has_line.
  - (* the callback *)
    destruct Hph as [-> [Hq' Hrow]]. cbn [pending] in Hq. cbn [step].
    assert (Hint : int32 q = true) by (apply int32_bounds; lia).
    destruct row as [stale|].
    + (* a line was read: the UPDATE, on every line of the product *)
      assert (Hline : has_line p s = true) by (apply Hrow; discriminate).
      cbn [post_cart_write update_cart_add sql_eq].
      fold (incremented p q). cbn [fst snd].
      assert (Hlater : Forall (growing p (mkStore (products s)
                                           (map (incremented p q) (cart s))
                                           (cart_seq s)))
                              (set_nth phs i
                                 (Responded
                                    (mkResponse 200
                                       (JIdMessage (c_id stale)
                                                   "Cart updated"))))).
      { apply set_nth_Forall; [|exact I].
        rewrite Forall_forall in *. intros ph Hin.
        apply (growing_later p s); [|now apply Hall].
        intros _. apply has_line_in. apply has_line_in in Hline.
        destruct Hline as [r [Hr Hp]]. exists (incremented p q r).
        split; [now apply in_map | now rewrite incremented_product]. }
      pose proof (growing_pending_sum p _ _ Hlater) as Hrest.
      rewrite (set_nth_pending phs i _ _ Hnth) in *. cbn [pending] in *.
      assert (Hexact : forall r, In r (cart s) -> c_product_id r = p ->
                                 added_quantity (c_quantity r) q =
                                 c_quantity r + q).
      { intros r Hr Hp. destruct (Hroom r Hr Hp) as [Hlow Hhigh].
        apply added_quantity_exact; [exact Hint|]. unfold sum_fits. lia. }
      split; [exact Hlater|]. split; [|split; [lia|]].
      * intros r' Hr' Hp'. cbn [cart] in Hr'. apply in_map_iff in Hr'.
        destruct Hr' as [r [<- Hr]]. rewrite incremented_product in Hp'.
        destruct (Hroom r Hr Hp') as [Hlow Hhigh].
        unfold incremented. replace (c_product_id r =? p) with true by lia.
        cbn [c_quantity]. rewrite (Hexact r Hr Hp'). lia.
      * rewrite (units_of_update p q s Hexact).
        pose proof (has_line_count p s Hline). nia.
    + (* no line was read: the INSERT *)
      cbn [post_cart_write insert_cart fst snd].
      rewrite (bound_quantity_int32 q Hint).
      assert (Hlater : Forall (growing p (mkStore (products s)
                                           (cart s
                                            ++ [mkCartRow (next_rowid s) p q])
                                           (next_rowid s)))
                              (set_nth phs i
                                 (Responded
                                    (mkResponse 200
                                       (JIdMessage (next_rowid s)
                                                   "Added to cart"))))).
      { apply set_nth_Forall; [|exact I].
        rewrite Forall_forall in *. intros ph Hin.
        apply (growing_later p s); [|now apply Hall].
        intros _. apply has_line_in.
        exists (mkCartRow (next_rowid s) p q).
        split; [apply in_or_app; right; now left | reflexivity]. }
      pose proof (growing_pending_sum p _ _ Hlater) as Hrest.
      rewrite (set_nth_pending phs i _ _ Hnth) in *. cbn [pending] in *.
      split; [exact Hlater|]. split; [|split; [lia|]].
      * intros r' Hr' Hp'. cbn [cart] in Hr'. apply in_app_or in Hr'.
        destruct Hr' as [Hr'|[<-|[]]].
        -- destruct (Hroom r' Hr' Hp') as [Hlow Hhigh]. lia.
        -- cbn [c_quantity]. lia.
      * rewrite units_of_insert. lia.
  - (* answered *)
    cbn [step fst snd].
    rewrite (set_nth_pending phs i _ _ Hnth). cbn [pending].
    replace (pending_sum phs - 0 + 0) with (pending_sum phs) by lia.
    split; [|auto].
    apply set_nth_Forall; [exact Hall | exact I].
Qed.

Lemma run_growing (p k : Z) (schedule : list nat)
  (sys : store * list phase) :
  Forall (growing p (fst sys)) (snd sys) ->
  lines_have_room p (fst sys) (pending_sum (snd sys)) ->
  pending_sum (snd sys) < 2 ^ 63 ->
  k <= units_of p (fst sys) + pending_sum (snd sys) ->
  k <= units_of p (fst (run sys schedule))
       + pending_sum (snd (run sys schedule)).
Proof.
  revert sys.
  induction schedule as [|i schedule IH]; intros sys Hall Hroom Hpend Hk;
    [exact Hk|].
  change (run sys (i :: schedule)) with (run (advance sys i) schedule).
  destruct (advance_growing p k sys i Hall Hroom Hpend Hk)
    as [Hall' [Hroom' [Hpend' Hk']]].
  now apply IH.
Qed.

(** Overlapping additions are never lost; they may count twice.  For
    additions of one product, 32-bit integers none of which is negative, on
    a cart whose lines of the product hold [INTEGER]s with room for their
    sum, and in any order of their statements: once every request has
    answered, the units the cart holds for the product, over all its lines,
    are at least the units it held plus the sum of the additions. *)
Theorem interleaved_units_never_lost (s : store) (p : Z) (qs : list Z)
  (schedule : list nat) :
  Forall (fun q => 0 <= q < 2 ^ 31) qs ->
  fold_right Z.add 0 qs < 2 ^ 63 ->
  lines_have_room p s (fold_right Z.add 0 qs) ->
  forallb responded (snd (run (s, adds_of p qs) schedule)) = true ->
  units_of p s + fold_right Z.add 0 qs <=
  units_of p (fst (run (s, adds_of p qs) schedule)).
Proof.
  intros Hqs Hsum Hroom Hdone.
  pose proof (run_growing p (units_of p s + fold_right Z.add 0 qs)
                schedule (s, adds_of p qs)) as H.
  cbn [fst snd] in H. rewrite (responded_pending _ Hdone) in H.
  rewrite Z.add_0_r in H. rewrite adds_of_pending in H. apply H.
  - unfold adds_of. rewrite Forall_forall in *. intros ph Hph.
    apply in_map_iff in Hph. destruct Hph as [q [<- Hq]].
    cbn. split; [reflexivity | now apply Hqs].
  - exact Hroom.
  - exact Hsum.
  - lia.
Qed.

(** Three additions of one unit of product 1 on the seeded database, the
    first two racing: the cart ends with 4 units where 3 were added. *)
Lemma interleaved_units_never_lost_witness :
  let schedule := [0; 1; 0; 1; 2; 2]%nat in
  Forall (fun q => 0 <= q < 2 ^ 31) [1; 1; 1]
  /\ fold_right Z.add 0 [1; 1; 1] < 2 ^ 63
  /\ lines_have_room 1 fresh_db (fold_right Z.add 0 [1; 1; 1])
  /\ forallb responded
       (snd (run (fresh_db, adds_of 1 [1; 1; 1]) schedule)) = true
  /\ units_of 1 (fst (run (fresh_db, adds_of 1 [1; 1; 1]) schedule)) = 4
  /\ units_of 1 fresh_db + (1 + (1 + (1 + 0))) <=
     units_of 1 (fst (run (fresh_db, adds_of 1 [1; 1; 1]) schedule)).
Proof.
  intros schedule.
  assert (Hqs : Forall (fun q => 0 <= q < 2 ^ 31) [1; 1; 1])
    by (repeat constructor; lia).
  assert (Hsum : fold_right Z.add 0 [1; 1; 1] < 2 ^ 63) by (cbn; lia).
  assert (Hroom : lines_have_room 1 fresh_db (fold_right Z.add 0 [1; 1; 1]))
    by (intros r []).
  split; [exact Hqs|]. split; [exact Hsum|]. split; [exact Hroom|].
  split; [reflexivity|]. split; [reflexivity|].
  exact (interleaved_units_never_lost fresh_db 1 [1; 1; 1] schedule
           Hqs Hsum Hroom eq_refl).
Defined.

(* ================================================================== *)
(** * How requests compose                                             *)
(* ================================================================== *)

Lemma incremented_twice (p q1 q2 : Z) (x : cart_row) :
  int32 q1 = true -> int32 q2 = true -> int32 (q1 + q2) = true ->
  (c_product_id x = p -> Z.abs (c_quantity x) < 2 ^ 62) ->
  incremented p q2 (incremented p q1 x) = incremented p (q1 + q2) x.
Proof.
  intros H1 H2 H12 Hx. unfold incremented.
  destruct (c_product_id x =? p) eqn:E; cbn [c_product_id c_id c_quantity];
    rewrite E; [|reflexivity].
  apply Z.eqb_eq in E. specialize (Hx E).
  pose proof (proj1 (int32_bounds q1) H1).
  pose proof (proj1 (int32_bounds q2) H2).
  pose proof (proj1 (int32_bounds (q1 + q2)) H12).
  rewrite (added_quantity_exact (c_quantity x) q1 H1)
    by (unfold sum_fits; lia).
  rewrite (added_quantity_exact (c_quantity x + q1) q2 H2)
    by (unfold sum_fits; lia).
  rewrite (added_quantity_exact (c_quantity x) (q1 + q2) H12)
    by (unfold sum_fits; lia).
  f_equal. lia.
Qed.

Lemma incremented_other (p q : Z) (rows : list cart_row) :
  (forall r, In r rows -> c_product_id r <> p) ->
  map (incremented p q) rows = rows.
Proof.
  intros Hno. rewrite <- (map_id rows) at 2. apply map_ext_in.
  intros r Hr. unfold incremented.
  replace (c_product_id r =? p) with false; [reflexivity|].
  specialize (Hno r Hr). lia.
Qed.

(** Two additions of a product are one addition of the sum.  The two
    quantities and their sum being 32-bit integers, and the lines of the
    product, if any, holding quantities of magnitude below 2^62: adding
    [q1] and then [q2] leaves the very store that adding [q1 + q2] at once
    leaves; so the order of the two additions does not matter. *)
Theorem additions_compose (s : store) (p q1 q2 : Z) :
  int32 q1 = true -> int32 q2 = true -> int32 (q1 + q2) = true ->
  (forall r, In r (cart s) -> c_product_id r = p ->
             Z.abs (c_quantity r) < 2 ^ 62) ->
  fst (post_cart (fst (post_cart s (VInt p) (VInt q1))) (VInt p) (VInt q2)) =
  fst (post_cart s (VInt p) (VInt (q1 + q2)))
  /\ fst (post_cart (fst (post_cart s (VInt p) (VInt q1)))
                    (VInt p) (VInt q2)) =
     fst (post_cart (fst (post_cart s (VInt p) (VInt q2)))
                    (VInt p) (VInt q1)).
Proof.
  intros H1 H2 H12 Hlines.
  assert (H : forall a b,
             int32 a = true -> int32 b = true -> int32 (a + b) = true ->
             fst (post_cart (fst (post_cart s (VInt p) (VInt a)))
                            (VInt p) (VInt b)) =
             fst (post_cart s (VInt p) (VInt (a + b)))).
  { intros a b Ha Hb Hab.
    destruct (select_cart_by_product s (VInt p)) as [row|] eqn:Hsel.
    - rewrite (post_cart_found s p a row Hsel),
        (post_cart_found s p (a + b) row Hsel). cbn [fst].
      erewrite post_cart_found.
      + cbn [fst products cart cart_seq]. rewrite map_map.
        f_equal. apply map_ext_in. intros x Hx.
        apply incremented_twice; auto.
      + unfold select_cart_by_product in *. cbn [cart sql_eq] in *.
        rewrite find_map_stable
          by (intros x; now rewrite incremented_product).
        rewrite Hsel. reflexivity.
    - rewrite (post_cart_absent s p a Hsel),
        (post_cart_absent s p (a + b) Hsel). cbn [fst].
      rewrite (bound_quantity_int32 a Ha), (bound_quantity_int32 _ Hab).
      erewrite post_cart_found.
      + cbn [fst products cart cart_seq]. rewrite map_app.
        rewrite (incremented_other p b (cart s))
          by (apply select_none_no_line; exact Hsel).
        cbn [map]. unfold incremented at 1.
        cbn [c_product_id c_id c_quantity].
        rewrite Z.eqb_refl.
        pose proof (proj1 (int32_bounds a) Ha).
        pose proof (proj1 (int32_bounds b) Hb).
        rewrite (added_quantity_exact a b Hb) by (unfold sum_fits; lia).
        reflexivity.
      + unfold select_cart_by_product in *. cbn [cart sql_eq] in *.
        rewrite find_app_last, Hsel. cbn [c_product_id].
        rewrite Z.eqb_refl. reflexivity. }
  split; [now apply H|].
  rewrite (H q1 q2 H1 H2 H12).
  rewrite (H q2 q1 H2 H1) by (now rewrite Z.add_comm).
  now rewrite Z.add_comm.
Qed.

(** A cart holding 5 of product 3 receives 2 and then 4. *)
Lemma additions_compose_witness :
  let s := fst (post_cart fresh_db (VInt 3) (VInt 5)) in
  int32 2 = true /\ int32 4 = true /\ int32 (2 + 4) = true
  /\ cart (fst (post_cart (fst (post_cart s (VInt 3) (VInt 2)))
                          (VInt 3) (VInt 4))) = [mkCartRow 1 3 11]
  /\ fst (post_cart (fst (post_cart s (VInt 3) (VInt 2))) (VInt 3) (VInt 4)) =
     fst (post_cart s (VInt 3) (VInt (2 + 4))).
Proof.
  intros s.
  assert (Hlines : forall r, In r (cart s) -> c_product_id r = 3 ->
                             Z.abs (c_quantity r) < 2 ^ 62).
  { intros r [<-|[]] _. vm_compute. reflexivity. }
  split; [reflexivity|]. split; [reflexivity|]. split; [reflexivity|].
  split; [reflexivity|].
  exact (proj1 (additions_compose s 3 2 4 eq_refl eq_refl eq_refl Hlines)).
Defined.

(** An addition undone.  When the cart has no line for the product,
    [POST /cart] answers 200 with the id of the line it made, and
    [DELETE /cart/{id}] with that id puts the cart table back as it was, so
    that [GET /cart] answers as before; only the recorded sequence has
    moved, to that id. *)
Theorem add_then_remove_restores (s : store) (p q : Z) :
  select_cart_by_product s (VInt p) = None ->
  exists id,
    snd (post_cart s (VInt p) (VInt q)) =
      mkResponse 200 (JIdMessage id "Added to cart")
    /\ cart (fst (delete_cart_line (fst (post_cart s (VInt p) (VInt q))) id))
       = cart s
    /\ get_cart (fst (delete_cart_line
                        (fst (post_cart s (VInt p) (VInt q))) id)) =
       get_cart s
    /\ cart_seq (fst (delete_cart_line
                        (fst (post_cart s (VInt p) (VInt q))) id)) = id
    /\ cart_seq s < id.
Proof.
  intros Hsel. exists (next_rowid s).
  rewrite (post_cart_absent s p q Hsel).
  destruct (next_rowid_fresh s) as [Hseq Hids].
  assert (Hcart : filter (fun r => negb (c_id r =? next_rowid s))
                         (cart s ++ [mkCartRow (next_rowid s) p
                                               (bound_quantity q)]) =
                  cart s).
  { rewrite filter_app. cbn [filter c_id]. rewrite Z.eqb_refl. cbn [negb].
    rewrite app_nil_r.
    assert (Hall : forall r, In r (cart s) -> c_id r <> next_rowid s)
      by (intros r Hr; specialize (Hids r Hr); lia).
    revert Hall. clear. induction (cart s) as [|x l IH]; intros Hall;
      [reflexivity|].
    cbn [filter]. replace (c_id x =? next_rowid s) with false.
    - cbn [negb]. f_equal. apply IH. intros r Hr. apply Hall. now right.
    - specialize (Hall x (or_introl eq_refl)). lia. }
  unfold delete_cart_line, delete_cart, get_cart, select_cart_join.
  cbn [fst snd cart products cart_seq].
  rewrite Hcart. repeat split. exact Hseq.
Qed.

(** The seeded database: a Tablet Plus is added and the line removed. *)
Lemma add_then_remove_restores_witness :
  select_cart_by_product fresh_db (VInt 7) = None
  /\ exists id,
       snd (post_cart fresh_db (VInt 7) (VInt 2)) =
         mkResponse 200 (JIdMessage id "Added to cart")
       /\ cart (fst (delete_cart_line
                       (fst (post_cart fresh_db (VInt 7) (VInt 2))) id)) =
          cart fresh_db.
Proof.
  split; [reflexivity|].
  destruct (add_then_remove_restores fresh_db 7 2 eq_refl)
    as [id [Hresp [Hcart _]]].
  exists id. split; [exact Hresp | exact Hcart].
Defined.

Lemma overwritten_last (id q1 q2 : Z) (x : cart_row) :
  overwritten id q2 (overwritten id q1 x) = overwritten id q2 x.
Proof.
  unfold overwritten. destruct (c_id x =? id) eqn:E; cbn; now rewrite E.
Qed.

Lemma overwritten_swap (id1 id2 q1 q2 : Z) (x : cart_row) :
  id1 <> id2 ->
  overwritten id2 q2 (overwritten id1 q1 x) =
  overwritten id1 q1 (overwritten id2 q2 x).
Proof.
  intros Hne. unfold overwritten.
  destruct (c_id x =? id1) eqn:E1, (c_id x =? id2) eqn:E2; cbn;
    rewrite ?E1, ?E2; try reflexivity.
  lia.
Qed.

(** How [SetQuantity] and [Remove] compose.  Of two [SetQuantity] on one
    line the last wins; two [SetQuantity] on different lines commute; a
    [SetQuantity] before the [Remove] of its line is as if it had not been
    sent, and one after it changes nothing. *)
Theorem set_quantity_composes (s : store) (id id' q1 q2 : Z) :
  fst (put_cart (fst (put_cart s id (VInt q1))) id (VInt q2)) =
    fst (put_cart s id (VInt q2))
  /\ (id <> id' ->
      fst (put_cart (fst (put_cart s id (VInt q1))) id' (VInt q2)) =
      fst (put_cart (fst (put_cart s id' (VInt q2))) id (VInt q1)))
  /\ fst (delete_cart_line (fst (put_cart s id (VInt q1))) id) =
     fst (delete_cart_line s id)
  /\ fst (put_cart (fst (delete_cart_line s id)) id (VInt q1)) =
     fst (delete_cart_line s id).
Proof.
  assert (Hput : forall s0 i q,
             fst (put_cart s0 i (VInt q)) =
             mkStore (products s0) (map (overwritten i q) (cart s0))
                     (cart_seq s0))
    by (intros; now rewrite put_cart_int).
  rewrite !Hput. cbn [fst delete_cart_line products cart cart_seq].
  split; [|split; [|split]].
  - rewrite map_map. f_equal. apply map_ext. apply overwritten_last.
  - intros Hne. rewrite !map_map. f_equal. apply map_ext. intros x.
    now apply overwritten_swap.
  - unfold delete_cart. cbn [products cart cart_seq]. f_equal.
    induction (cart s) as [|x l IH]; [reflexivity|].
    cbn [map filter]. unfold overwritten at 1.
    destruct (c_id x =? id) eqn:E; cbn [c_id negb];
      rewrite E; cbn [negb];
      [exact IH | rewrite IH; unfold overwritten; now rewrite E].
  - unfold delete_cart. cbn [products cart cart_seq]. f_equal.
    apply overwritten_absent.
    intros r Hr. apply filter_In in Hr. destruct Hr as [_ Hr].
    apply negb_true_iff in Hr. lia.
Qed.

(** Lines 1 and 2 of a cart are set in both orders. *)
Lemma set_quantity_composes_witness :
  let s := serve_all fresh_db [AddOrIncrement (VInt 3) (VInt 1);
                               AddOrIncrement (VInt 5) (VInt 1)] in
  1 <> 2
  /\ cart (fst (put_cart (fst (put_cart s 1 (VInt 4))) 2 (VInt 6))) =
     [mkCartRow 1 3 4; mkCartRow 2 5 6]
  /\ fst (put_cart (fst (put_cart s 1 (VInt 4))) 2 (VInt 6)) =
     fst (put_cart (fst (put_cart s 2 (VInt 6))) 1 (VInt 4)).
Proof.
  intros s.
  assert (Hne : 1 <> 2) by discriminate.
  split; [exact Hne|]. split; [reflexivity|].
  exact (proj1 (proj2 (set_quantity_composes s 1 2 4 6)) Hne).
Defined.

(* ================================================================== *)
(** * From the home page to the cart                                   *)
(* ================================================================== *)

(** A product of the home page, added, is in the cart view.  Product ids
    being unique: the card of a product [GET /products] lists opens the
    page of its id, which loads that very product; and after [Add to Cart]
    from it, with whatever quantity the selector holds, [GET /cart] returns
    an object with the id, name and price of the product.  Its quantity is
    the number of what the cart held for the product plus the quantity
    added, when the quantity added is in the 32-bit range, what the cart
    held is an [INTEGER] and the sum fits 64 bits. *)
Theorem home_product_reaches_cart (s : store) (p : product)
  (cs : list control) :
  NoDup (map p_id (products s)) -> In p (products s) ->
  let pg := use_controls (loaded s (mount (p_id p))) cs in
  p_body (get_products s) = PRows (products s)
  /\ pp_product pg = Some (PRow p)
  /\ 1 <= pp_quantity pg
  /\ (int32 (pp_quantity pg) = true ->
      exists row,
        In row (select_cart_join (fst (addToCart s pg)))
        /\ j_id row = p_id p /\ j_name row = p_name p
        /\ j_price row = p_price p
        /\ (sum_fits (quantity_of (p_id p) s) (pp_quantity pg) ->
            j_quantity row =
            number_of_Z (quantity_of (p_id p) s + pp_quantity pg))).
Proof.
  intros Hnd Hp. cbv zeta.
  destruct (use_controls_floor cs (loaded s (mount (p_id p))))
    as [Hq [Hid Hprod]]; [cbn; lia|].
  set (pg := use_controls (loaded s (mount (p_id p))) cs) in *.
  cbn [loaded mount pp_id pp_product] in Hid, Hprod.
  split; [reflexivity|]. split.
  { rewrite Hprod. unfold get_product.
    now rewrite (select_product_unique s p Hnd Hp). }
  split; [exact Hq|]. intros Hsmall.
  unfold addToCart. rewrite Hid.
  set (s' := fst (post_cart s (VInt (p_id p)) (VInt (pp_quantity pg)))).
  assert (Hline : has_line (p_id p) s' = true)
    by apply post_cart_makes_line.
  destruct (has_line_select (p_id p) s' Hline) as [r Hr].
  assert (Hquantity : sum_fits (quantity_of (p_id p) s) (pp_quantity pg) ->
                      c_quantity r = quantity_of (p_id p) s + pp_quantity pg).
  { intros Hfits.
    pose proof (post_cart_quantity_exact s (p_id p) (pp_quantity pg)
                  Hsmall Hfits) as H.
    fold s' in H. unfold quantity_of at 1 in H. now rewrite Hr in H. }
  apply select_some_line in Hr. destruct Hr as [Hin Hpid].
  exists (join_row r p). split.
  - apply in_select_cart_join; [exact Hin | | exact Hpid].
    unfold s'. change (fst (post_cart ?a ?b ?c))
      with (fst (serve a (AddOrIncrement b c))).
    now rewrite serve_products.
  - cbn [join_row j_id j_name j_price j_quantity]. repeat split.
    intros Hfits. now rewrite (Hquantity Hfits).
Qed.

(** The Gaming Console card of the seeded home page; the quantity is raised
    twice before the product is added. *)
Lemma home_product_reaches_cart_witness :
  let console := mkProduct 6 "Gaming Console" "🎮" 499.99%float
                           "Next-gen gaming" "Gaming" in
  let pg := use_controls (loaded fresh_db (mount 6)) [Plus; Plus] in
  NoDup (map p_id (products fresh_db))
  /\ In console (products fresh_db)
  /\ pp_product pg = Some (PRow console)
  /\ select_cart_join (fst (addToCart fresh_db pg)) =
     [join_row (mkCartRow 1 6 3) console]
  /\ int32 (pp_quantity pg) = true
  /\ sum_fits (quantity_of 6 fresh_db) (pp_quantity pg)
  /\ exists row,
       In row (select_cart_join (fst (addToCart fresh_db pg)))
       /\ j_id row = 6
       /\ j_quantity row = number_of_Z (quantity_of 6 fresh_db
                                        + pp_quantity pg).
Proof.
  intros console pg.
  assert (Hp : In console (products fresh_db)) by (do 5 right; now left).
  assert (Hfits : sum_fits (quantity_of 6 fresh_db) (pp_quantity pg))
    by (unfold sum_fits; vm_compute; repeat split; discriminate).
  destruct (home_product_reaches_cart fresh_db console [Plus; Plus]
              seeded_ids_unique Hp) as [_ [Hloaded [_ Hadded]]].
  destruct (Hadded eq_refl) as [row [Hin [Hid [_ [_ Hquantity]]]]].
  split; [exact seeded_ids_unique|]. split; [exact Hp|].
  split; [exact Hloaded|]. split; [reflexivity|].
  split; [reflexivity|]. split; [exact Hfits|].
  exists row. split; [exact Hin|]. split; [exact Hid|].
  exact (Hquantity Hfits).
Defined.

(* ================================================================== *)
(** * The chat window                                                  *)
(* ================================================================== *)

Module ChatFacts.
Import Chatbot.

Lemma trim_start_clean (t : js_string) : clean (trim_start t).
Proof.
  induction t as [|c t IH]; cbn; [exact I|].
  destruct (white c) eqn:E; [exact IH | exact E].
Qed.

Lemma trim_start_of_clean (t : js_string) : clean t -> trim_start t = t.
Proof.
  destruct t as [|c t]; cbn; [reflexivity|]. now intros ->.
Qed.

Lemma trim_start_suffix (t : js_string) :
  exists ws, t = ws ++ trim_start t.
Proof.
  induction t as [|c t [ws IH]]; [now exists []|]. cbn.
  destruct (white c); [|now exists []].
  exists (c :: ws). cbn. now rewrite <- IH.
Qed.

Lemma rev_trim_clean (a : js_string) :
  clean a -> clean (rev (trim_start (rev a))).
Proof.
  intros Ha. destruct (trim_start_suffix (rev a)) as [ws Hws].
  assert (Hrev : a = rev (trim_start (rev a)) ++ rev ws).
  { rewrite <- rev_app_distr, <- Hws. now rewrite rev_involutive. }
  destruct (rev (trim_start (rev a))) as [|x l]; [exact I|].
  rewrite Hrev in Ha. exact Ha.
Qed.

Lemma trim_idempotent (t : js_string) : trim (trim t) = trim t.
Proof.
  unfold trim.
  rewrite (trim_start_of_clean (rev (trim_start (rev (trim_start t)))))
    by (apply rev_trim_clean, trim_start_clean).
  rewrite rev_involutive.
  now rewrite (trim_start_of_clean (trim_start (rev (trim_start t))))
    by apply trim_start_clean.
Qed.

Lemma alternates_snoc (ms : list message) (next : role) (m : message) :
  alternates next ms ->
  m_role m = (if Nat.odd (List.length ms) then flip next else next) ->
  alternates next (ms ++ [m]).
Proof.
  revert next. induction ms as [|x ms IH]; intros next Hms Hm.
  - cbn in *. auto.
  - cbn [alternates app] in *. destruct Hms as [Hx Hrest].
    split; [exact Hx|]. apply IH; [exact Hrest|].
    cbn [List.length] in Hm. rewrite Nat.odd_succ in Hm.
    rewrite <- Nat.negb_odd in Hm.
    destruct (Nat.odd (List.length ms)), next; cbn in *; exact Hm.
Qed.

Lemma handle_well_formed (st : chat) (e : event) :
  well_formed st ->
  well_formed (handle st e)
  /\ exists suffix, messages (handle st e) = messages st ++ suffix.
Proof.
  intros [Halt [Hload Htrim]].
  assert (Hsame : well_formed st
                  /\ exists suffix, messages st = messages st ++ suffix).
  { split; [now repeat split | exists []; now rewrite app_nil_r]. }
  destruct e as [| |text| |o]; cbn [handle].
  - split; [now repeat split | exists []; now rewrite app_nil_r].
  - destruct (isOpen st); [|exact Hsame].
    split; [now repeat split | exists []; now rewrite app_nil_r].
  - destruct (isOpen st && negb (isLoading st)); [|exact Hsame].
    split; [now repeat split | exists []; now rewrite app_nil_r].
  - destruct (isOpen st && negb (isLoading st)) eqn:E; [|exact Hsame].
    apply andb_true_iff in E. destruct E as [_ E].
    apply negb_true_iff in E. rewrite E in Hload.
    unfold sendMessage.
    destruct (trim (inputMessage st)) as [|c t] eqn:Ht; [exact Hsame|].
    split; [|now eexists]. unfold well_formed. cbn [messages isLoading].
    split; [|split].
    + apply alternates_snoc; [exact Halt|]. now rewrite <- Hload.
    + rewrite length_app. cbn [List.length].
      rewrite Nat.add_1_r, Nat.odd_succ, <- Nat.negb_odd, <- Hload.
      reflexivity.
    + apply Forall_app. split; [exact Htrim|].
      constructor; [|constructor]. intros _. cbn [content].
      split; [discriminate|]. rewrite <- Ht. apply trim_idempotent.
  - destruct (isLoading st) eqn:E; [|exact Hsame].
    split; [|now eexists]. unfold well_formed, settle.
    cbn [messages isLoading]. split; [|split].
    + apply alternates_snoc; [exact Halt|]. now rewrite <- Hload.
    + rewrite length_app. cbn [List.length].
      rewrite Nat.add_1_r, Nat.odd_succ, <- Nat.negb_odd, <- Hload.
      reflexivity.
    + apply Forall_app. split; [exact Htrim|].
      constructor; [|constructor]. discriminate.
Qed.

Lemma handle_all_well_formed (es : list event) (st : chat) :
  well_formed st ->
  well_formed (handle_all st es)
  /\ exists suffix, messages (handle_all st es) = messages st ++ suffix.
Proof.
  revert st. induction es as [|e es IH]; intros st Hst.
  - split; [exact Hst | exists []; now rewrite app_nil_r].
  - destruct (handle_well_formed st e Hst) as [Hnext [s1 H1]].
    destruct (IH (handle st e) Hnext) as [Hend [s2 H2]].
    change (handle_all st (e :: es)) with (handle_all (handle st e) es).
    split; [exact Hend|]. exists (s1 ++ s2).
    now rewrite H2, H1, app_assoc.
Qed.

(** The history of the chat window is a dialogue that only grows.
    Whatever the user and the network do, in whatever order: the messages
    alternate, the user's first; a request is awaited exactly when the last
    message is the user's; every message of the user has something in it and
    no white space at either end; and what follows never removes or changes
    a message already there. *)
Theorem chat_history_is_a_dialogue (es more : list event) :
  alternates user (messages (handle_all initial es))
  /\ isLoading (handle_all initial es) =
     Nat.odd (List.length (messages (handle_all initial es)))
  /\ Forall (fun m => m_role m = user -> trimmed (content m))
            (messages (handle_all initial es))
  /\ exists suffix,
       messages (handle_all (handle_all initial es) more) =
       messages (handle_all initial es) ++ suffix.
Proof.
  assert (H0 : well_formed initial) by (repeat split; constructor).
  destruct (handle_all_well_formed es initial H0) as [[Ha [Hl Ht]] _].
  destruct (handle_all_well_formed more (handle_all initial es))
    as [_ Hgrow]; [now repeat split|].
  repeat split; assumption.
Qed.

End ChatFacts.
